(** * Step execution core of craft-parts: a shallow embedding

    This development embeds [craft_parts/executor/step_handler.py] and the
    execution errors of [craft_parts/errors.py], and verifies the behaviour
    of the step handler, of its control-channel server and of the script
    runner.

    Conventions.
    - A Python [str] is held as its UTF-8 byte string (a Rocq [string]);
      every string operation the code uses ([split] on an ASCII character,
      [in], [startswith], [endswith], concatenation) commutes with that
      encoding.  [bytes] are Rocq strings as well; [encode] is then the
      identity and [decode] a validity check.
    - Code of other modules and of the Python runtime (the JSON decoder,
      [repr], the process runner's child, the fileset resolver, the file
      migrator, ...) is collected in a record of collaborators [Env].
    - Effects are threaded through a state-and-exception monad [M]. *)

From Stdlib Require Import ZArith Ascii String List Lia Bool.
From stdpp Require Import base option gmap sets list strings pretty sorting.

Set Warnings "-register-all,-clear-no-such-hyp".

Local Open Scope Z_scope.
Local Open Scope string_scope.

(** ** Python string operations *)

Module PyStr.

(** [s.startswith(p)] *)
Fixpoint startswith (p s : string) : bool :=
  match p, s with
  | EmptyString, _ => true
  | String a p', String b s' => if Ascii.eqb a b then startswith p' s' else false
  | String _ _, EmptyString => false
  end.

(** [needle in s] *)
Fixpoint contains (needle s : string) : bool :=
  startswith needle s ||
  match s with
  | EmptyString => false
  | String _ s' => contains needle s'
  end.

(** [s.endswith(suffix)] *)
Fixpoint endswith (suffix s : string) : bool :=
  String.eqb suffix s ||
  match s with
  | EmptyString => false
  | String _ s' => endswith suffix s'
  end.

(** [s.split(sep)] for a separator of one character: the pieces between
    the occurrences of [sep], empty pieces included. *)
Fixpoint split (sep : ascii) (s : string) : list string :=
  match s with
  | EmptyString => [EmptyString]
  | String c s' =>
      if Ascii.eqb c sep then EmptyString :: split sep s'
      else match split sep s' with
           | [] => [String c EmptyString]
           | w :: ws => String c w :: ws
           end
  end.

(** The characters (code points) of [s], each as a string of one
    character: a character starts at every byte that is not a UTF-8
    continuation byte (10xxxxxx). *)
Definition is_continuation (c : ascii) : bool :=
  match c with
  | Ascii _ _ _ _ _ _ b6 b7 => b7 && negb b6
  end.

Fixpoint chars (s : string) : list string :=
  match s with
  | EmptyString => []
  | String c s' =>
      match s' with
      | EmptyString => [String c EmptyString]
      | String d _ =>
          if is_continuation d then
            match chars s' with
            | g :: gs => String c g :: gs
            | [] => [String c EmptyString]
            end
          else String c EmptyString :: chars s'
      end
  end.

(** [len(s)] *)
Definition len (s : string) : nat := length (chars s).

(** [bool(s)]: the empty string is falsy. *)
Definition truthy (s : string) : bool :=
  match s with EmptyString => false | _ => true end.

(** [str.join] on the empty separator *)
Definition join (parts : list string) : string :=
  fold_right String.append EmptyString parts.

(** [sep.join(parts)] *)
Fixpoint join_with (sep : string) (parts : list string) : string :=
  match parts with
  | [] => EmptyString
  | [p] => p
  | p :: ps => p +:+ sep +:+ join_with sep ps
  end.

Definition chr (c : ascii) : string := String c EmptyString.

End PyStr.

(** ** Python values decoded from JSON *)

(** What [json.loads] returns: [None], [bool], a number (kept as its
    literal), [str], [list] and [dict].  A [dict] is kept as the members in
    the order they were parsed; a later member with the same key replaces an
    earlier one. *)
Inductive json :=
| JNull
| JBool (b : bool)
| JNum (literal : string)
| JStr (s : string)
| JArr (items : list json)
| JObj (members : list (string * json)).

(** [d[key]] on the members of a dict; [None] when the key is absent. *)
Definition dict_get (key : string) (members : list (string * json)) : option json :=
  fold_left (fun acc kv => if String.eqb (fst kv) key then Some (snd kv) else acc)
            members None.

(** The keys of a dict, each once, in the order of first insertion. *)
Definition dict_keys (members : list (string * json)) : list string :=
  reverse (remove_dups (reverse (map fst members))).

(** ** Exceptions *)

(** The structured errors of [craft_parts/errors.py] that the step handler
    raises or handles; [OtherPartsError] stands for every other subclass of
    [PartsError], with the fields the base class stores. *)
Inductive parts_error :=
| PluginPullError (part_name : string)
| PluginBuildError (part_name plugin_name : string) (stderr : option string)
| InvalidControlAPICall (part_name scriptlet_name message : string)
| ScriptletRunError (part_name scriptlet_name : string) (exit_code : Z)
                    (stderr : option string)
| OtherPartsError (brief : string) (details resolution doc_slug : option string).

Inductive exn :=
| RuntimeError (msg : string)
| ValueError (msg : string)
| UnicodeDecodeError (msg : string)
| TypeError (msg : string)
| KeyError (msg : string)
| AttributeError (msg : string)
| IndexError (msg : string)
| OSError (msg : string)
| ProcessError (returncode : Z) (stderr : string)
| PartsError (e : parts_error).

(** [isinstance] tests used by the [except] clauses. *)
Definition is_ValueError (e : exn) : bool :=
  match e with ValueError _ | UnicodeDecodeError _ => true | _ => false end.

Definition is_RuntimeError (e : exn) : bool :=
  match e with RuntimeError _ => true | _ => false end.

Definition is_ProcessError (e : exn) : bool :=
  match e with ProcessError _ _ => true | _ => false end.

Definition is_PluginBuildError (e : exn) : bool :=
  match e with PartsError (PluginBuildError _ _ _) => true | _ => false end.

Definition is_PartsError (e : exn) : bool :=
  match e with PartsError _ => true | _ => false end.

Inductive result (A : Type) :=
| Ok (a : A)
| Raise (e : exn).
Arguments Ok {A} a.
Arguments Raise {A} e.

(** ** Dynamic operations on decoded values *)

(** [needle in v] *)
Definition py_in (needle : string) (v : json) : result bool :=
  match v with
  | JStr s => Ok (PyStr.contains needle s)
  | JArr items =>
      Ok (existsb (fun x => match x with JStr s => String.eqb s needle | _ => false end)
                  items)
  | JObj members => Ok (bool_decide (needle ∈ dict_keys members))
  | _ => Raise (TypeError "argument is not iterable")
  end.

(** [v[key]] for a string [key] *)
Definition py_getitem (key : string) (v : json) : result json :=
  match v with
  | JObj members =>
      match dict_get key members with
      | Some x => Ok x
      | None => Raise (KeyError key)
      end
  | JArr _ => Raise (TypeError "list indices must be integers or slices, not str")
  | JStr _ => Raise (TypeError "string indices must be integers, not 'str'")
  | _ => Raise (TypeError "object is not subscriptable")
  end.

(** [len(v)] *)
Definition py_len (v : json) : result nat :=
  match v with
  | JStr s => Ok (PyStr.len s)
  | JArr items => Ok (length items)
  | JObj members => Ok (length (dict_keys members))
  | _ => Raise (TypeError "object has no len()")
  end.

(** The values that iterating over [v] yields. *)
Definition py_iter (v : json) : result (list json) :=
  match v with
  | JStr s => Ok (map JStr (PyStr.chars s))
  | JArr items => Ok items
  | JObj members => Ok (map JStr (dict_keys members))
  | _ => Raise (TypeError "cannot unpack non-iterable object")
  end.

(** [(x,) = v] *)
Definition py_unpack1 (v : json) : result json :=
  match py_iter v with
  | Ok [x] => Ok x
  | Ok [] => Raise (ValueError "not enough values to unpack (expected 1, got 0)")
  | Ok _ => Raise (ValueError "too many values to unpack (expected 1)")
  | Raise e => Raise e
  end.

(** [a, b = l] for a list of strings *)
Definition py_unpack2 (l : list string) : result (string * string) :=
  match l with
  | [a; b] => Ok (a, b)
  | [] | [_] => Raise (ValueError "not enough values to unpack (expected 2)")
  | _ => Raise (ValueError "too many values to unpack (expected 2)")
  end.

(** [v[0]] *)
Definition py_getitem0 (v : json) : result json :=
  match v with
  | JStr s =>
      match PyStr.chars s with
      | c :: _ => Ok (JStr c)
      | [] => Raise (IndexError "string index out of range")
      end
  | JArr (x :: _) => Ok x
  | JArr [] => Raise (IndexError "list index out of range")
  | JObj _ => Raise (KeyError "0")
  | _ => Raise (TypeError "object is not subscriptable")
  end.

(** [v.split("=")] *)
Definition py_split_eq (v : json) : result (list string) :=
  match v with
  | JStr s => Ok (PyStr.split "="%char s)
  | _ => Raise (AttributeError "object has no attribute 'split'")
  end.

(** [v == s] for a string literal [s] *)
Definition py_eq_str (v : json) (s : string) : bool :=
  match v with JStr s' => String.eqb s' s | _ => false end.

(** [s == x] for a string [s] and an [x] that is a string or [None] *)
Definition py_eq_opt (s : string) (x : option string) : bool :=
  match x with Some s' => String.eqb s s' | None => false end.

(** [f"{x}"] for an [x] that is a string or [None] *)
Definition py_format_opt (x : option string) : string :=
  match x with Some s => s | None => "None" end.

(** ** Data model *)

(** The filesystem: regular files by path, with their text and mode bits. *)
Record file := File { content : string; mode : Z }.

Abbreviation fs := (gmap string file).

(** [pathlib]'s [base / name] for a relative name without separators, on
    the string of a path: a separator is added unless [base] is a root. *)
Definition joinpath (base name : string) : string :=
  if PyStr.endswith "/" base then base +:+ name else base +:+ "/" +:+ name.

(** [os.path.join(base, name)] for a relative [name] *)
Definition os_path_join (base name : string) : string :=
  if String.eqb base EmptyString then name
  else if PyStr.endswith "/" base then base +:+ name
  else base +:+ "/" +:+ name.

Inductive Step := PULL | OVERLAY | BUILD | STAGE | PRIME.

(** Modelled from the spec: the name of the default partition, the constant
    [DEFAULT_PARTITION] of [craft_parts.utils.partition_utils] ("the default
    is called default"). *)
Definition DEFAULT_PARTITION : string := "default".

(** Modelled from the spec: an entry of a part's permissions list
    ("optional path-pattern, optional owner, optional group, optional
    mode"); the step handler only passes the list on. *)
Record Permissions := {
  perm_path : option string;
  perm_owner : option Z;
  perm_group : option Z;
  perm_mode : option string
}.

(** What [Fileset(entries, name=..., default_partition=...)] is given;
    [default_partition] is [None] where the call leaves it out, and where
    it passes the default partition of a project without partitions. *)
Record Fileset := {
  entries : list string;
  fileset_name : string;
  fileset_default_partition : option string
}.

Record PartSpec := {
  stage_files : list string;
  prime_files : list string;
  permissions : list Permissions
}.

(** The attributes of [Part] that the step handler reads.  [get_stage_dir]
    and [get_prime_dir] are the methods of [part.dirs]. *)
Record Part := {
  name : string;
  plugin_name : string;
  spec : PartSpec;
  part_run_dir : string;
  part_src_subdir : string;
  part_build_subdir : string;
  part_install_dir : string;
  part_install_dirs : gmap string string;
  stage_dir : string;
  prime_dir : string;
  part_export_dir : string;
  backstage_dir : string;
  get_stage_dir : string -> string;
  get_prime_dir : string -> string
}.

(** The attributes of [StepInfo] that the step handler reads.
    [default_partition] is [None] for a project without partitions. *)
Record StepInfo := {
  step : Step;
  default_partition : option string
}.

(** [SourceHandler]: its [pull()] method. *)
Record SourceHandler := {
  pull : fs -> result unit * fs
}.

(** The command lists of the plugin. *)
Record Plugin := {
  get_pull_commands : list string;
  get_build_commands : list string
}.

(** [Stream = TextIO | int | None]: a handle, or nothing. *)
Abbreviation Stream := (option Z).

Record StepPartitionContents := {
  files : gset string;
  dirs : gset string
}.

Record StagePartitionContents := {
  as_StepPartitionContents : StepPartitionContents;
  backstage_files : gset string;
  backstage_dirs : gset string
}.

(** A value of [partitions_contents]: an instance of the base class or of
    its subclass. *)
Inductive PartitionContents :=
| StepPC (c : StepPartitionContents)
| StagePC (c : StagePartitionContents).

Definition empty_StepPartitionContents : StepPartitionContents :=
  {| files := ∅; dirs := ∅ |}.

Definition empty_StagePartitionContents : StagePartitionContents :=
  {| as_StepPartitionContents := empty_StepPartitionContents;
     backstage_files := ∅; backstage_dirs := ∅ |}.

Record StepContents := {
  partitions_contents : gmap string PartitionContents
}.

(** [StepContents.__init__] *)
Definition StepContents_init (partitions : option (list string)) (stage : bool)
  : StepContents :=
  let partitions :=
    match partitions with
    | None | Some [] => [DEFAULT_PARTITION]
    | Some ps => ps
    end in
  if stage then
    {| partitions_contents :=
         list_to_map (map (fun partition => (partition, StagePC empty_StagePartitionContents))
                          partitions) |}
  else
    {| partitions_contents :=
         list_to_map (map (fun partition => (partition, StepPC empty_StepPartitionContents))
                          partitions) |}.

(** [step_contents.partitions_contents[partition] = c] *)
Definition set_contents (partition : string) (c : PartitionContents)
  (sc : StepContents) : StepContents :=
  {| partitions_contents := <[partition := c]> (partitions_contents sc) |}.

(** ** The child process *)

(** Modelled from the spec: what the process started by [process.run] does,
    as far as its parent sees it.  It ends with an exit code and the bytes
    it wrote to its standard error, having changed the filesystem; before
    that it may connect to the control socket ([Connect], the listener
    becomes readable) and write to a connection or close it ([Readable]:
    the connection becomes readable and [recv(1024)] yields [data], empty
    when the peer closed it), and then goes on according to the replies it
    was sent. *)
Inductive child :=
| Exit (returncode : Z) (stderr : string) (effect : fs -> fs)
| Connect (conn : nat) (k : child)
| Readable (conn : nat) (data : string) (k : list string -> child).

(** The exit of a child that is sent nothing. *)
Fixpoint child_exit (c : child) : Z * string * (fs -> fs) :=
  match c with
  | Exit returncode stderr effect => (returncode, stderr, effect)
  | Connect _ k => child_exit k
  | Readable _ _ k => child_exit (k [])
  end.

(** ** Collaborators *)

(** The code outside [step_handler.py] and [errors.py] that the step
    handler calls; [V] is the state of the project variables kept by
    [StepInfo]. *)
Record Env (V : Type) := {
  (** [repr(v)] *)
  repr : json -> string;
  (** [data.decode("utf-8")] succeeds *)
  utf8_valid : string -> bool;
  (** [data.decode("utf-8", errors="replace")] *)
  decode_replace : string -> string;
  (** [json.loads]; [None] for [JSONDecodeError] *)
  json_loads : string -> option json;
  (** [StepInfo.get_project_var(name, raw_read=...)] *)
  get_project_var : json -> bool -> V -> result string;
  (** [StepInfo.set_project_var(name, value)] *)
  set_project_var : string -> string -> V -> result unit * V;
  (** [Path.absolute()] *)
  absolute : string -> string;
  (** the mode of a newly created file *)
  new_file_mode : Z;
  (** the directory [tempfile.TemporaryDirectory()] creates *)
  mkdtemp : fs -> string;
  (** the process [process.run] starts for a script *)
  exec : string -> string -> Stream -> Stream -> fs -> child;
  (** [Fileset.entries]: the entries as the fileset keeps them *)
  Fileset_entries : Fileset -> list string;
  (** [Fileset.includes] *)
  Fileset_includes : Fileset -> list string;
  (** [Fileset.combine(other)]: the fileset after the call *)
  Fileset_combine : Fileset -> Fileset -> result Fileset;
  (** [filesets.migratable_filesets(fileset, srcdir, default_partition,
      partition)] *)
  migratable_filesets :
    Fileset -> string -> option string -> option string -> fs ->
    result (gset string * gset string);
  (** [migrate_files(files=, dirs=, srcdir=, destdir=, fixup_func=,
      permissions=)] *)
  migrate_files :
    gset string -> gset string -> string -> string ->
    option (string -> fs -> result unit * fs) -> option (list Permissions) ->
    fs -> result (gset string * gset string) * fs;
  (** [os.path.islink] *)
  islink : string -> fs -> bool;
  (** [packages.fix_pkg_config(prefix_prepend=, pkg_config_file=,
      prefix_trim=)] *)
  fix_pkg_config : string -> string -> string -> fs -> result unit * fs
}.
Arguments repr {V} _ _.
Arguments utf8_valid {V} _ _.
Arguments decode_replace {V} _ _.
Arguments json_loads {V} _ _.
Arguments get_project_var {V} _ _ _ _.
Arguments set_project_var {V} _ _ _ _.
Arguments absolute {V} _ _.
Arguments new_file_mode {V} _.
Arguments mkdtemp {V} _ _.
Arguments exec {V} _ _ _ _ _ _.
Arguments Fileset_entries {V} _ _.
Arguments Fileset_includes {V} _ _.
Arguments Fileset_combine {V} _ _ _.
Arguments migratable_filesets {V} _ _ _ _ _ _.
Arguments migrate_files {V} _ _ _ _ _ _ _ _.
Arguments islink {V} _ _ _.
Arguments fix_pkg_config {V} _ _ _ _ _.

(** ** [errors.py]: the execution errors *)

Section Errors.
Context {V : Type} (E : Env V).

(** [{s!r}] for a string *)
Definition repr_str (s : string) : string := repr E (JStr s).

(** The loop of [UserExecutionError.details] over
    [enumerate(reversed(stderr_lines))]: [idx] is the index of the line at
    the head, [count] the trace lines seen before it.  The result is
    [anchor_line], which stays [0] when the loop ends without [break]. *)
Fixpoint find_anchor (reversed_lines : list string) (idx : Z) (count : Z) : Z :=
  match reversed_lines with
  | [] => 0
  | line :: rest =>
      if PyStr.startswith "+" line then
        let count := count + 1 in
        if (3 <? count)%Z then - idx
        else find_anchor rest (idx + 1) count
      else find_anchor rest (idx + 1) count
  end.

(** [l[anchor:]] *)
Definition slice_from {A} (anchor : Z) (l : list A) : list A :=
  if (anchor <? 0)%Z then drop (Z.to_nat (Z.max 0 (Z.of_nat (length l) + anchor))) l
  else drop (Z.to_nat anchor) l.

(** The non-empty lines of the decoded error output. *)
Definition stderr_lines (stderr : string) : list string :=
  List.filter PyStr.truthy (PyStr.split "010"%char (decode_replace E stderr)).

(** The lines that the details show. *)
Definition displayed_lines (stderr : string) : list string :=
  let lines := stderr_lines stderr in
  slice_from (find_anchor (rev lines) 0 0) lines.

(** [UserExecutionError.details] *)
Definition UserExecutionError_details (stderr : option string) : option string :=
  match stderr with
  | None => None
  | Some stderr =>
      Some (PyStr.join (map (fun line => String "010"%char ":: " +:+ line)
                            (displayed_lines stderr)))
  end.

Definition brief (e : parts_error) : string :=
  match e with
  | PluginPullError part_name =>
      "Failed to run the pull script for part " +:+ repr_str part_name +:+ "."
  | PluginBuildError part_name _ _ =>
      "Failed to run the build script for part " +:+ repr_str part_name +:+ "."
  | InvalidControlAPICall part_name scriptlet_name message =>
      repr_str scriptlet_name +:+ " in part " +:+ repr_str part_name
      +:+ " executed an invalid control API call: " +:+ message +:+ "."
  | ScriptletRunError part_name scriptlet_name exit_code _ =>
      repr_str scriptlet_name +:+ " in part " +:+ repr_str part_name
      +:+ " failed with code " +:+ pretty exit_code +:+ "."
  | OtherPartsError brief _ _ _ => brief
  end.

(** The [details] property. *)
Definition details (e : parts_error) : option string :=
  match e with
  | PluginBuildError _ _ stderr => UserExecutionError_details stderr
  | ScriptletRunError _ _ _ stderr => UserExecutionError_details stderr
  | PluginPullError _ => None
  | InvalidControlAPICall _ _ _ => None
  | OtherPartsError _ details _ _ => details
  end.

Definition resolution (e : parts_error) : option string :=
  match e with
  | PluginBuildError _ plugin_name _ =>
      Some ("Check the build output and verify the project can work with the "
            +:+ repr_str plugin_name +:+ " plugin.")
  | InvalidControlAPICall _ _ _ =>
      Some "Review the scriptlet and make sure it's correct."
  | ScriptletRunError _ _ _ _ =>
      Some "Review the scriptlet and make sure it's correct."
  | PluginPullError _ => None
  | OtherPartsError _ _ resolution _ => resolution
  end.

Definition doc_slug (e : parts_error) : option string :=
  match e with
  | PluginBuildError _ _ _ => Some "/reference/plugins/"
  | ScriptletRunError _ _ _ _ => Some "/reference/plugins/"
  | PluginPullError _ => None
  | InvalidControlAPICall _ _ _ => None
  | OtherPartsError _ _ _ doc_slug => doc_slug
  end.

(** [if x:] for an optional string: [None] and the empty string are
    falsy. *)
Definition opt_truthy (x : option string) : list string :=
  match x with
  | Some s => if PyStr.truthy s then [s] else []
  | None => []
  end.

(** [PartsError.__str__] *)
Definition PartsError_str (e : parts_error) : string :=
  PyStr.join_with (String "010"%char EmptyString)
    ([brief e] ++ opt_truthy (details e) ++ opt_truthy (resolution e)).

End Errors.

(** ** State and the monad of the handler *)

(** The calls the handler makes to its collaborators, in order. *)
Inductive call :=
| CallPull
| CallRun (script cwd : string) (with_selector : bool)
| CallMigratable (fileset : Fileset) (srcdir : string)
                 (default_partition partition : option string)
| CallMigrate (srcdir destdir : string) (with_fixup with_permissions : bool).

Record hstate (V : Type) := HState {
  (** the filesystem *)
  disk : fs;
  (** the project variables of [StepInfo] *)
  vars : V;
  (** what [conn.send] has sent, oldest first, with the connection *)
  sent : list (nat * string);
  (** the connections registered in the selector with [read] *)
  registered : gset nat;
  (** the connections the server has closed *)
  closed : gset nat;
  (** the control sockets that are bound and open *)
  listening : gset string;
  (** the calls to collaborators *)
  calls : list call
}.
Arguments HState {V} _ _ _ _ _ _ _.
Arguments disk {V} _.
Arguments vars {V} _.
Arguments sent {V} _.
Arguments registered {V} _.
Arguments closed {V} _.
Arguments listening {V} _.
Arguments calls {V} _.

Definition set_disk {V} (d : fs) (st : hstate V) : hstate V :=
  HState d (vars st) (sent st) (registered st) (closed st) (listening st) (calls st).

Definition set_vars {V} (v : V) (st : hstate V) : hstate V :=
  HState (disk st) v (sent st) (registered st) (closed st) (listening st) (calls st).

Definition set_sent {V} (s : list (nat * string)) (st : hstate V) : hstate V :=
  HState (disk st) (vars st) s (registered st) (closed st) (listening st) (calls st).

Definition set_registered {V} (r : gset nat) (st : hstate V) : hstate V :=
  HState (disk st) (vars st) (sent st) r (closed st) (listening st) (calls st).

Definition set_closed {V} (c : gset nat) (st : hstate V) : hstate V :=
  HState (disk st) (vars st) (sent st) (registered st) c (listening st) (calls st).

Definition set_listening {V} (l : gset string) (st : hstate V) : hstate V :=
  HState (disk st) (vars st) (sent st) (registered st) (closed st) l (calls st).

Definition set_calls {V} (c : list call) (st : hstate V) : hstate V :=
  HState (disk st) (vars st) (sent st) (registered st) (closed st) (listening st) c.

Definition M (V A : Type) : Type := hstate V -> result A * hstate V.

Definition ret {V A} (a : A) : M V A := fun st => (Ok a, st).

Definition raise {V A} (e : exn) : M V A := fun st => (Raise e, st).

Definition bind {V A B} (m : M V A) (k : A -> M V B) : M V B :=
  fun st =>
    match m st with
    | (Ok a, st') => k a st'
    | (Raise e, st') => (Raise e, st')
    end.

Notation "x <- m ;; k" := (bind m (fun x => k))
  (at level 100, m at next level, right associativity).
Notation "m ;;; k" := (bind m (fun _ => k))
  (at level 100, right associativity).

(** [try: m  except ... as e: handler e]; a handler re-raises what its
    clauses do not catch. *)
Definition try_except {V A} (m : M V A) (handler : exn -> M V A) : M V A :=
  fun st =>
    match m st with
    | (Ok a, st') => (Ok a, st')
    | (Raise e, st') => handler e st'
    end.

(** [try: m  finally: cleanup] *)
Definition try_finally {V A} (m : M V A) (cleanup : M V unit) : M V A :=
  fun st =>
    match m st with
    | (r, st') =>
        match cleanup st' with
        | (Ok _, st'') => (r, st'')
        | (Raise e, st'') => (Raise e, st'')
        end
    end.

Definition lift_result {V A} (r : result A) : M V A := fun st => (r, st).

(** A collaborator that works on the filesystem. *)
Definition on_disk {V A} (f : fs -> result A * fs) : M V A :=
  fun st =>
    match f (disk st) with
    | (r, d) => (r, set_disk d st)
    end.

(** A collaborator that reads the filesystem. *)
Definition read_disk {V A} (f : fs -> result A) : M V A :=
  fun st => (f (disk st), st).

Definition log_call {V} (c : call) : M V unit :=
  fun st => (Ok tt, set_calls (calls st ++ [c]) st).

(** [for x in l: s = body x s] *)
Fixpoint for_each {V A S} (l : list A) (body : A -> S -> M V S) (s : S) : M V S :=
  match l with
  | [] => ret s
  | x :: l' => s' <- body x s ;; for_each l' body s'
  end.

Section Handler.
Context {V : Type} (E : Env V).

(** *** Files *)

(** Opening [path] for writing and writing [text]: the file is created
    with the default mode, or truncated and its mode kept. *)
Definition write_text (path text : string) : M V unit :=
  on_disk (fun d =>
    let m := match d !! path with Some f => mode f | None => new_file_mode E end in
    (Ok tt, <[path := File text m]> d)).

(** [path.chmod(m)] *)
Definition chmod (path : string) (m : Z) : M V unit :=
  on_disk (fun d =>
    match d !! path with
    | Some f => (Ok tt, <[path := File (content f) m]> d)
    | None => (Raise (OSError "No such file or directory"), d)
    end).

(** Removing a directory with what it holds. *)
Definition rmtree (dir : string) : M V unit :=
  on_disk (fun d =>
    (Ok tt, filter (fun kv => PyStr.startswith (joinpath dir EmptyString) (fst kv) = false) d)).

(** *** The script runner *)

Record Selector := {
  (** the callback registered for the listening socket *)
  accept_cb : nat -> M V unit;
  (** the callback registered for an accepted connection *)
  read_cb : nat -> string -> M V unit
}.

(** Modelled from the spec: the loop of [process.run] that pumps the
    selector while the child runs.  An event of the child calls the
    callback registered for it; an exception of a callback leaves the
    loop.  Without a selector nobody serves the control socket and the
    child is sent nothing.  The result is the exit code and the error
    output of the child. *)
Fixpoint pump (selector : option Selector) (c : child) : M V (Z * string) :=
  match c with
  | Exit returncode stderr effect =>
      on_disk (fun d => (Ok (returncode, stderr), effect d))
  | Connect conn k =>
      match selector with
      | Some sel => accept_cb sel conn ;;; pump selector k
      | None => pump selector k
      end
  | Readable conn data k =>
      match selector with
      | Some sel =>
          fun st =>
            if bool_decide (conn ∈ registered st) then
              match read_cb sel conn data st with
              | (Ok _, st') =>
                  pump selector (k (map snd (drop (length (sent st)) (sent st')))) st'
              | (Raise e, st') => (Raise e, st')
              end
            else pump selector (k []) st
      | None => pump selector (k [])
      end
  end.

(** Modelled from the spec: [process.run([script_path], cwd=, stdout=,
    stderr=, check=True, selector=)] of [craft_parts.utils.process]:
    "executes it as a child process ... with the child's exit code checked:
    non-zero raises a process error carrying returncode and captured stderr
    bytes". *)
Definition process_run (script_path cwd : string) (stdout stderr : Stream)
  (selector : option Selector) : M V unit :=
  log_call (CallRun script_path cwd (bool_decide (is_Some selector))) ;;;
  c <- read_disk (fun d => Ok (exec E script_path cwd stdout stderr d)) ;;
  r <- pump selector c ;;
  let '(returncode, err) := r in
  if (returncode =? 0)%Z then ret tt else raise (ProcessError returncode err).

(** [print(line, file=run_file)] *)
Definition print_line (line : string) : string :=
  line +:+ String "010"%char EmptyString.

(** What [_create_and_run_script] writes to the script file. *)
Definition script_text (commands : list string)
  (environment_script_path : option string) : string :=
  print_line "#!/bin/bash"
  +:+ print_line "set -euo pipefail"
  +:+ match environment_script_path with
      | Some p => print_line ("source " +:+ p)
      | None => EmptyString
      end
  +:+ print_line "set -x"
  +:+ PyStr.join (map print_line commands).

Definition _create_and_run_script (commands : list string) (script_path cwd : string)
  (stdout stderr : Stream) (environment_script_path : option string)
  (selector : option Selector) : M V unit :=
  write_text script_path (script_text commands environment_script_path) ;;;
  chmod script_path 493 (* 0o755 *) ;;;
  process_run script_path cwd stdout stderr selector.


(** *** The step handler *)

Record StepHandler := {
  _part : Part;
  _step_info : StepInfo;
  _plugin : Plugin;
  _source_handler : option SourceHandler;
  _env : string;
  _stdout : Stream;
  _stderr : Stream;
  _partitions : option (list string)
}.

Section Builtins.
Variable self : StepHandler.

Definition _builtin_pull : M V StepContents :=
  match _source_handler self with
  | Some h => log_call CallPull ;;; on_disk (pull h)
  | None => ret tt
  end ;;;
  let pull_commands := get_pull_commands (_plugin self) in
  match pull_commands with
  | _ :: _ =>
      try_except
        (_create_and_run_script pull_commands
           (joinpath (absolute E (part_run_dir (_part self))) "pull.sh")
           (part_src_subdir (_part self))
           (_stdout self) (_stderr self) None None)
        (fun e =>
           match e with
           | ProcessError _ _ => raise (PartsError (PluginPullError (name (_part self))))
           | _ => raise e
           end)
  | [] => ret tt
  end ;;;
  ret (StepContents_init None false).

Definition _builtin_overlay : M V StepContents :=
  ret (StepContents_init None false).

Definition _builtin_build : M V StepContents :=
  let build_commands := get_build_commands (_plugin self) in
  let build_environment_script_path :=
    joinpath (absolute E (part_run_dir (_part self))) "environment.sh" in
  write_text build_environment_script_path (_env self) ;;;
  chmod build_environment_script_path 420 (* 0o644 *) ;;;
  try_except
    (_create_and_run_script build_commands
       (joinpath (absolute E (part_run_dir (_part self))) "build.sh")
       (part_build_subdir (_part self))
       (_stdout self) (_stderr self)
       (Some build_environment_script_path) None)
    (fun e =>
       match e with
       | ProcessError _ stderr =>
           raise (PartsError (PluginBuildError (name (_part self))
                                               (plugin_name (_part self))
                                               (Some stderr)))
       | _ => raise e
       end) ;;;
  ret (StepContents_init None false).

(** The closure [pkgconfig_fixup] of [_builtin_stage]. *)
Definition pkgconfig_fixup (file_path : string) (d : fs) : result unit * fs :=
  if islink E file_path d then (Ok tt, d)
  else if negb (PyStr.endswith ".pc" file_path) then (Ok tt, d)
  else fix_pkg_config E (stage_dir (_part self)) file_path
                      (part_install_dir (_part self)) d.

(** The two collaborators of the file migration, with their calls
    recorded. *)
Definition call_migratable_filesets (fileset : Fileset) (srcdir : string)
  (default_partition : option string) (partition : option string)
  : M V (gset string * gset string) :=
  log_call (CallMigratable fileset srcdir default_partition partition) ;;;
  read_disk (migratable_filesets E fileset srcdir default_partition partition).

Definition call_migrate_files (files dirs : gset string) (srcdir destdir : string)
  (fixup_func : option (string -> fs -> result unit * fs))
  (permissions : option (list Permissions)) : M V (gset string * gset string) :=
  log_call (CallMigrate srcdir destdir (bool_decide (is_Some fixup_func))
                        (bool_decide (is_Some permissions))) ;;;
  on_disk (migrate_files E files dirs srcdir destdir fixup_func permissions).

(** [self._part.part_install_dirs[partition]] *)
Definition install_dir_of (partition : string) : M V string :=
  match part_install_dirs (_part self) !! partition with
  | Some d => ret d
  | None => raise (KeyError partition)
  end.

(** The body of the loop of [_builtin_stage] over the partitions; the
    variables it assigns are [backstage_files], [backstage_dirs] and
    [step_contents]. *)
Definition stage_partition (stage_fileset : Fileset) (partition : string)
  (s : gset string * gset string * StepContents)
  : M V (gset string * gset string * StepContents) :=
  let '(backstage_files, backstage_dirs, step_contents) := s in
  let default_partition := default_partition (_step_info self) in
  srcdir <- install_dir_of partition ;;
  r <- call_migratable_filesets stage_fileset srcdir default_partition (Some partition) ;;
  let '(partition_files, partition_dirs) := r in
  srcdir <- install_dir_of partition ;;
  r <- call_migrate_files partition_files partition_dirs srcdir
         (get_stage_dir (_part self) partition) (Some pkgconfig_fixup) None ;;
  let '(partition_files, partition_dirs) := r in
  if py_eq_opt partition default_partition then
    r <- call_migrate_files backstage_files backstage_dirs
           (part_export_dir (_part self)) (backstage_dir (_part self)) None None ;;
    let '(backstage_files, backstage_dirs) := r in
    ret (backstage_files, backstage_dirs,
         set_contents partition
           (StagePC {| as_StepPartitionContents :=
                         {| files := partition_files; dirs := partition_dirs |};
                       backstage_files := backstage_files;
                       backstage_dirs := backstage_dirs |})
           step_contents)
  else
    ret (backstage_files, backstage_dirs,
         set_contents partition
           (StagePC {| as_StepPartitionContents :=
                         {| files := partition_files; dirs := partition_dirs |};
                       backstage_files := ∅;
                       backstage_dirs := ∅ |})
           step_contents).

Definition _builtin_stage : M V StepContents :=
  let default_partition := default_partition (_step_info self) in
  let stage_fileset :=
    {| entries := stage_files (spec (_part self));
       fileset_name := "stage";
       fileset_default_partition := default_partition |} in
  let step_contents := StepContents_init None true in
  match _partitions self with
  | Some ((_ :: _) as partitions) =>
      r <- call_migratable_filesets
             {| entries := ["(" +:+ py_format_opt default_partition +:+ ")/*"];
                fileset_name := "backstage";
                fileset_default_partition := default_partition |}
             (part_export_dir (_part self)) default_partition
             default_partition ;;
      let '(backstage_files, backstage_dirs) := r in
      s <- for_each partitions (stage_partition stage_fileset)
             (backstage_files, backstage_dirs, step_contents) ;;
      ret (snd s)
  | _ =>
      r <- call_migratable_filesets stage_fileset
             (part_install_dir (_part self)) (Some DEFAULT_PARTITION) None ;;
      let '(files, dirs) := r in
      r <- call_migrate_files files dirs (part_install_dir (_part self))
             (stage_dir (_part self)) (Some pkgconfig_fixup) None ;;
      let '(files, dirs) := r in
      r <- call_migratable_filesets
             {| entries := ["*"]; fileset_name := "backstage";
                fileset_default_partition := None |}
             (part_export_dir (_part self)) (Some DEFAULT_PARTITION) None ;;
      let '(backstage_files, backstage_dirs) := r in
      r <- call_migrate_files backstage_files backstage_dirs
             (part_export_dir (_part self)) (backstage_dir (_part self)) None None ;;
      let '(backstage_files, backstage_dirs) := r in
      ret (set_contents DEFAULT_PARTITION
             (StagePC {| as_StepPartitionContents := {| files := files; dirs := dirs |};
                         backstage_files := backstage_files;
                         backstage_dirs := backstage_dirs |})
             step_contents)
  end.

(** The body of the loop of [_builtin_prime] over the partitions. *)
Definition prime_partition (prime_fileset : Fileset) (partition : string)
  (step_contents : StepContents) : M V StepContents :=
  srcdir <- install_dir_of partition ;;
  r <- call_migratable_filesets prime_fileset srcdir
         (default_partition (_step_info self)) (Some partition) ;;
  let '(partition_files, partition_dirs) := r in
  let srcdir := get_stage_dir (_part self) partition in
  let destdir := get_prime_dir (_part self) partition in
  r <- call_migrate_files partition_files partition_dirs srcdir destdir None
         (Some (permissions (spec (_part self)))) ;;
  let '(partition_files, partition_dirs) := r in
  ret (set_contents partition
         (StepPC {| files := partition_files; dirs := partition_dirs |})
         step_contents).

Definition _builtin_prime : M V StepContents :=
  let prime_fileset :=
    {| entries := prime_files (spec (_part self));
       fileset_name := "prime";
       fileset_default_partition := default_partition (_step_info self) |} in
  prime_fileset <-
    (if bool_decide (Fileset_entries E prime_fileset = ["*"])
        || (length (Fileset_includes E prime_fileset) =? 0)%nat
     then
       let stage_fileset :=
         {| entries := stage_files (spec (_part self));
            fileset_name := "stage";
            fileset_default_partition := default_partition (_step_info self) |} in
       lift_result (Fileset_combine E prime_fileset stage_fileset)
     else ret prime_fileset) ;;
  let step_contents := StepContents_init None false in
  match _partitions self with
  | Some ((_ :: _) as partitions) =>
      for_each partitions (prime_partition prime_fileset) step_contents
  | _ =>
      r <- call_migratable_filesets prime_fileset
             (part_install_dir (_part self)) (Some DEFAULT_PARTITION) None ;;
      let '(files, dirs) := r in
      r <- call_migrate_files files dirs (stage_dir (_part self))
             (prime_dir (_part self)) None
             (Some (permissions (spec (_part self)))) ;;
      let '(files, dirs) := r in
      ret (set_contents DEFAULT_PARTITION
             (StepPC {| files := files; dirs := dirs |}) step_contents)
  end.

(** [run_builtin]; the five steps are all there is, so the final [else]
    of the chain cannot be reached. *)
Definition run_builtin : M V StepContents :=
  match step (_step_info self) with
  | PULL => _builtin_pull
  | OVERLAY => _builtin_overlay
  | BUILD => _builtin_build
  | STAGE => _builtin_stage
  | PRIME => _builtin_prime
  end.

Definition _execute_builtin_handler (step : Step) : M V unit :=
  match step with
  | PULL => _builtin_pull ;;; ret tt
  | OVERLAY => _builtin_overlay ;;; ret tt
  | BUILD => _builtin_build ;;; ret tt
  | STAGE => _builtin_stage ;;; ret tt
  | PRIME => _builtin_prime ;;; ret tt
  end.

End Builtins.

(** *** The control API *)

Section Control.
Variable self : StepHandler.

Definition _process_api_commands (cmd_name cmd_args : json) (step : Step)
  (scriptlet_name : string) : M V string :=
  let invalid_control_api_call message :=
    PartsError (InvalidControlAPICall (name (_part self)) scriptlet_name message) in
  if py_eq_str cmd_name "default" then
    n <- lift_result (py_len cmd_args) ;;
    if (0 <? n)%nat then
      raise (invalid_control_api_call
               ("invalid arguments to command " +:+ repr E cmd_name))
    else
      _execute_builtin_handler self step ;;;
      ret EmptyString
  else if py_eq_str cmd_name "set" then
    n <- lift_result (py_len cmd_args) ;;
    if negb (n =? 1)%nat then
      raise (invalid_control_api_call
               ("invalid arguments to command " +:+ repr E cmd_name))
    else
      arg <- lift_result (py_getitem0 cmd_args) ;;
      has_eq <- lift_result (py_in "=" arg) ;;
      if negb has_eq then
        raise (invalid_control_api_call
                 ("invalid arguments to command " +:+ repr E cmd_name
                  +:+ " (want key=value)"))
      else
        arg <- lift_result (py_getitem0 cmd_args) ;;
        pieces <- lift_result (py_split_eq arg) ;;
        nv <- lift_result (py_unpack2 pieces) ;;
        let '(name, value) := nv in
        try_except
          (fun st =>
             match set_project_var E name value (vars st) with
             | (r, v) => (r, set_vars v st)
             end)
          (fun err =>
             match err with
             | ValueError msg | UnicodeDecodeError msg | RuntimeError msg =>
                 raise (invalid_control_api_call msg)
             | _ => raise err
             end) ;;;
        ret EmptyString
  else if py_eq_str cmd_name "get" then
    n <- lift_result (py_len cmd_args) ;;
    if negb (n =? 1)%nat then
      raise (invalid_control_api_call
               ("invalid number of arguments to command " +:+ repr E cmd_name))
    else
      name <- lift_result (py_unpack1 cmd_args) ;;
      try_except
        (fun st => (get_project_var E name true (vars st), st))
        (fun err =>
           match err with
           | ValueError msg | UnicodeDecodeError msg =>
               raise (invalid_control_api_call msg)
           | _ => raise err
           end)
  else
    raise (invalid_control_api_call ("invalid command " +:+ repr E cmd_name)).

(** The loop [for attr in ["function", "args"]] of [_handle_control_api]. *)
Fixpoint check_attrs (scriptlet_name : string) (attrs : list string)
  (function_json : json) : M V unit :=
  match attrs with
  | [] => ret tt
  | attr :: rest =>
      present <- lift_result (py_in attr function_json) ;;
      if negb present then
        raise (RuntimeError (repr_str E scriptlet_name
                             +:+ " control call missing attribute "
                             +:+ repr_str E attr))
      else check_attrs scriptlet_name rest function_json
  end.

Definition _handle_control_api (step : Step) (scriptlet_name function_call : string)
  : M V string :=
  match json_loads E function_call with
  | None =>
      raise (RuntimeError (repr_str E scriptlet_name
                           +:+ " scriptlet called a function with invalid json: "
                           +:+ function_call))
  | Some function_json =>
      check_attrs scriptlet_name ["function"; "args"] function_json ;;;
      cmd_name <- lift_result (py_getitem "function" function_json) ;;
      cmd_args <- lift_result (py_getitem "args" function_json) ;;
      _process_api_commands cmd_name cmd_args step scriptlet_name
  end.

(** [conn.send(data)] *)
Definition send (conn : nat) (data : string) : M V unit :=
  fun st => (Ok tt, set_sent (sent st ++ [(conn, data)]) st).

(** [selector.register(conn, selectors.EVENT_READ, read)] *)
Definition register (conn : nat) : M V unit :=
  fun st =>
    if bool_decide (conn ∈ registered st) then
      (Raise (KeyError "already registered"), st)
    else
      (Ok tt, set_registered ({[conn]} ∪ registered st) st).

(** [selector.unregister(conn)] *)
Definition unregister (conn : nat) : M V unit :=
  fun st =>
    if bool_decide (conn ∈ registered st) then
      (Ok tt, set_registered (registered st ∖ {[conn]}) st)
    else (Raise (KeyError "not registered"), st).

(** [conn.close()] *)
Definition close (conn : nat) : M V unit :=
  fun st => (Ok tt, set_closed ({[conn]} ∪ closed st) st).

(** [data.decode("utf-8")] *)
Definition decode_utf8 (data : string) : M V string :=
  if utf8_valid E data then ret data
  else raise (UnicodeDecodeError "'utf-8' codec can't decode bytes").

(** The callback [accept] of [_ctl_server_selector]; [conn] is the
    connection that [sock.accept()] returns. *)
Definition accept (conn : nat) : M V unit :=
  register conn.

(** The callback [read] of [_ctl_server_selector]; [data] is what
    [conn.recv(1024)] returns. *)
Definition read (step : Step) (scriptlet_name : string) (conn : nat) (data : string)
  : M V unit :=
  if negb (PyStr.truthy data) then
    unregister conn ;;;
    close conn
  else
    try_except
      (function_call <- decode_utf8 data ;;
       retval <- _handle_control_api step scriptlet_name function_call ;;
       send conn (if PyStr.truthy retval
                  then "OK " +:+ retval +:+ String "010"%char EmptyString
                  else "OK" +:+ String "010"%char EmptyString))
      (fun error =>
         match error with
         | PartsError (PluginBuildError _ _ _) => raise error
         | PartsError e =>
             send conn ("ERR " +:+ PartsError_str E e +:+ String "010"%char EmptyString)
         | _ => raise error
         end).

Definition _ctl_server_selector (step : Step) (scriptlet_name : string) : Selector :=
  {| accept_cb := accept; read_cb := read step scriptlet_name |}.

(** [ctl_socket.bind(path)] and [ctl_socket.listen(1)] *)
Definition bind_and_listen (path : string) : M V unit :=
  fun st => (Ok tt, set_listening ({[path]} ∪ listening st) st).

(** [ctl_socket.close()] *)
Definition close_socket (path : string) : M V unit :=
  fun st => (Ok tt, set_listening (listening st ∖ {[path]}) st).

Definition run_scriptlet (scriptlet scriptlet_name : string) (step : Step)
  (work_dir : string) : M V unit :=
  tempdir <- read_disk (fun d => Ok (mkdtemp E d)) ;;
  try_finally
    (let ctl_socket_path := os_path_join tempdir "craftctl.socket" in
     bind_and_listen ctl_socket_path ;;;
     let selector := _ctl_server_selector step scriptlet_name in
     let environment :=
       "export PARTS_CTL_SOCKET=" +:+ ctl_socket_path
       +:+ String "010"%char EmptyString +:+ _env self in
     let environment_script_path := joinpath tempdir "scriptlet_environment.sh" in
     write_text environment_script_path environment ;;;
     chmod environment_script_path 420 (* 0o644 *) ;;;
     try_finally
       (try_except
          (_create_and_run_script [scriptlet] (joinpath tempdir "scriptlet.sh")
             work_dir (_stdout self) (_stderr self)
             (Some environment_script_path) (Some selector))
          (fun e =>
             match e with
             | ProcessError returncode stderr =>
                 raise (PartsError (ScriptletRunError (name (_part self)) scriptlet_name
                                                      returncode (Some stderr)))
             | _ => raise e
             end))
       (close_socket ctl_socket_path))
    (rmtree tempdir).

End Control.
End Handler.

(** ** The properties under verification, as definitions *)

(** A shell-trace line begins with [+]. *)
Definition is_trace (line : string) : bool := PyStr.startswith "+" line.

Definition trace_count (lines : list string) : nat :=
  length (List.filter is_trace lines).

(** [line] as the details show it. *)
Definition details_line (line : string) : string :=
  String "010"%char ":: " +:+ line.

(** The details that hold the last three trace lines and nothing else. *)
Definition last_three_traces {V} (E : Env V) (stderr : string) : list string :=
  let traces := List.filter is_trace (stderr_lines E stderr) in
  drop (length traces - 3) traces.

Definition details_of_last_three_traces {V} (E : Env V) (stderr : string)
  : option string :=
  Some (PyStr.join (map details_line (last_three_traces E stderr))).

(** The text [function_call] decodes to a request object with this
    [function] and these [args]. *)
Definition request_of {V} (E : Env V) (function_call : string)
  (cmd_name cmd_args : json) : Prop :=
  exists members,
    json_loads E function_call = Some (JObj members)
    /\ dict_get "function" members = Some cmd_name
    /\ dict_get "args" members = Some cmd_args.

(** The replies of the server. *)
Definition reply_ok : string := "OK" +:+ String "010"%char EmptyString.

Definition reply_ok_value (value : string) : string :=
  "OK " +:+ value +:+ String "010"%char EmptyString.

Definition reply_err (message : string) : string :=
  "ERR " +:+ message +:+ String "010"%char EmptyString.

(** The misuses of the control API that the spec lists as recoverable, with
    the message of each: an unknown command, a wrong number of arguments
    for [default], [set] or [get], and an argument of [set] without [=]. *)
Definition misuse {V} (E : Env V) (cmd_name : string) (cmd_args : list string)
  : option string :=
  if String.eqb cmd_name "default" then
    match cmd_args with
    | [] => None
    | _ :: _ => Some ("invalid arguments to command " +:+ repr_str E cmd_name)
    end
  else if String.eqb cmd_name "set" then
    match cmd_args with
    | [arg] =>
        if PyStr.contains "=" arg then None
        else Some ("invalid arguments to command " +:+ repr_str E cmd_name
                   +:+ " (want key=value)")
    | _ => Some ("invalid arguments to command " +:+ repr_str E cmd_name)
    end
  else if String.eqb cmd_name "get" then
    match cmd_args with
    | [_] => None
    | _ => Some ("invalid number of arguments to command " +:+ repr_str E cmd_name)
    end
  else Some ("invalid command " +:+ repr_str E cmd_name).

(** Project variables that behave as a store: a variable can always be
    set, and is then read back. *)
Definition faithful_store {V} (E : Env V) : Prop :=
  forall (name value : string) (vars : V),
  exists vars',
    set_project_var E name value vars = (Ok tt, vars')
    /\ get_project_var E (JStr name) true vars' = Ok value.

(** The pump serves the child [c] from the state [st] without an exception
    up to the point where the child is [c'] and the state [st']. *)
Inductive serves {V} (sel : Selector (V:=V)) :
  hstate V -> child -> hstate V -> child -> Prop :=
| serves_here st c : serves sel st c st c
| serves_connect st conn k st1 st' c' :
    accept_cb sel conn st = (Ok tt, st1) ->
    serves sel st1 k st' c' ->
    serves sel st (Connect conn k) st' c'
| serves_request st conn data k st1 st' c' :
    conn ∈ registered st ->
    read_cb sel conn data st = (Ok tt, st1) ->
    serves sel st1 (k (map snd (drop (length (sent st)) (sent st1)))) st' c' ->
    serves sel st (Readable conn data k) st' c'
| serves_unregistered st conn data k st' c' :
    conn ∉ registered st ->
    serves sel st (k []) st' c' ->
    serves sel st (Readable conn data k) st' c'.

Section Launch.
Context {V : Type} (E : Env V) (self : StepHandler).
Variables (scriptlet : string) (work_dir : string) (st : hstate V).

(** The paths that [run_scriptlet] uses. *)
Definition scriptlet_tempdir : string := mkdtemp E (disk st).

Definition ctl_socket_path : string :=
  os_path_join scriptlet_tempdir "craftctl.socket".

Definition scriptlet_environment_sh : string :=
  joinpath scriptlet_tempdir "scriptlet_environment.sh".

Definition scriptlet_sh : string := joinpath scriptlet_tempdir "scriptlet.sh".

(** The filesystem on which [run_scriptlet] starts the scriptlet. *)
Definition scriptlet_disk : fs :=
  <[scriptlet_sh := File (script_text [scriptlet] (Some scriptlet_environment_sh)) 493]>
    (<[scriptlet_environment_sh :=
         File ("export PARTS_CTL_SOCKET=" +:+ ctl_socket_path
               +:+ String "010"%char EmptyString +:+ _env self) 420]>
       (disk st)).

(** The state in which the pump starts to serve the scriptlet. *)
Definition scriptlet_start : hstate V :=
  HState scriptlet_disk (vars st) (sent st) (registered st) (closed st)
         ({[ctl_socket_path]} ∪ listening st)
         (calls st ++ [CallRun scriptlet_sh work_dir true]).

(** The process of the scriptlet. *)
Definition scriptlet_child : child :=
  exec E scriptlet_sh work_dir (_stdout self) (_stderr self) scriptlet_disk.

(** What [run_scriptlet] does on its way out: the socket is closed and
    the temporary directory removed. *)
Definition scriptlet_cleanup (st' : hstate V) : hstate V :=
  set_disk
    (filter (fun kv => PyStr.startswith (joinpath scriptlet_tempdir EmptyString)
                                        (fst kv) = false)
            (disk st'))
    (set_listening (listening st' ∖ {[ctl_socket_path]}) st').

End Launch.

Section Outcomes.
Context {V : Type} (E : Env V) (self : StepHandler).
Variables (step : Step) (scriptlet_name : string).

(** Whenever a scriptlet run has been served up to the request [data] on
    [conn] in the state [st], the run ends with the exception [e], in the
    state [st1] cleaned up. *)
Definition aborts_scriptlet_run (conn : nat) (data : string) (st : hstate V)
  (e : exn) (st1 : hstate V) : Prop :=
  forall (scriptlet work_dir : string) (st0 : hstate V) (k : list string -> child),
    serves (_ctl_server_selector E self step scriptlet_name)
           (scriptlet_start E self scriptlet work_dir st0)
           (scriptlet_child E self scriptlet work_dir st0)
           st (Readable conn data k) ->
    conn ∈ registered st ->
    run_scriptlet E self scriptlet scriptlet_name step work_dir st0
    = (Raise e, scriptlet_cleanup E st0 st1).

(** Whenever a scriptlet run has been served up to the request [data] on
    [conn] in the state [st], it is served further: the connection stays
    registered and open, and the scriptlet goes on with the [reply]. *)
Definition keeps_serving (conn : nat) (data : string) (st : hstate V)
  (reply : string) (st1 : hstate V) : Prop :=
  forall (scriptlet work_dir : string) (st0 : hstate V) (k : list string -> child),
    serves (_ctl_server_selector E self step scriptlet_name)
           (scriptlet_start E self scriptlet work_dir st0)
           (scriptlet_child E self scriptlet work_dir st0)
           st (Readable conn data k) ->
    conn ∈ registered st ->
    serves (_ctl_server_selector E self step scriptlet_name)
           (scriptlet_start E self scriptlet work_dir st0)
           (scriptlet_child E self scriptlet work_dir st0)
           st1 (k [reply])
    /\ conn ∈ registered st1
    /\ (conn ∈ closed st1 -> conn ∈ closed st).

End Outcomes.

(** The two states differ at most in the filesystem and in the recorded
    calls. *)
Definition same_channel {V} (st st1 : hstate V) : Prop :=
  vars st1 = vars st /\ sent st1 = sent st /\ registered st1 = registered st
  /\ closed st1 = closed st /\ listening st1 = listening st.

(** A computation that changes at most the filesystem and the recorded
    calls, however it ends. *)
Definition frames {V A} (m : M V A) : Prop :=
  forall st r st1, m st = (r, st1) -> same_channel st st1.

(** The control call [set] with the argument [K=V] returns, and the control
    call [get] with the argument [K] after it returns [V]. *)
Definition set_then_get_reads_back {V} (E : Env V) (self : StepHandler)
  (step : Step) (scriptlet_name : string) (K value : string) (st : hstate V) : Prop :=
  exists st1,
    _process_api_commands E self (JStr "set") (JArr [JStr (K +:+ "=" +:+ value)])
                          step scriptlet_name st
    = (Ok EmptyString, st1)
    /\ _process_api_commands E self (JStr "get") (JArr [JStr K])
                             step scriptlet_name st1
       = (Ok value, st1).

(** A computation that makes the calls [t] to collaborators, in this
    order, when it returns, and a first part of them when it raises. *)
Definition traces {V A} (m : M V A) (t : list call) : Prop :=
  forall st r st1,
    m st = (r, st1) ->
    (exists n, calls st1 = (calls st ++ take n t)%list)
    /\ (forall a, r = Ok a -> calls st1 = (calls st ++ t)%list).

(** The keys that the spec gives to the contents of a step: the partitions
    requested, or the default partition when there are none. *)
Definition requested_keys (partitions : option (list string)) : gset string :=
  match partitions with
  | None | Some [] => {[ DEFAULT_PARTITION ]}
  | Some ps => list_to_set ps
  end.

Section StageCalls.
Variable self : StepHandler.

(** The resolution of the backstage fileset in partitioned mode. *)
Definition backstage_resolution : call :=
  let default_partition := default_partition (_step_info self) in
  CallMigratable
    {| entries := ["(" +:+ py_format_opt default_partition +:+ ")/*"];
       fileset_name := "backstage";
       fileset_default_partition := default_partition |}
    (part_export_dir (_part self)) default_partition default_partition.

(** The migration from the export directory to the backstage directory. *)
Definition backstage_migration : call :=
  CallMigrate (part_export_dir (_part self)) (backstage_dir (_part self)) false false.

(** The calls for one partition with the install directory [srcdir]: the
    stage fileset is resolved and migrated, and for the default partition
    the backstage is migrated too. *)
Definition stage_partition_calls (partition : string) : list call :=
  let default_partition := default_partition (_step_info self) in
  let srcdir := default EmptyString (part_install_dirs (_part self) !! partition) in
  [ CallMigratable
      {| entries := stage_files (spec (_part self));
         fileset_name := "stage";
         fileset_default_partition := default_partition |}
      srcdir default_partition (Some partition);
    CallMigrate srcdir (get_stage_dir (_part self) partition) true false ]
  ++ (if py_eq_opt partition default_partition then [backstage_migration] else [])%list.

(** The calls of STAGE in partitioned mode. *)
Definition stage_calls (partitions : list string) : list call :=
  backstage_resolution :: flat_map stage_partition_calls partitions.

(** Every partition but the default one has contents of the stage kind
    with empty backstage sets. *)
Definition backstage_only_in_default (sc : StepContents) : Prop :=
  forall partition c,
    Some partition <> default_partition (_step_info self) ->
    partitions_contents sc !! partition = Some c ->
    exists c', c = StagePC c' /\ backstage_files c' = ∅ /\ backstage_dirs c' = ∅.

End StageCalls.

(** ** A sample environment *)

Module Sample.

Definition LF : string := String "010"%char EmptyString.

(** [repr] of a string that needs no escapes; other values are not
    needed. *)
Definition show (v : json) : string :=
  match v with
  | JStr s => "'" +:+ s +:+ "'"
  | _ => "<object>"
  end.

(** A string in double quotes, as JSON writes it. *)
Definition quoted (s : string) : string :=
  String "034"%char s +:+ String "034"%char EmptyString.

(** The text of the request for [function] with [args]. *)
Definition request_text (function : string) (args : list string) : string :=
  "{" +:+ quoted "function" +:+ ": " +:+ quoted function +:+ ", "
  +:+ quoted "args" +:+ ": [" +:+ PyStr.join_with ", " (map quoted args) +:+ "]}".

(** A request without its arguments. *)
Definition request_without_args (function : string) : string :=
  "{" +:+ quoted "function" +:+ ": " +:+ quoted function +:+ "}".

(** The requests that the samples send. *)
Definition known_requests : list (string * list string) :=
  [ ("set", ["ver=1.2.3"]); ("set", ["a=b=c"]); ("set", ["ver"]);
    ("set", ["empty="]); ("set", []);
    ("get", ["ver"]); ("get", ["empty"]); ("get", []);
    ("default", []); ("default", ["x"]); ("frobnicate", []) ].

(** A decoder for the known requests; any other text is refused. *)
Definition loads (s : string) : option json :=
  match List.find (fun r => String.eqb s (request_text (fst r) (snd r))) known_requests with
  | Some (function, args) =>
      Some (JObj [("function", JStr function); ("args", JArr (map JStr args))])
  | None =>
      if String.eqb s (request_without_args "get")
      then Some (JObj [("function", JStr "get")])
      else None
  end.

(** Project variables as a map from names to values: writing always
    succeeds, reading an unset name fails. *)
Definition get_var (name : json) (raw_read : bool) (vars : gmap string string)
  : result string :=
  match name with
  | JStr k =>
      match vars !! k with
      | Some v => Ok v
      | None => Raise (ValueError (show (JStr k) +:+ " not in project variables"))
      end
  | JArr _ | JObj _ => Raise (TypeError "unhashable type")
  | _ => Raise (ValueError (show name +:+ " not in project variables"))
  end.

Definition set_var (name value : string) (vars : gmap string string)
  : result unit * gmap string string :=
  (Ok tt, <[name := value]> vars).

(** The error output of the failing build. *)
Definition build_stderr : string :=
  "+ make" +:+ LF +:+ "make: *** No targets.  Stop." +:+ LF.

(** An error output with four trace lines and a final message. *)
Definition traced_stderr : string :=
  "+ ./configure" +:+ LF +:+ "+ make" +:+ LF +:+ "+ make check" +:+ LF
  +:+ "+ make install" +:+ LF
  +:+ "make: *** No rule to make target 'install'.  Stop." +:+ LF.

(** The text of the script at [path], empty if there is none. *)
Definition script_at (path : string) (d : fs) : string :=
  match d !! path with
  | Some f => content f
  | None => EmptyString
  end.

(** The child of a script: [build.sh] fails with code 2 after a shell
    trace if it calls [make], [pull.sh] fails with code 1 if it calls
    [git], [scriptlet.sh] in the directory [/tmp/ctl] connects and sends
    the request held in the file [/request], and every other script
    succeeds. *)
Definition run_child (script_path cwd : string) (stdout stderr : Stream) (d : fs)
  : child :=
  if PyStr.endswith "/build.sh" script_path
     && PyStr.contains "make" (script_at script_path d) then
    Exit 2 build_stderr id
  else if PyStr.endswith "/pull.sh" script_path
          && PyStr.contains "git" (script_at script_path d) then
    Exit 1 EmptyString id
  else if String.eqb script_path "/tmp/ctl/scriptlet.sh" then
    match d !! "/request" with
    | Some f => Connect 0 (Readable 0 (content f) (fun _ => Exit 0 EmptyString id))
    | None => Exit 0 EmptyString id
    end
  else Exit 0 EmptyString id.

(** The entries that a fileset keeps: as they were given for a fileset
    without a default partition, and otherwise each bound to a partition,
    the default one unless the entry names another in parentheses. *)
Definition kept_entries (f : Fileset) : list string :=
  match fileset_default_partition f with
  | Some p =>
      map (fun entry =>
             if PyStr.startswith "(" entry || PyStr.startswith "-(" entry then entry
             else if PyStr.startswith "-" entry then
               "-(" +:+ p +:+ ")/" +:+ substring 1 (String.length entry - 1) entry
             else "(" +:+ p +:+ ")/" +:+ entry)
          (entries f)
  | None => entries f
  end.

(** A resolver that finds one file under every root, and a migrator that
    reports what it was given. *)
Definition resolve (fileset : Fileset) (srcdir : string)
  (default_partition partition : option string) (d : fs)
  : result (gset string * gset string) :=
  Ok ({[ "usr/bin/tool" ]}, {[ "usr"; "usr/bin" ]}).

Definition migrate (files dirs : gset string) (srcdir destdir : string)
  (fixup_func : option (string -> fs -> result unit * fs))
  (permissions : option (list Permissions)) (d : fs)
  : result (gset string * gset string) * fs :=
  (Ok (files, dirs), d).

Definition env : Env (gmap string string) := {|
  repr := show;
  utf8_valid := fun _ => true;
  decode_replace := fun s => s;
  json_loads := loads;
  get_project_var := get_var;
  set_project_var := set_var;
  absolute := fun p => p;
  new_file_mode := 420;
  mkdtemp := fun _ => "/tmp/ctl";
  exec := run_child;
  Fileset_entries := kept_entries;
  Fileset_includes :=
    fun f => List.filter (fun x => negb (PyStr.startswith "-" x)) (kept_entries f);
  Fileset_combine := fun f other => Ok other;
  migratable_filesets := resolve;
  migrate_files := migrate;
  islink := fun _ _ => false;
  fix_pkg_config := fun _ _ _ d => (Ok tt, d)
|}.

Definition part : Part := {|
  name := "foo";
  plugin_name := "make";
  spec := {| stage_files := ["usr/bin/*"]; prime_files := []; permissions := [] |};
  part_run_dir := "/parts/foo/run";
  part_src_subdir := "/parts/foo/src";
  part_build_subdir := "/parts/foo/build";
  part_install_dir := "/parts/foo/install";
  part_install_dirs :=
    {[ "default" := "/parts/foo/install"; "kernel" := "/partitions/kernel/parts/foo/install" ]};
  stage_dir := "/stage";
  prime_dir := "/prime";
  part_export_dir := "/parts/foo/export";
  backstage_dir := "/backstage";
  get_stage_dir := fun p => if String.eqb p "default" then "/stage"
                            else "/partitions/" +:+ p +:+ "/stage";
  get_prime_dir := fun p => if String.eqb p "default" then "/prime"
                            else "/partitions/" +:+ p +:+ "/prime"
|}.

Definition handler (s : Step) (commands : list string)
  (partitions : option (list string)) : StepHandler := {|
  _part := part;
  _step_info :=
    {| step := s;
       default_partition :=
         match partitions with Some (_ :: _) => Some "default" | _ => None end |};
  _plugin := {| get_pull_commands := commands; get_build_commands := commands |};
  _source_handler := None;
  _env := "export A=1" +:+ LF;
  _stdout := None;
  _stderr := None;
  _partitions := partitions
|}.

(** A state with the given project variables and files, and nothing
    else. *)
Definition state (vars : gmap string string) (d : fs) : hstate (gmap string string) :=
  HState d vars [] ∅ ∅ ∅ [].

(** The state in which nothing has happened yet. *)
Definition fresh : hstate (gmap string string) := state ∅ ∅.

(** The reply to a misuse of the control API by [override-build]. *)
Definition misuse_reply (message : string) : string :=
  "ERR 'override-build' in part 'foo' executed an invalid control API call: "
  +:+ message +:+ "." +:+ LF
  +:+ "Review the scriptlet and make sure it's correct." +:+ LF.

End Sample.

(** ** Further properties of the step handler, as definitions *)

(** A computation whose start and end are related by [R], however it
    ends. *)
Definition keeps {V A} (R : hstate V -> hstate V -> Prop) (m : M V A) : Prop :=
  forall st r st1, m st = (r, st1) -> R st st1.

(** The two states have the same connections: what was sent, the
    registered and the closed connections and the listening sockets. *)
Definition same_connections {V} (st st1 : hstate V) : Prop :=
  sent st1 = sent st /\ registered st1 = registered st
  /\ closed st1 = closed st /\ listening st1 = listening st.

(** The two states have the same filesystem and the same recorded
    calls. *)
Definition same_build {V} (st st1 : hstate V) : Prop :=
  disk st1 = disk st /\ calls st1 = calls st.

(** A reply of the server: [OK], [OK <value>] or [ERR <message>], each
    with a newline. *)
Definition is_reply (data : string) : Prop :=
  data = reply_ok \/ (exists value, data = reply_ok_value value)
  \/ (exists message, data = reply_err message).

(** ** Sample environments with faults *)

Module Faulty.

(** A decoder that also knows three texts that are no request objects. *)
Definition loads (s : string) : option json :=
  if String.eqb s "null" then Some JNull
  else if String.eqb s "42" then Some (JNum "42")
  else if String.eqb s ("[" +:+ Sample.quoted "function" +:+ ", "
                        +:+ Sample.quoted "args" +:+ "]")
  then Some (JArr [JStr "function"; JStr "args"])
  else Sample.loads s.

(** The error output of the failing scriptlet. *)
Definition scriptlet_stderr : string := "+ exit 3" +:+ Sample.LF.

(** The child of a script: a script that holds [exit 3] fails with code 3
    without a request, every other script does what it does in the sample
    environment. *)
Definition run_child (script_path cwd : string) (stdout stderr : Stream) (d : fs)
  : child :=
  if PyStr.contains "exit 3" (Sample.script_at script_path d) then
    Exit 3 scriptlet_stderr id
  else Sample.run_child script_path cwd stdout stderr d.

(** The sample environment with project variables that refuse every
    access with the exception [e], and with a decoder of UTF-8 that refuses
    the byte [0xff], which no UTF-8 text holds. *)
Definition env (e : exn) : Env (gmap string string) := {|
  repr := Sample.show;
  utf8_valid := fun s => negb (PyStr.contains (String "255"%char EmptyString) s);
  decode_replace := fun s => s;
  json_loads := loads;
  get_project_var := fun _ _ _ => Raise e;
  set_project_var := fun _ _ vars => (Raise e, vars);
  absolute := fun p => p;
  new_file_mode := 420;
  mkdtemp := fun _ => "/tmp/ctl";
  exec := run_child;
  Fileset_entries := Sample.kept_entries;
  Fileset_includes :=
    fun f => List.filter (fun x => negb (PyStr.startswith "-" x))
                         (Sample.kept_entries f);
  Fileset_combine := fun f other => Raise e;
  migratable_filesets := Sample.resolve;
  migrate_files := Sample.migrate;
  islink := fun _ _ => false;
  fix_pkg_config := fun _ _ _ d => (Ok tt, d)
|}.

End Faulty.

(** ** [errors.py]: errors built from lists *)

(** [s.replace(old, new)] for a non-empty [old]: the occurrences of [old]
    are replaced from left to right and do not overlap.  [skip] counts the
    characters of a replaced occurrence that are still to be dropped.  The
    [old] that the code replaces is ASCII, so that replacing in the UTF-8
    bytes is replacing in the text. *)
Fixpoint replace_from (old new s : string) (skip : nat) : string :=
  match s with
  | EmptyString => EmptyString
  | String c s' =>
      match skip with
      | S n => replace_from old new s' n
      | O =>
          if PyStr.startswith old s
          then new +:+ replace_from old new s' (String.length old - 1)
          else String c (replace_from old new s' 0)
      end
  end.

Definition str_replace (old new s : string) : string := replace_from old new s 0.

(** The tail [S] of a text is empty or begins with [c0]. *)
Definition begins_with_or_empty (c0 : ascii) (S : string) : Prop :=
  S = EmptyString \/ exists S', S = String c0 S'.

(** The order of [str]: by code points, which is the order of the UTF-8
    byte strings. *)
Definition str_le (a b : string) : Prop := String.leb a b = true.

#[global] Instance str_le_dec : RelDecision str_le :=
  fun a b => decide (String.leb a b = true).

(** [sorted(l)] for strings.  The order is total and antisymmetric, so
    that the sorted list is the same for every sorting algorithm. *)
Definition py_sorted (l : list string) : list string := merge_sort str_le l.

(** A part of a pydantic [Loc]: a [str], an [int] with the text that
    formatting it gives, or a value of another type with its text. *)
Inductive loc_part :=
| LocStr (s : string)
| LocInt (shown : string)
| LocOther (shown : string).

(** [loc_parts.pop()] *)
Definition py_pop (loc_parts : list string) : result (string * list string) :=
  match reverse loc_parts with
  | [] => Raise (IndexError "pop from empty list")
  | previous_part :: others => Ok (previous_part, reverse others)
  end.

(** The loop of [_format_loc] over the parts of [loc]. *)
Fixpoint format_loc_parts (loc : list loc_part) (loc_parts : list string)
  : result (list string) :=
  match loc with
  | [] => Ok loc_parts
  | LocStr s :: rest => format_loc_parts rest (loc_parts ++ [s])
  | LocInt shown :: rest =>
      match py_pop loc_parts with
      | Ok (previous_part, loc_parts) =>
          format_loc_parts rest (loc_parts ++ [previous_part +:+ "[" +:+ shown +:+ "]"])
      | Raise e => Raise e
      end
  | LocOther shown :: _ => Raise (TypeError ("unhandled loc: " +:+ shown))
  end.

(** [PartSpecificationError._format_loc] and
    [FilesystemMountError._format_loc], which have the same body. *)
Definition _format_loc (loc : list loc_part) : result string :=
  match format_loc_parts loc [] with
  | Ok loc_parts => Ok (str_replace ".__root__" EmptyString (PyStr.join_with "." loc_parts))
  | Raise e => Raise e
  end.

(** The value of the key [loc] of an error of pydantic: a tuple, or a
    value of another type. *)
Inductive loc_value :=
| LocTuple (parts : list loc_part)
| LocNotTuple.

(** An [ErrorDict], as far as it is read: [error.get("loc")] and
    [error.get("msg")], [None] for a missing key. *)
Record ErrorDict := {
  error_loc : option loc_value;
  error_msg : option string
}.

Section ListErrors.
Context {V : Type} (E : Env V).

(** The line for an error with the message [msg] in the field [field]. *)
Definition formatted_error (field msg : string) : string :=
  if String.eqb msg "field required" then
    "- field " +:+ repr_str E field +:+ " is required"
  else if String.eqb msg "extra fields not permitted" then
    "- extra field " +:+ repr_str E field +:+ " not permitted"
  else "- " +:+ msg +:+ " in field " +:+ repr_str E field.

(** The loop of [PartSpecificationError.from_validation_error] over
    [error_list]: an error is skipped unless its [loc] is a tuple that is
    not empty and its [msg] is not empty. *)
Fixpoint PartSpecificationError_formatted_errors (error_list : list ErrorDict)
  (formatted_errors : list string) : result (list string) :=
  match error_list with
  | [] => Ok formatted_errors
  | error :: rest =>
      match error_loc error, error_msg error with
      | Some (LocTuple loc), Some msg =>
          if negb (negb (length loc =? 0)%nat && PyStr.truthy msg) then
            PartSpecificationError_formatted_errors rest formatted_errors
          else
            match _format_loc loc with
            | Ok field =>
                PartSpecificationError_formatted_errors rest
                  (formatted_errors ++ [formatted_error field msg])
            | Raise e => Raise e
            end
      | _, _ => PartSpecificationError_formatted_errors rest formatted_errors
      end
  end.

(** The loop of [FilesystemMountError.from_validation_error] over
    [error_list]: an error is skipped unless its [loc] is a tuple and its
    [msg] is not empty. *)
Fixpoint FilesystemMountError_formatted_errors (error_list : list ErrorDict)
  (formatted_errors : list string) : result (list string) :=
  match error_list with
  | [] => Ok formatted_errors
  | error :: rest =>
      match error_loc error, error_msg error with
      | Some (LocTuple loc), Some msg =>
          if negb (PyStr.truthy msg) then
            FilesystemMountError_formatted_errors rest formatted_errors
          else
            match _format_loc loc with
            | Ok field =>
                FilesystemMountError_formatted_errors rest
                  (formatted_errors ++ [formatted_error field msg])
            | Raise e => Raise e
            end
      | _, _ => FilesystemMountError_formatted_errors rest formatted_errors
      end
  end.

(** [PartSpecificationError(part_name=..., message=...)] *)
Definition PartSpecificationError (part_name message : string) : parts_error :=
  OtherPartsError ("Part " +:+ repr_str E part_name +:+ " validation failed.")
    (Some message)
    (Some ("Review part " +:+ repr_str E part_name +:+ " and make sure it's correct."))
    None.

(** [PartSpecificationError.from_validation_error] *)
Definition PartSpecificationError_from_validation_error (part_name : string)
  (error_list : list ErrorDict) : result parts_error :=
  match PartSpecificationError_formatted_errors error_list [] with
  | Ok lines =>
      Ok (PartSpecificationError part_name
            (PyStr.join_with (String "010"%char EmptyString) lines))
  | Raise e => Raise e
  end.

(** [FilesystemMountError.from_validation_error] *)
Definition FilesystemMountError_from_validation_error (error_list : list ErrorDict)
  : result parts_error :=
  match FilesystemMountError_formatted_errors error_list [] with
  | Ok lines =>
      Ok (OtherPartsError "Filesystem validation failed."
            (Some (PyStr.join_with (String "010"%char EmptyString) lines)) None None)
  | Raise e => Raise e
  end.

(** [file_paths] of the two conflict errors: the files indented, sorted
    and one on a line. *)
Definition file_paths (conflicting_files : list string) : string :=
  PyStr.join_with (String "010"%char EmptyString)
    (py_sorted (map (fun i => "    " +:+ i) conflicting_files)).

(** [PartFilesConflict(part_name=..., other_part_name=...,
    conflicting_files=..., partition=...)] *)
Definition PartFilesConflict (part_name other_part_name : string)
  (conflicting_files : list string) (partition : option string) : parts_error :=
  let partition_info :=
    match partition with
    | Some p =>
        if PyStr.truthy p then " for the " +:+ repr_str E p +:+ " partition"
        else EmptyString
    | None => EmptyString
    end in
  OtherPartsError
    "Failed to stage: parts list the same file with different contents or permissions."
    (Some ("Parts " +:+ repr_str E part_name +:+ " and " +:+ repr_str E other_part_name
           +:+ " list the following files" +:+ partition_info
           +:+ ", but with different contents or permissions:"
           +:+ String "010"%char EmptyString +:+ file_paths conflicting_files))
    None None.

(** [StageFilesConflict(part_name=..., conflicting_files=...)] *)
Definition StageFilesConflict (part_name : string) (conflicting_files : list string)
  : parts_error :=
  OtherPartsError
    "Failed to stage: part files conflict with files already being staged."
    (Some ("The following files in part " +:+ repr_str E part_name
           +:+ " are already being staged with different content:"
           +:+ String "010"%char EmptyString +:+ file_paths conflicting_files))
    None None.

End ListErrors.

(** * Verification *)

(** ** Facts about the string operations *)

Lemma contains_cons needle c s :
  PyStr.contains needle (String c s) = false -> PyStr.contains needle s = false.
Proof. simpl. intros H. apply orb_false_iff in H. tauto. Qed.

Lemma contains_chr_head sep c s :
  PyStr.contains (PyStr.chr sep) (String c s) = false -> Ascii.eqb c sep = false.
Proof.
  simpl. intros H. apply orb_false_iff in H. destruct H as [H _].
  rewrite Ascii.eqb_sym. destruct (Ascii.eqb sep c); [discriminate|reflexivity].
Qed.

(** A string without the separator is one piece. *)
Lemma split_absent sep s :
  PyStr.contains (PyStr.chr sep) s = false -> PyStr.split sep s = [s].
Proof.
  induction s as [|c s IH]; intros H; [reflexivity|].
  simpl. rewrite (contains_chr_head _ _ _ H).
  rewrite IH by (eapply contains_cons; eauto). reflexivity.
Qed.

(** The first piece ends at the first separator. *)
Lemma split_app sep k v :
  PyStr.contains (PyStr.chr sep) k = false ->
  PyStr.split sep (k +:+ String sep v) = k :: PyStr.split sep v.
Proof.
  induction k as [|c k IH]; intros H; simpl.
  - rewrite Ascii.eqb_refl. reflexivity.
  - rewrite (contains_chr_head _ _ _ H).
    rewrite IH by (eapply contains_cons; eauto). reflexivity.
Qed.

Lemma contains_app_sep sep k v :
  PyStr.contains (PyStr.chr sep) (k +:+ String sep v) = true.
Proof.
  induction k as [|c k IH]; simpl.
  - rewrite Ascii.eqb_refl. reflexivity.
  - rewrite IH. apply orb_true_r.
Qed.

(** ** Facts about the state, the files and the script runner *)

Lemma append_inj_l (p a b : string) : p +:+ a = p +:+ b -> a = b.
Proof.
  induction p as [|c p IH]; simpl; intros H; [assumption|].
  injection H as H. auto.
Qed.

Lemma append_assoc (a b c : string) : (a +:+ b) +:+ c = a +:+ b +:+ c.
Proof.
  induction a as [|x a IH]; [reflexivity|].
  change (String x ((a +:+ b) +:+ c) = String x (a +:+ b +:+ c)).
  f_equal. exact IH.
Qed.

(** Two names in one directory are two paths. *)
Lemma joinpath_inj (base n1 n2 : string) :
  joinpath base n1 = joinpath base n2 -> n1 = n2.
Proof.
  unfold joinpath. destruct (PyStr.endswith "/" base); intros H.
  - eapply append_inj_l; eassumption.
  - apply append_inj_l in H. simpl in H. injection H as H. assumption.
Qed.

Section BaseFacts.
Context {V : Type} (E : Env V).

(** Writing a file and setting its mode leaves the text with that mode. *)
Lemma write_text_chmod (path text : string) (m : Z) (st : hstate V) :
  (write_text E path text ;;; chmod path m) st
  = (Ok tt, set_disk (<[path := File text m]> (disk st)) st).
Proof.
  unfold bind, write_text, chmod, on_disk. simpl.
  rewrite lookup_insert_eq. simpl.
  rewrite insert_insert_eq. destruct st; reflexivity.
Qed.

Lemma write_text_chmod_then {A} (path text : string) (m : Z) (k : M V A)
  (st : hstate V) :
  (write_text E path text ;;; chmod path m ;;; k) st
  = k (set_disk (<[path := File text m]> (disk st)) st).
Proof.
  pose proof (write_text_chmod path text m st) as Hw.
  unfold bind in *.
  destruct (write_text E path text st) as [[[]|e] st1]; [|discriminate].
  destruct (chmod path m st1) as [[[]|e] st2]; [|discriminate].
  injection Hw as ->. reflexivity.
Qed.

(** The script is written and made executable before the process starts. *)
Lemma create_and_run_script_unfold (commands : list string)
  (script_path cwd : string) (stdout stderr : Stream)
  (environment_script_path : option string) (selector : option (Selector (V:=V)))
  (st : hstate V) :
  _create_and_run_script E commands script_path cwd stdout stderr
                         environment_script_path selector st
  = process_run E script_path cwd stdout stderr selector
      (set_disk (<[script_path :=
                     File (script_text commands environment_script_path) 493]>
                   (disk st)) st).
Proof. unfold _create_and_run_script. apply write_text_chmod_then. Qed.

(** Without a selector the child runs to its exit. *)
Lemma pump_no_selector (c : child) (st : hstate V) :
  pump None c st
  = (Ok (fst (fst (child_exit c)), snd (fst (child_exit c))),
     set_disk (snd (child_exit c) (disk st)) st).
Proof.
  revert st. induction c as [rc err eff|conn k IH|conn data k IH]; intros st; simpl.
  - reflexivity.
  - apply IH.
  - apply IH.
Qed.

(** The script runner without a selector: the call is recorded, the child
    changes the filesystem, and its exit code decides. *)
Lemma process_run_no_selector (script_path cwd : string) (stdout stderr : Stream)
  (st : hstate V) :
  let c := exec E script_path cwd stdout stderr (disk st) in
  process_run E script_path cwd stdout stderr None st
  = (if (fst (fst (child_exit c)) =? 0)%Z then Ok tt
     else Raise (ProcessError (fst (fst (child_exit c))) (snd (fst (child_exit c)))),
     set_disk (snd (child_exit c) (disk st))
              (set_calls (calls st ++ [CallRun script_path cwd false]) st)).
Proof.
  intros c. unfold process_run, bind, log_call, read_disk. simpl.
  rewrite pump_no_selector. simpl. fold c.
  destruct (child_exit c) as [[rc err] eff]. simpl.
  destruct (rc =? 0)%Z; reflexivity.
Qed.

End BaseFacts.

(** ** Facts about the control API *)

Lemma py_eq_opt_spec (s : string) (x : option string) :
  reflect (Some s = x) (py_eq_opt s x).
Proof.
  destruct x as [s'|]; cbn.
  - destruct (String.eqb_spec s s') as [->|Hne]; constructor; congruence.
  - constructor. discriminate.
Qed.

Lemma dict_get_fold (key : string) (members : list (string * json))
  (acc : option json) :
  is_Some (fold_left (fun acc kv => if String.eqb (fst kv) key then Some (snd kv) else acc)
                     members acc)
  <-> is_Some acc \/ key ∈ map fst members.
Proof.
  revert acc. induction members as [|[k v] members IH]; intros acc; simpl.
  - rewrite elem_of_nil. tauto.
  - rewrite IH, elem_of_cons. destruct (String.eqb_spec k key) as [->|Hne].
    + split; [intros _; right; left; reflexivity|intros _; left; eauto].
    + split; [intros [?|?]; auto|intros [?|[?|?]]; auto; congruence].
Qed.

(** A key has a value exactly when it is among the keys. *)
Lemma dict_get_is_Some (key : string) (members : list (string * json)) :
  is_Some (dict_get key members) <-> key ∈ dict_keys members.
Proof.
  unfold dict_get, dict_keys. rewrite dict_get_fold.
  rewrite elem_of_reverse, elem_of_remove_dups, elem_of_reverse.
  split; [intros [H|H]; [destruct H; discriminate|assumption]|auto].
Qed.

Lemma py_in_member (key : string) (members : list (string * json)) (v : json) :
  dict_get key members = Some v -> py_in key (JObj members) = Ok true.
Proof.
  intros H. simpl. rewrite bool_decide_eq_true_2; [reflexivity|].
  apply dict_get_is_Some. rewrite H. eauto.
Qed.

Lemma py_in_missing (key : string) (members : list (string * json)) :
  key ∉ dict_keys members -> py_in key (JObj members) = Ok false.
Proof. intros H. simpl. rewrite bool_decide_eq_false_2; [reflexivity|assumption]. Qed.

Lemma py_len_strings (l : list string) : py_len (JArr (map JStr l)) = Ok (length l).
Proof. simpl. rewrite length_map. reflexivity. Qed.

Section ControlFacts.
Context {V : Type} (E : Env V) (self : StepHandler).
Variables (step : Step) (scriptlet_name : string).

(** A request object with both attributes is handed to
    [_process_api_commands]. *)
Lemma handle_request (function_call : string) (cmd_name cmd_args : json)
  (st : hstate V) :
  request_of E function_call cmd_name cmd_args ->
  _handle_control_api E self step scriptlet_name function_call st
  = _process_api_commands E self cmd_name cmd_args step scriptlet_name st.
Proof.
  intros (members & Hl & Hf & Ha). unfold _handle_control_api. rewrite Hl.
  unfold check_attrs, bind, lift_result, ret.
  rewrite (py_in_member _ _ _ Hf), (py_in_member _ _ _ Ha). simpl.
  rewrite Hf, Ha. reflexivity.
Qed.

(** Text that is not JSON is a [RuntimeError]. *)
Lemma handle_invalid_json (function_call : string) (st : hstate V) :
  json_loads E function_call = None ->
  _handle_control_api E self step scriptlet_name function_call st
  = (Raise (RuntimeError (repr_str E scriptlet_name
                          +:+ " scriptlet called a function with invalid json: "
                          +:+ function_call)), st).
Proof. intros H. unfold _handle_control_api. rewrite H. reflexivity. Qed.

(** An object without [function] or without [args] is a [RuntimeError]. *)
Lemma handle_missing_attribute (function_call : string)
  (members : list (string * json)) (st : hstate V) :
  json_loads E function_call = Some (JObj members) ->
  "function" ∉ dict_keys members \/ "args" ∉ dict_keys members ->
  exists attr,
    (attr = "function" \/ attr = "args")
    /\ _handle_control_api E self step scriptlet_name function_call st
       = (Raise (RuntimeError (repr_str E scriptlet_name
                               +:+ " control call missing attribute "
                               +:+ repr_str E attr)), st).
Proof.
  intros Hl Hm. unfold _handle_control_api. rewrite Hl.
  unfold check_attrs, bind, lift_result, raise.
  destruct (decide ("function" ∈ dict_keys members)) as [Hf|Hf].
  - destruct Hm as [Hm|Hm]; [contradiction|].
    exists "args". split; [auto|].
    apply dict_get_is_Some in Hf. destruct Hf as [v Hf].
    rewrite (py_in_member _ _ _ Hf), (py_in_missing _ _ Hm). reflexivity.
  - exists "function". split; [auto|].
    rewrite (py_in_missing _ _ Hf). reflexivity.
Qed.

(** The three ways [read] ends on data that is not empty. *)
Lemma read_replies_ok (conn : nat) (data retval : string) (st st1 : hstate V) :
  PyStr.truthy data = true -> utf8_valid E data = true ->
  _handle_control_api E self step scriptlet_name data st = (Ok retval, st1) ->
  read E self step scriptlet_name conn data st
  = (Ok tt,
     set_sent (sent st1 ++ [(conn, if PyStr.truthy retval then reply_ok_value retval
                                   else reply_ok)]) st1).
Proof.
  intros Hd Hu Hh. unfold read. rewrite Hd. simpl.
  unfold try_except, bind, decode_utf8. rewrite Hu. unfold ret at 1.
  rewrite Hh. unfold send. destruct (PyStr.truthy retval); reflexivity.
Qed.

Lemma read_replies_err (conn : nat) (data : string) (e : parts_error)
  (st st1 : hstate V) :
  PyStr.truthy data = true -> utf8_valid E data = true ->
  _handle_control_api E self step scriptlet_name data st = (Raise (PartsError e), st1) ->
  is_PluginBuildError (PartsError e) = false ->
  read E self step scriptlet_name conn data st
  = (Ok tt, set_sent (sent st1 ++ [(conn, reply_err (PartsError_str E e))]) st1).
Proof.
  intros Hd Hu Hh Hb. unfold read. rewrite Hd. simpl.
  unfold try_except, bind, decode_utf8. rewrite Hu. unfold ret at 1.
  rewrite Hh. destruct e; try discriminate Hb; reflexivity.
Qed.

Lemma read_raises (conn : nat) (data : string) (e : exn) (st st1 : hstate V) :
  PyStr.truthy data = true -> utf8_valid E data = true ->
  _handle_control_api E self step scriptlet_name data st = (Raise e, st1) ->
  is_PartsError e = false \/ is_PluginBuildError e = true ->
  read E self step scriptlet_name conn data st = (Raise e, st1).
Proof.
  intros Hd Hu Hh He. unfold read. rewrite Hd. simpl.
  unfold try_except, bind, decode_utf8. rewrite Hu. unfold ret at 1.
  rewrite Hh. destruct e as [| | | | | | | | |pe]; try reflexivity.
  destruct pe; destruct He as [He|He]; try discriminate He; reflexivity.
Qed.

(** A misuse of the control API is an [InvalidControlAPICall] with its
    message, raised before anything is done. *)
Lemma process_misuse (cmd_name : string) (cmd_args : list string) (message : string)
  (st : hstate V) :
  misuse E cmd_name cmd_args = Some message ->
  _process_api_commands E self (JStr cmd_name) (JArr (map JStr cmd_args))
                        step scriptlet_name st
  = (Raise (PartsError (InvalidControlAPICall (name (_part self)) scriptlet_name
                                              message)), st).
Proof.
  unfold misuse, _process_api_commands, py_eq_str, repr_str.
  unfold bind, lift_result, raise. rewrite py_len_strings.
  destruct (String.eqb cmd_name "default").
  { destruct cmd_args as [|a l]; [discriminate|]. intros [= <-]. reflexivity. }
  destruct (String.eqb cmd_name "set").
  { destruct cmd_args as [|a [|b l]]; try (intros [= <-]; reflexivity).
    simpl. destruct (PyStr.contains "=" a); [discriminate|].
    intros [= <-]. reflexivity. }
  destruct (String.eqb cmd_name "get").
  { destruct cmd_args as [|a [|b l]]; intros [= <-]; reflexivity. }
  intros [= <-]. reflexivity.
Qed.

End ControlFacts.

(** ** Facts about the server loop and the scriptlet run *)

Section ServerFacts.
Context {V : Type} (E : Env V) (self : StepHandler).

(** Serving a child up to a point leaves the rest of the child to the
    pump. *)
Lemma pump_serves (sel : Selector) (st st' : hstate V) (c c' : child) :
  serves sel st c st' c' ->
  pump (Some sel) c st = pump (Some sel) c' st'.
Proof.
  induction 1 as [st c|st conn k st1 st' c' Ha _ IH
                 |st conn data k st1 st' c' Hr Hc _ IH
                 |st conn data k st' c' Hr _ IH].
  - reflexivity.
  - simpl. unfold bind. rewrite Ha. exact IH.
  - simpl. rewrite bool_decide_eq_true_2 by assumption. rewrite Hc. exact IH.
  - simpl. rewrite bool_decide_eq_false_2 by assumption. exact IH.
Qed.

(** An exception of [read] leaves the pump. *)
Lemma pump_request_raises (sel : Selector) (conn : nat) (data : string)
  (k : list string -> child) (e : exn) (st st1 : hstate V) :
  conn ∈ registered st ->
  read_cb sel conn data st = (Raise e, st1) ->
  pump (Some sel) (Readable conn data k) st = (Raise e, st1).
Proof.
  intros Hr Hc. simpl. rewrite bool_decide_eq_true_2 by assumption.
  rewrite Hc. reflexivity.
Qed.

(** [run_scriptlet] is the pump on the process of the scriptlet, started in
    [scriptlet_start], followed by the cleanup; only a [ProcessError] is
    turned into a [ScriptletRunError]. *)
Lemma run_scriptlet_unfold (scriptlet scriptlet_name : string) (step : Step)
  (work_dir : string) (st : hstate V) :
  run_scriptlet E self scriptlet scriptlet_name step work_dir st
  = match pump (Some (_ctl_server_selector E self step scriptlet_name))
               (scriptlet_child E self scriptlet work_dir st)
               (scriptlet_start E self scriptlet work_dir st) with
    | (Ok (returncode, stderr), st') =>
        (if (returncode =? 0)%Z then Ok tt
         else Raise (PartsError (ScriptletRunError (name (_part self)) scriptlet_name
                                                   returncode (Some stderr))),
         scriptlet_cleanup E st st')
    | (Raise (ProcessError returncode stderr), st') =>
        (Raise (PartsError (ScriptletRunError (name (_part self)) scriptlet_name
                                              returncode (Some stderr))),
         scriptlet_cleanup E st st')
    | (Raise e, st') => (Raise e, scriptlet_cleanup E st st')
    end.
Proof.
  unfold run_scriptlet.
  unfold bind at 1. unfold read_disk at 1.
  unfold try_finally at 1.
  unfold bind at 1. unfold bind_and_listen at 1.
  rewrite write_text_chmod_then.
  unfold try_finally, try_except.
  rewrite create_and_run_script_unfold.
  unfold process_run, bind, log_call, read_disk.
  fold (scriptlet_tempdir E st).
  fold (ctl_socket_path E st).
  fold (scriptlet_environment_sh E st).
  fold (scriptlet_sh E st).
  simpl disk.
  fold (scriptlet_disk E self scriptlet st).
  fold (scriptlet_child E self scriptlet work_dir st).
  change (set_calls _ _) with (scriptlet_start E self scriptlet work_dir st).
  destruct (pump _ _ _) as [[[rc err]|e] st'].
  - destruct (rc =? 0)%Z; reflexivity.
  - destruct e; reflexivity.
Qed.

(** An exception of the server loop other than a [ProcessError] ends
    [run_scriptlet] with that exception. *)
Lemma run_scriptlet_aborts (scriptlet scriptlet_name : string) (step : Step)
  (work_dir : string) (st st' st1 : hstate V) (conn : nat) (data : string)
  (k : list string -> child) (e : exn) :
  serves (_ctl_server_selector E self step scriptlet_name)
         (scriptlet_start E self scriptlet work_dir st)
         (scriptlet_child E self scriptlet work_dir st)
         st' (Readable conn data k) ->
  conn ∈ registered st' ->
  read E self step scriptlet_name conn data st' = (Raise e, st1) ->
  is_ProcessError e = false ->
  run_scriptlet E self scriptlet scriptlet_name step work_dir st
  = (Raise e, scriptlet_cleanup E st st1).
Proof.
  intros Hs Hr Hread He. rewrite run_scriptlet_unfold.
  rewrite (pump_serves _ _ _ _ _ Hs).
  rewrite (pump_request_raises (_ctl_server_selector E self step scriptlet_name)
             conn data k e st' st1 Hr Hread).
  destruct e; try reflexivity. discriminate He.
Qed.

(** A request that [read] answers is one more step of serving. *)
Lemma serves_answer (sel : Selector) (st0 st st1 : hstate V) (c0 : child)
  (conn : nat) (data : string) (k : list string -> child) :
  serves sel st0 c0 st (Readable conn data k) ->
  conn ∈ registered st ->
  read_cb sel conn data st = (Ok tt, st1) ->
  serves sel st0 c0 st1 (k (map snd (drop (length (sent st)) (sent st1)))).
Proof.
  intros Hs Hr Hc. remember (Readable conn data k) as c eqn:Heq.
  induction Hs as [st c|st2 conn2 k2 st3 st' c' Ha _ IH
                  |st2 conn2 data2 k2 st3 st' c' Hr2 Hc2 _ IH
                  |st2 conn2 data2 k2 st' c' Hr2 _ IH]; subst.
  - eapply serves_request; [eassumption|eassumption|apply serves_here].
  - eapply serves_connect; [eassumption|]. apply IH; auto.
  - eapply serves_request; [eassumption|eassumption|]. apply IH; auto.
  - eapply serves_unregistered; [eassumption|]. apply IH; auto.
Qed.

End ServerFacts.

(** ** Facts about the built-in actions *)

Section BuiltinFacts.
Context {V : Type} (E : Env V) (self : StepHandler).

Lemma same_channel_refl (st : hstate V) : same_channel st st.
Proof. repeat split. Qed.

Lemma same_channel_trans (st st1 st2 : hstate V) :
  same_channel st st1 -> same_channel st1 st2 -> same_channel st st2.
Proof.
  intros (H1 & H2 & H3 & H4 & H5) (K1 & K2 & K3 & K4 & K5).
  repeat split; congruence.
Qed.

Lemma bind_inv {A B} (m : M V A) (k : A -> M V B) (st st2 : hstate V)
  (r : result B) :
  bind m k st = (r, st2) ->
  (exists a st1, m st = (Ok a, st1) /\ k a st1 = (r, st2))
  \/ (exists e, m st = (Raise e, st2) /\ r = Raise e).
Proof.
  unfold bind. destruct (m st) as [[a|e] st1].
  - intros H. left. eauto.
  - intros [= <- <-]. right. eauto.
Qed.

Lemma frames_ret {A} (a : A) : frames (V:=V) (ret a).
Proof. intros st r st1 [= _ <-]. apply same_channel_refl. Qed.

Lemma frames_raise {A} (e : exn) : frames (V:=V) (A:=A) (raise e).
Proof. intros st r st1 [= _ <-]. apply same_channel_refl. Qed.

Lemma frames_lift_result {A} (x : result A) : frames (V:=V) (lift_result x).
Proof. intros st r st1 [= _ <-]. apply same_channel_refl. Qed.

Lemma frames_bind {A B} (m : M V A) (k : A -> M V B) :
  frames m -> (forall a, frames (k a)) -> frames (bind m k).
Proof.
  intros Hm Hk st r st2 H.
  apply bind_inv in H as [(a & st1 & H1 & H2)|(e & H1 & _)].
  - eapply same_channel_trans; [eapply Hm|eapply Hk]; eassumption.
  - eapply Hm; eassumption.
Qed.

Lemma frames_try_except {A} (m : M V A) (handler : exn -> M V A) :
  frames m -> (forall e, frames (handler e)) -> frames (try_except m handler).
Proof.
  intros Hm Hh st r st2. unfold try_except.
  destruct (m st) as [[a|e] st1] eqn:H1.
  - intros [= <- <-]. eapply Hm; eassumption.
  - intros H2. eapply same_channel_trans; [eapply Hm|eapply Hh]; eassumption.
Qed.

Lemma frames_on_disk {A} (f : fs -> result A * fs) : frames (V:=V) (on_disk f).
Proof.
  intros st r st1. unfold on_disk. destruct (f (disk st)) as [r0 d].
  intros [= _ <-]. repeat split.
Qed.

Lemma frames_read_disk {A} (f : fs -> result A) : frames (V:=V) (read_disk f).
Proof. intros st r st1 [= _ <-]. apply same_channel_refl. Qed.

Lemma frames_log_call (c : call) : frames (V:=V) (log_call c).
Proof. intros st r st1 [= _ <-]. repeat split. Qed.

Lemma frames_for_each {A S} (l : list A) (body : A -> S -> M V S) :
  (forall x s, frames (body x s)) -> forall s, frames (for_each l body s).
Proof.
  intros Hb. induction l as [|x l IH]; intros s; simpl.
  - apply frames_ret.
  - apply frames_bind; [apply Hb|intros s'; apply IH].
Qed.

Lemma frames_pump_no_selector (c : child) : frames (V:=V) (pump None c).
Proof.
  intros st r st1. rewrite pump_no_selector. intros [= _ <-]. repeat split.
Qed.

Lemma frames_create_and_run_script (commands : list string)
  (script_path cwd : string) (stdout stderr : Stream)
  (environment_script_path : option string) :
  frames (_create_and_run_script E commands script_path cwd stdout stderr
                                 environment_script_path None).
Proof.
  unfold _create_and_run_script, process_run, write_text, chmod.
  apply frames_bind; [apply frames_on_disk|intros _].
  apply frames_bind; [apply frames_on_disk|intros _].
  apply frames_bind; [apply frames_log_call|intros _].
  apply frames_bind; [apply frames_read_disk|intros c].
  apply frames_bind; [apply frames_pump_no_selector|intros [rc err]].
  destruct (rc =? 0)%Z; [apply frames_ret|apply frames_raise].
Qed.

(** What [_builtin_build] does, in one equation. *)
Lemma builtin_build_unfold (st : hstate V) :
  let part := _part self in
  let run_dir := absolute E (part_run_dir part) in
  let environment_sh := joinpath run_dir "environment.sh" in
  let build_sh := joinpath run_dir "build.sh" in
  let d :=
    <[build_sh := File (script_text (get_build_commands (_plugin self))
                                    (Some environment_sh)) 493]>
      (<[environment_sh := File (_env self) 420]> (disk st)) in
  let c := exec E build_sh (part_build_subdir part) (_stdout self) (_stderr self) d in
  _builtin_build E self st
  = (if (fst (fst (child_exit c)) =? 0)%Z then Ok (StepContents_init None false)
     else Raise (PartsError (PluginBuildError (name part) (plugin_name part)
                                              (Some (snd (fst (child_exit c)))))),
     set_disk (snd (child_exit c) d)
       (set_calls (calls st ++ [CallRun build_sh (part_build_subdir part) false]) st)).
Proof.
  intros part run_dir environment_sh build_sh d c.
  unfold _builtin_build. fold part run_dir environment_sh build_sh.
  rewrite write_text_chmod_then.
  unfold bind, try_except.
  rewrite create_and_run_script_unfold.
  rewrite process_run_no_selector. simpl disk. fold d c.
  destruct (fst (fst (child_exit c)) =? 0)%Z; reflexivity.
Qed.

(** The built-in actions of BUILD and PULL touch the filesystem and the
    record of calls only. *)
Lemma frames_builtin_build : frames (_builtin_build E self).
Proof.
  unfold _builtin_build, write_text, chmod.
  apply frames_bind; [apply frames_on_disk|intros _].
  apply frames_bind; [apply frames_on_disk|intros _].
  apply frames_bind; [|intros _; apply frames_ret].
  apply frames_try_except; [apply frames_create_and_run_script|].
  intros e. destruct e; apply frames_raise.
Qed.

Lemma frames_builtin_pull : frames (_builtin_pull E self).
Proof.
  unfold _builtin_pull.
  apply frames_bind; [|intros ?; apply frames_bind; [|intros ?; apply frames_ret]].
  - destruct (_source_handler self) as [h|]; [|apply frames_ret].
    apply frames_bind; [apply frames_log_call|intros ?; apply frames_on_disk].
  - destruct (get_pull_commands (_plugin self)); [apply frames_ret|].
    apply frames_try_except; [apply frames_create_and_run_script|].
    intros e. destruct e; apply frames_raise.
Qed.


End BuiltinFacts.

(** ** Facts about the commands of the control API *)

Lemma py_in_key_value (K value : string) :
  py_in "=" (JStr (K +:+ "=" +:+ value)) = Ok true.
Proof. unfold py_in. f_equal. apply (contains_app_sep "="%char). Qed.

Lemma py_split_key_value (K value : string) :
  PyStr.contains "=" K = false ->
  PyStr.contains "=" value = false ->
  py_split_eq (JStr (K +:+ "=" +:+ value)) = Ok [K; value].
Proof.
  intros HK HV. unfold py_split_eq. f_equal.
  change (K +:+ "=" +:+ value) with (K +:+ String "="%char value).
  rewrite (split_app "="%char K value HK), (split_absent "="%char value HV).
  reflexivity.
Qed.

Section CommandFacts.
Context {V : Type} (E : Env V) (self : StepHandler).
Variables (step : Step) (scriptlet_name : string).

(** [default] without arguments runs the built-in action and returns the
    empty string. *)
Lemma process_default (st : hstate V) :
  _process_api_commands E self (JStr "default") (JArr []) step scriptlet_name st
  = match _execute_builtin_handler E self step st with
    | (Ok _, st1) => (Ok EmptyString, st1)
    | (Raise e, st1) => (Raise e, st1)
    end.
Proof. reflexivity. Qed.

(** [get] with one argument reads the variable, raw. *)
Lemma process_get (key : json) (st : hstate V) :
  _process_api_commands E self (JStr "get") (JArr [key]) step scriptlet_name st
  = match get_project_var E key true (vars st) with
    | Ok value => (Ok value, st)
    | Raise (ValueError msg) | Raise (UnicodeDecodeError msg) =>
        (Raise (PartsError (InvalidControlAPICall (name (_part self))
                                                  scriptlet_name msg)), st)
    | Raise e => (Raise e, st)
    end.
Proof.
  unfold _process_api_commands, bind, lift_result, try_except. simpl.
  destruct (get_project_var E key true (vars st)) as [v|e]; [reflexivity|].
  destruct e; reflexivity.
Qed.

(** [set] with one argument [K=V], neither with a [=], sets [K] to [V]. *)
Lemma process_set (K value : string) (st : hstate V) :
  PyStr.contains "=" K = false ->
  PyStr.contains "=" value = false ->
  _process_api_commands E self (JStr "set") (JArr [JStr (K +:+ "=" +:+ value)])
                        step scriptlet_name st
  = match set_project_var E K value (vars st) with
    | (Ok _, v) => (Ok EmptyString, set_vars v st)
    | (Raise (ValueError msg), v) | (Raise (UnicodeDecodeError msg), v)
    | (Raise (RuntimeError msg), v) =>
        (Raise (PartsError (InvalidControlAPICall (name (_part self))
                                                  scriptlet_name msg)),
         set_vars v st)
    | (Raise e, v) => (Raise e, set_vars v st)
    end.
Proof.
  intros HK HV.
  unfold _process_api_commands, bind, lift_result, try_except, raise, ret.
  cbn -[py_in py_split_eq String.append].
  rewrite py_in_key_value. cbn -[py_in py_split_eq String.append].
  rewrite (py_split_key_value K value HK HV). cbn -[String.append].
  destruct (set_project_var E K value (vars st)) as [[[]|e] v]; [reflexivity|].
  destruct e; reflexivity.
Qed.

End CommandFacts.

(** ** How a request ends for the scriptlet run *)

Section OutcomeFacts.
Context {V : Type} (E : Env V) (self : StepHandler).
Variables (step : Step) (scriptlet_name : string).

(** An exception of [read] that is not a [ProcessError] ends the scriptlet
    run. *)
Lemma read_raise_aborts (conn : nat) (data : string) (e : exn) (st st1 : hstate V) :
  read E self step scriptlet_name conn data st = (Raise e, st1) ->
  is_ProcessError e = false ->
  aborts_scriptlet_run E self step scriptlet_name conn data st e st1.
Proof.
  intros Hread He scriptlet work_dir st0 k Hs Hr.
  eapply run_scriptlet_aborts; eassumption.
Qed.

(** A reply of [read] lets the server go on. *)
Lemma read_reply_keeps_serving (conn : nat) (data reply : string)
  (st st1 : hstate V) :
  read E self step scriptlet_name conn data st
  = (Ok tt, set_sent (sent st1 ++ [(conn, reply)]) st1) ->
  sent st1 = sent st -> registered st1 = registered st -> closed st1 = closed st ->
  keeps_serving E self step scriptlet_name conn data st reply
                (set_sent (sent st1 ++ [(conn, reply)]) st1).
Proof.
  intros Hread Hsent Hreg Hcl scriptlet work_dir st0 k Hs Hr.
  split; [|split].
  - pose proof (serves_answer _ _ _ _ _ _ _ _ Hs Hr Hread) as Hk.
    simpl in Hk. rewrite <- Hsent, drop_app_length in Hk. exact Hk.
  - simpl. rewrite Hreg. assumption.
  - simpl. rewrite Hcl. auto.
Qed.

End OutcomeFacts.

(** ** Facts about loops and recorded calls *)

Section LoopFacts.
Context {V : Type}.

Lemma bind_ok_inv {A B} (m : M V A) (k : A -> M V B) (st st2 : hstate V) (b : B) :
  bind m k st = (Ok b, st2) ->
  exists a st1, m st = (Ok a, st1) /\ k a st1 = (Ok b, st2).
Proof.
  unfold bind. destruct (m st) as [[a|e] st1]; [eauto|discriminate].
Qed.

Lemma ret_ok_inv {A} (a b : A) (st st' : hstate V) :
  ret a st = (Ok b, st') -> b = a.
Proof. intros [= <- _]. reflexivity. Qed.

(** A property of the loop variables that every round keeps holds after
    the loop. *)
Lemma for_each_preserves {A S} (I : S -> Prop) (l : list A)
  (body : A -> S -> M V S) :
  (forall x s st s' st', I s -> body x s st = (Ok s', st') -> I s') ->
  forall s st s' st', I s -> for_each l body s st = (Ok s', st') -> I s'.
Proof.
  intros Hb. induction l as [|x l IH]; intros s st s' st' Hs; simpl.
  - intros [= <- _]. assumption.
  - intros H. apply bind_ok_inv in H as (s1 & st1 & H1 & H2). eauto.
Qed.

(** A set that every round extends by its element holds all of them after
    the loop. *)
Lemma for_each_collects {A S} `{Countable K} (key : S -> gset K) (f : A -> K)
  (l : list A) (body : A -> S -> M V S) :
  (forall x s st s' st', body x s st = (Ok s', st') -> key s' = {[ f x ]} ∪ key s) ->
  forall s st s' st',
    for_each l body s st = (Ok s', st') -> key s' = list_to_set (map f l) ∪ key s.
Proof.
  intros Hb. induction l as [|x l IH]; intros s st s' st'; simpl.
  - intros [= <- _]. set_solver.
  - intros H0. apply bind_ok_inv in H0 as (s1 & st1 & H1 & H2).
    rewrite (IH _ _ _ _ H2), (Hb _ _ _ _ _ H1). set_solver.
Qed.

Lemma traces_ret {A} (a : A) : traces (V:=V) (ret a) [].
Proof.
  intros st r st1 [= <- <-]. split; [exists 0%nat|intros _ _]; simpl;
    rewrite app_nil_r; reflexivity.
Qed.

Lemma traces_raise {A} (e : exn) (t : list call) : traces (V:=V) (A:=A) (raise e) t.
Proof.
  intros st r st1 [= <- <-]. split; [exists 0%nat|discriminate].
  rewrite take_0, app_nil_r. reflexivity.
Qed.

Lemma traces_lift_result {A} (x : result A) : traces (V:=V) (lift_result x) [].
Proof.
  intros st r st1 [= <- <-]. split; [exists 0%nat|intros _ _]; simpl;
    rewrite app_nil_r; reflexivity.
Qed.

Lemma traces_read_disk {A} (f : fs -> result A) : traces (V:=V) (read_disk f) [].
Proof.
  intros st r st1 [= <- <-]. split; [exists 0%nat|intros _ _]; simpl;
    rewrite app_nil_r; reflexivity.
Qed.

Lemma traces_on_disk {A} (f : fs -> result A * fs) : traces (V:=V) (on_disk f) [].
Proof.
  intros st r st1. unfold on_disk. destruct (f (disk st)) as [r0 d].
  intros [= <- <-]. split; [exists 0%nat|intros _ _]; simpl;
    rewrite app_nil_r; reflexivity.
Qed.

Lemma traces_log_call (c : call) : traces (V:=V) (log_call c) [c].
Proof.
  intros st r st1 [= <- <-]. split; [exists 1%nat|intros _ _]; reflexivity.
Qed.

Lemma traces_bind {A B} (m : M V A) (k : A -> M V B) (t1 t2 : list call) :
  traces m t1 -> (forall a, traces (k a) t2) -> traces (bind m k) (t1 ++ t2).
Proof.
  intros Hm Hk st r st2 H.
  apply bind_inv in H as [(a & st1 & H1 & H2)|(e & H1 & ->)].
  - destruct (Hm _ _ _ H1) as [_ Hc1]. specialize (Hc1 a eq_refl).
    destruct (Hk a _ _ _ H2) as [[n Hn] Hc2]. split.
    + exists (length t1 + n)%nat. rewrite Hn, Hc1, <- app_assoc.
      rewrite take_app_add. reflexivity.
    + intros b Hb. rewrite (Hc2 b Hb), Hc1, <- app_assoc. reflexivity.
  - destruct (Hm _ _ _ H1) as [[n Hn] _]. split; [|discriminate].
    exists (n `min` length t1)%nat. rewrite Hn. f_equal.
    rewrite take_app_le by lia.
    destruct (Nat.le_gt_cases n (length t1)).
    + rewrite Nat.min_l by lia. reflexivity.
    + rewrite Nat.min_r by lia. rewrite !take_ge by lia. reflexivity.
Qed.

Lemma traces_for_each {A S} (l : list A) (body : A -> S -> M V S)
  (tr : A -> list call) :
  (forall x s, traces (body x s) (tr x)) ->
  forall s, traces (for_each l body s) (flat_map tr l).
Proof.
  intros Hb. induction l as [|x l IH]; intros s; simpl.
  - apply traces_ret.
  - apply traces_bind; [apply Hb|intros s'; apply IH].
Qed.

End LoopFacts.

(** ** Facts about the built-in actions of STAGE and PRIME *)

Section StageFacts.
Context {V : Type} (E : Env V) (self : StepHandler).

Lemma dom_StepContents_init (stage : bool) :
  dom (partitions_contents (StepContents_init None stage)) = {[ DEFAULT_PARTITION ]}.
Proof.
  destruct stage; simpl; rewrite dom_insert_L, dom_empty_L; set_solver.
Qed.

Lemma dom_set_contents (partition : string) (c : PartitionContents)
  (sc : StepContents) :
  dom (partitions_contents (set_contents partition c sc))
  = {[ partition ]} ∪ dom (partitions_contents sc).
Proof. simpl. apply dom_insert_L. Qed.

(** A round of the loop of STAGE records the contents of its partition,
    with empty backstage sets unless it is the default partition. *)
Lemma stage_partition_result (stage_fileset : Fileset) (partition : string)
  (s s' : gset string * gset string * StepContents) (st st' : hstate V) :
  stage_partition E self stage_fileset partition s st = (Ok s', st') ->
  exists c,
    snd s' = set_contents partition (StagePC c) (snd s)
    /\ (Some partition <> default_partition (_step_info self) ->
        backstage_files c = ∅ /\ backstage_dirs c = ∅).
Proof.
  destruct s as [[bf bd] sc]. unfold stage_partition.
  intros H.
  apply bind_ok_inv in H as (srcdir & st1 & _ & H).
  apply bind_ok_inv in H as ([pf pd] & st2 & _ & H).
  apply bind_ok_inv in H as (srcdir' & st3 & _ & H).
  apply bind_ok_inv in H as ([pf' pd'] & st4 & _ & H).
  destruct (py_eq_opt_spec partition (default_partition (_step_info self)))
    as [Heq|Hne].
  - apply bind_ok_inv in H as ([bf' bd'] & st5 & _ & H).
    apply ret_ok_inv in H as ->.
    eexists. split; [reflexivity|]. intros Hn. contradiction.
  - apply ret_ok_inv in H as ->.
    eexists. split; [reflexivity|]. intros _. split; reflexivity.
Qed.

Lemma prime_partition_result (prime_fileset : Fileset) (partition : string)
  (sc sc' : StepContents) (st st' : hstate V) :
  prime_partition E self prime_fileset partition sc st = (Ok sc', st') ->
  exists c, sc' = set_contents partition (StepPC c) sc.
Proof.
  unfold prime_partition. intros H.
  apply bind_ok_inv in H as (srcdir & st1 & _ & H).
  apply bind_ok_inv in H as ([pf pd] & st2 & _ & H).
  apply bind_ok_inv in H as ([pf' pd'] & st3 & _ & H).
  apply ret_ok_inv in H as ->. eexists. reflexivity.
Qed.

(** The keys of what STAGE and PRIME return. *)
Lemma builtin_stage_keys (st st1 : hstate V) (sc : StepContents) :
  _builtin_stage E self st = (Ok sc, st1) ->
  dom (partitions_contents sc)
  = {[ DEFAULT_PARTITION ]} ∪ requested_keys (_partitions self).
Proof.
  unfold _builtin_stage, requested_keys.
  destruct (_partitions self) as [[|p ps]|]; intros H.
  - apply bind_ok_inv in H as ([f d] & st2 & _ & H).
    apply bind_ok_inv in H as ([f' d'] & st3 & _ & H).
    apply bind_ok_inv in H as ([bf bd] & st4 & _ & H).
    apply bind_ok_inv in H as ([bf' bd'] & st5 & _ & H).
    apply ret_ok_inv in H as ->.
    rewrite dom_set_contents, dom_StepContents_init. reflexivity.
  - apply bind_ok_inv in H as ([bf bd] & st2 & _ & H).
    apply bind_ok_inv in H as (s & st3 & H & H').
    apply ret_ok_inv in H' as ->.
    apply (for_each_collects (fun s => dom (partitions_contents (snd s))) id) in H.
    + rewrite H. cbn [snd]. rewrite dom_StepContents_init, map_id. set_solver.
    + intros x s0 st0 s' st' Hb.
      apply stage_partition_result in Hb as (c & -> & _). apply dom_set_contents.
  - apply bind_ok_inv in H as ([f d] & st2 & _ & H).
    apply bind_ok_inv in H as ([f' d'] & st3 & _ & H).
    apply bind_ok_inv in H as ([bf bd] & st4 & _ & H).
    apply bind_ok_inv in H as ([bf' bd'] & st5 & _ & H).
    apply ret_ok_inv in H as ->.
    rewrite dom_set_contents, dom_StepContents_init. reflexivity.
Qed.

Lemma builtin_prime_keys (st st1 : hstate V) (sc : StepContents) :
  _builtin_prime E self st = (Ok sc, st1) ->
  dom (partitions_contents sc)
  = {[ DEFAULT_PARTITION ]} ∪ requested_keys (_partitions self).
Proof.
  unfold _builtin_prime, requested_keys. intros H.
  apply bind_ok_inv in H as (prime_fileset & st0 & _ & H).
  destruct (_partitions self) as [[|p ps]|].
  - apply bind_ok_inv in H as ([f d] & st2 & _ & H).
    apply bind_ok_inv in H as ([f' d'] & st3 & _ & H).
    apply ret_ok_inv in H as ->.
    rewrite dom_set_contents, dom_StepContents_init. reflexivity.
  - apply (for_each_collects (fun s => dom (partitions_contents s)) id) in H.
    + rewrite H. rewrite dom_StepContents_init, map_id. set_solver.
    + intros x s0 st0' s' st' Hb.
      apply prime_partition_result in Hb as (c & ->). apply dom_set_contents.
  - apply bind_ok_inv in H as ([f d] & st2 & _ & H).
    apply bind_ok_inv in H as ([f' d'] & st3 & _ & H).
    apply ret_ok_inv in H as ->.
    rewrite dom_set_contents, dom_StepContents_init. reflexivity.
Qed.

(** PULL, OVERLAY and BUILD return the contents that [StepContents()]
    makes. *)
Lemma builtin_pull_result (st st1 : hstate V) (sc : StepContents) :
  _builtin_pull E self st = (Ok sc, st1) -> sc = StepContents_init None false.
Proof.
  unfold _builtin_pull. intros H.
  apply bind_ok_inv in H as (? & st2 & _ & H).
  apply bind_ok_inv in H as (? & st3 & _ & H).
  apply ret_ok_inv in H as ->. reflexivity.
Qed.

Lemma builtin_build_result (st st1 : hstate V) (sc : StepContents) :
  _builtin_build E self st = (Ok sc, st1) -> sc = StepContents_init None false.
Proof.
  unfold _builtin_build. intros H.
  apply bind_ok_inv in H as (? & st2 & _ & H).
  apply bind_ok_inv in H as (? & st3 & _ & H).
  apply bind_ok_inv in H as (? & st4 & _ & H).
  apply ret_ok_inv in H as ->. reflexivity.
Qed.

End StageFacts.

(** ** The calls of STAGE in partitioned mode *)

Section StageCallFacts.
Context {V : Type} (E : Env V) (self : StepHandler).

Lemma traces_call_migratable_filesets (fileset : Fileset) (srcdir : string)
  (default_partition : option string) (partition : option string) :
  traces (call_migratable_filesets E fileset srcdir default_partition partition)
         [CallMigratable fileset srcdir default_partition partition].
Proof.
  unfold call_migratable_filesets.
  apply (traces_bind _ _ [_] []); [apply traces_log_call|intros _; apply traces_read_disk].
Qed.

Lemma traces_call_migrate_files (files dirs : gset string) (srcdir destdir : string)
  (fixup_func : option (string -> fs -> result unit * fs))
  (permissions : option (list Permissions)) :
  traces (call_migrate_files E files dirs srcdir destdir fixup_func permissions)
         [CallMigrate srcdir destdir (bool_decide (is_Some fixup_func))
                      (bool_decide (is_Some permissions))].
Proof.
  unfold call_migrate_files.
  apply (traces_bind _ _ [_] []); [apply traces_log_call|intros _; apply traces_on_disk].
Qed.

Lemma traces_install_dir_of {A} (partition : string) (k : string -> M V A)
  (t : list call) :
  (forall srcdir,
     part_install_dirs (_part self) !! partition = Some srcdir -> traces (k srcdir) t) ->
  traces (bind (install_dir_of self partition) k) t.
Proof.
  intros Hk. unfold install_dir_of.
  destruct (part_install_dirs (_part self) !! partition) as [srcdir|].
  - intros st r st1 H. apply (Hk srcdir eq_refl st r st1). exact H.
  - intros st r st1 H. apply (traces_raise (A:=A) (KeyError partition) t st r st1).
    exact H.
Qed.

(** A round of the loop makes the calls of its partition. *)
Lemma traces_stage_partition (partition : string)
  (s : gset string * gset string * StepContents) :
  traces (stage_partition E self
            {| entries := stage_files (spec (_part self));
               fileset_name := "stage";
               fileset_default_partition := default_partition (_step_info self) |}
            partition s)
         (stage_partition_calls self partition).
Proof.
  destruct s as [[bf bd] sc]. unfold stage_partition, stage_partition_calls.
  apply traces_install_dir_of. intros srcdir Hsrc. rewrite Hsrc. simpl default.
  apply (traces_bind _ _ [_] (_ :: _));
    [apply traces_call_migratable_filesets|intros [pf pd]].
  apply traces_install_dir_of. intros srcdir' Hsrc'.
  assert (srcdir' = srcdir) as -> by congruence.
  apply (traces_bind _ _ [_] _);
    [apply (traces_call_migrate_files _ _ _ _ (Some _) None)|intros [pf' pd']].
  destruct (py_eq_opt partition (default_partition (_step_info self))).
  - apply (traces_bind _ _ [_] []);
      [apply (traces_call_migrate_files _ _ _ _ None None)|intros [bf' bd']].
    apply traces_ret.
  - apply traces_ret.
Qed.

(** STAGE in partitioned mode resolves the backstage fileset and then
    makes the calls of every partition in turn. *)
Lemma traces_builtin_stage (p : string) (ps : list string) :
  _partitions self = Some (p :: ps) ->
  traces (_builtin_stage E self) (stage_calls self (p :: ps)).
Proof.
  intros Hp. unfold _builtin_stage, stage_calls. rewrite Hp.
  apply (traces_bind _ _ [_] _);
    [apply traces_call_migratable_filesets|intros [bf bd]].
  rewrite <- (app_nil_r (flat_map _ _)).
  apply traces_bind; [|intros s; apply traces_ret].
  apply traces_for_each. intros x s. apply traces_stage_partition.
Qed.

(** The contents that STAGE returns in partitioned mode have backstage
    sets in the default partition only. *)
Lemma builtin_stage_backstage (p : string) (ps : list string)
  (st st1 : hstate V) (sc : StepContents) :
  _partitions self = Some (p :: ps) ->
  _builtin_stage E self st = (Ok sc, st1) ->
  backstage_only_in_default self sc.
Proof.
  intros Hp. unfold _builtin_stage. rewrite Hp. intros H.
  apply bind_ok_inv in H as ([bf bd] & st2 & _ & H).
  apply bind_ok_inv in H as (s & st3 & H & H').
  apply ret_ok_inv in H' as ->.
  apply (for_each_preserves (fun s => backstage_only_in_default self (snd s))) in H;
    [exact H| |].
  - intros x s0 st0 s' st' Hinv Hb.
    apply stage_partition_result in Hb as (c & -> & Hc).
    intros q c0 Hq. simpl. destruct (decide (x = q)) as [->|Hne].
    + rewrite lookup_insert_eq. intros [= <-]. exists c. split; [reflexivity|auto].
    + rewrite lookup_insert_ne by assumption. apply Hinv. assumption.
  - intros q c0 Hq. simpl. destruct (decide (DEFAULT_PARTITION = q)) as [->|Hne].
    + rewrite lookup_insert_eq. intros [= <-].
      exists empty_StagePartitionContents. repeat split.
    + rewrite lookup_insert_ne by assumption. rewrite lookup_empty. discriminate.
Qed.

End StageCallFacts.

(** ** The rounds of STAGE and PRIME, spelled out *)

Lemma bool_decide_is_Some {A} (x : A) : bool_decide (is_Some (Some x)) = true.
Proof. apply bool_decide_eq_true_2. eexists. reflexivity. Qed.

Lemma bool_decide_is_Some_None {A} : bool_decide (is_Some (@None A)) = false.
Proof. apply bool_decide_eq_false_2. intros [x Hx]. discriminate Hx. Qed.

Section Rounds.
Context {V : Type} (E : Env V) (self : StepHandler).

(** The requests to the collaborators, one step of the computation
    each. *)
Lemma call_migratable_filesets_unfold {A} (fileset : Fileset) (srcdir : string)
  (default_partition partition : option string)
  (k : gset string * gset string -> M V A) (st : hstate V) :
  bind (call_migratable_filesets E fileset srcdir default_partition partition) k st
  = let st1 :=
      set_calls (calls st ++ [CallMigratable fileset srcdir default_partition partition])
                st in
    match migratable_filesets E fileset srcdir default_partition partition (disk st) with
    | Ok sets => k sets st1
    | Raise e => (Raise e, st1)
    end.
Proof.
  unfold bind, call_migratable_filesets, log_call, read_disk. cbn.
  destruct (migratable_filesets E _ _ _ _ _); reflexivity.
Qed.

Lemma call_migrate_files_unfold {A} (files dirs : gset string)
  (srcdir destdir : string) (fixup_func : option (string -> fs -> result unit * fs))
  (permissions : option (list Permissions))
  (k : gset string * gset string -> M V A) (st : hstate V) :
  bind (call_migrate_files E files dirs srcdir destdir fixup_func permissions) k st
  = let c := CallMigrate srcdir destdir (bool_decide (is_Some fixup_func))
                         (bool_decide (is_Some permissions)) in
    match migrate_files E files dirs srcdir destdir fixup_func permissions (disk st) with
    | (Ok sets, d) => k sets (set_disk d (set_calls (calls st ++ [c]) st))
    | (Raise e, d) => (Raise e, set_disk d (set_calls (calls st ++ [c]) st))
    end.
Proof.
  unfold bind, call_migrate_files, log_call, on_disk. cbn.
  destruct (migrate_files E _ _ _ _ _ _ _) as [[sets|e] d]; reflexivity.
Qed.

Lemma set_calls_twice (st : hstate V) (d : fs) (l1 l2 : list call) :
  set_calls (calls (set_disk d (set_calls (calls st ++ l1) st)) ++ l2)
            (set_disk d (set_calls (calls st ++ l1) st))
  = set_disk d (set_calls (calls st ++ l1 ++ l2) st).
Proof. destruct st. unfold set_calls, set_disk. cbn. rewrite app_assoc. reflexivity. Qed.

Lemma set_calls_again (st : hstate V) (l1 l2 : list call) :
  set_calls (calls (set_calls (calls st ++ l1) st) ++ l2)
            (set_calls (calls st ++ l1) st)
  = set_calls (calls st ++ l1 ++ l2) st.
Proof. destruct st. unfold set_calls. cbn. rewrite app_assoc. reflexivity. Qed.

Lemma set_disk_twice (st : hstate V) (d d' : fs) (l : list call) :
  set_disk d' (set_disk d (set_calls l st)) = set_disk d' (set_calls l st).
Proof. reflexivity. Qed.

(** The fixup of pkg-config files, spelled out. *)
Lemma pkgconfig_fixup_unfold :
  pkgconfig_fixup E self
  = fun file_path d =>
      if islink E file_path d then (Ok tt, d)
      else if negb (PyStr.endswith ".pc" file_path) then (Ok tt, d)
      else fix_pkg_config E (stage_dir (_part self)) file_path
                          (part_install_dir (_part self)) d.
Proof. reflexivity. Qed.

(** One round of the loop of STAGE, for a partition with an install
    directory. *)
Lemma stage_partition_unfold (stage_fileset : Fileset) (partition srcdir : string)
  (backstage_files backstage_dirs : gset string) (step_contents : StepContents)
  (st : hstate V) :
  part_install_dirs (_part self) !! partition = Some srcdir ->
  let part := _part self in
  let default := default_partition (_step_info self) in
  let resolve := CallMigratable stage_fileset srcdir default (Some partition) in
  let migrate := CallMigrate srcdir (get_stage_dir part partition) true false in
  let migrate_backstage :=
    CallMigrate (part_export_dir part) (backstage_dir part) false false in
  stage_partition E self stage_fileset partition
                  (backstage_files, backstage_dirs, step_contents) st
  = match migratable_filesets E stage_fileset srcdir default (Some partition)
                              (disk st) with
    | Raise e => (Raise e, set_calls (calls st ++ [resolve]) st)
    | Ok (files, dirs) =>
        match migrate_files E files dirs srcdir (get_stage_dir part partition)
                            (Some (pkgconfig_fixup E self)) None (disk st) with
        | (Raise e, d) =>
            (Raise e, set_disk d (set_calls (calls st ++ [resolve; migrate]) st))
        | (Ok (files, dirs), d) =>
            if bool_decide (default = Some partition) then
              match migrate_files E backstage_files backstage_dirs
                                  (part_export_dir part) (backstage_dir part)
                                  None None d with
              | (Raise e, d') =>
                  (Raise e,
                   set_disk d' (set_calls (calls st
                                           ++ [resolve; migrate; migrate_backstage]) st))
              | (Ok (backstage_files, backstage_dirs), d') =>
                  (Ok (backstage_files, backstage_dirs,
                       set_contents partition
                         (StagePC {| as_StepPartitionContents :=
                                       {| files := files; dirs := dirs |};
                                     backstage_files := backstage_files;
                                     backstage_dirs := backstage_dirs |})
                         step_contents),
                   set_disk d' (set_calls (calls st
                                           ++ [resolve; migrate; migrate_backstage]) st))
              end
            else
              (Ok (backstage_files, backstage_dirs,
                   set_contents partition
                     (StagePC {| as_StepPartitionContents :=
                                   {| files := files; dirs := dirs |};
                                 backstage_files := ∅;
                                 backstage_dirs := ∅ |})
                     step_contents),
               set_disk d (set_calls (calls st ++ [resolve; migrate]) st))
        end
    end.
Proof.
  intros Hdir part default resolve migrate migrate_backstage.
  unfold stage_partition.
  assert (Hinstall : forall A (k : string -> M V A) st0,
            bind (install_dir_of self partition) k st0 = k srcdir st0).
  { intros A k st0. unfold bind, install_dir_of. rewrite Hdir. reflexivity. }
  rewrite Hinstall, call_migratable_filesets_unfold. cbv zeta.
  fold part default resolve.
  destruct (migratable_filesets E stage_fileset srcdir default (Some partition)
                                (disk st)) as [[files dirs]|e]; [|reflexivity].
  rewrite Hinstall, call_migrate_files_unfold. cbv zeta. simpl disk.
  rewrite ?bool_decide_is_Some, ?bool_decide_is_Some_None.
  fold part.
  destruct (migrate_files E files dirs srcdir (get_stage_dir part partition)
                          (Some (pkgconfig_fixup E self)) None (disk st))
    as [[[files' dirs']|e] d].
  - rewrite set_calls_again.
    destruct (py_eq_opt_spec partition default) as [Heq|Hne].
    + rewrite bool_decide_eq_true_2 by (symmetry; exact Heq).
      rewrite call_migrate_files_unfold. cbv zeta. simpl disk.
      rewrite ?bool_decide_is_Some_None.
      rewrite set_calls_twice.
      destruct (migrate_files E backstage_files backstage_dirs (part_export_dir part)
                              (backstage_dir part) None None d)
        as [[[bf bd]|e] d']; reflexivity.
    + rewrite bool_decide_eq_false_2 by (intros Heq; apply Hne; symmetry; exact Heq).
      reflexivity.
  - rewrite set_calls_again. reflexivity.
Qed.

(** One round of the loop of PRIME, for a partition with an install
    directory. *)
Lemma prime_partition_unfold (prime_fileset : Fileset) (partition srcdir : string)
  (step_contents : StepContents) (st : hstate V) :
  part_install_dirs (_part self) !! partition = Some srcdir ->
  let part := _part self in
  let default := default_partition (_step_info self) in
  let resolve := CallMigratable prime_fileset srcdir default (Some partition) in
  let migrate :=
    CallMigrate (get_stage_dir part partition) (get_prime_dir part partition)
                false true in
  prime_partition E self prime_fileset partition step_contents st
  = match migratable_filesets E prime_fileset srcdir default (Some partition)
                              (disk st) with
    | Raise e => (Raise e, set_calls (calls st ++ [resolve]) st)
    | Ok (files, dirs) =>
        match migrate_files E files dirs (get_stage_dir part partition)
                            (get_prime_dir part partition) None
                            (Some (permissions (spec part))) (disk st) with
        | (Raise e, d) =>
            (Raise e, set_disk d (set_calls (calls st ++ [resolve; migrate]) st))
        | (Ok (files, dirs), d) =>
            (Ok (set_contents partition
                   (StepPC {| files := files; dirs := dirs |}) step_contents),
             set_disk d (set_calls (calls st ++ [resolve; migrate]) st))
        end
    end.
Proof.
  intros Hdir part default resolve migrate.
  unfold prime_partition.
  assert (Hinstall : forall A (k : string -> M V A) st0,
            bind (install_dir_of self partition) k st0 = k srcdir st0).
  { intros A k st0. unfold bind, install_dir_of. rewrite Hdir. reflexivity. }
  rewrite Hinstall, call_migratable_filesets_unfold. cbv zeta.
  fold part default resolve.
  destruct (migratable_filesets E prime_fileset srcdir default (Some partition)
                                (disk st)) as [[files dirs]|e]; [|reflexivity].
  rewrite call_migrate_files_unfold. cbv zeta. simpl disk.
  rewrite ?bool_decide_is_Some, ?bool_decide_is_Some_None.
  fold part. rewrite set_calls_again.
  destruct (migrate_files E files dirs (get_stage_dir part partition)
                          (get_prime_dir part partition) None
                          (Some (permissions (spec part))) (disk st))
    as [[[files' dirs']|e] d]; reflexivity.
Qed.

End Rounds.

(** ** Project variables through the control API *)

(** The sample project variables are a faithful store. *)
Lemma sample_store_faithful : faithful_store Sample.env.
Proof.
  intros key value vars. exists (<[key := value]> vars). split; [reflexivity|].
  simpl. unfold Sample.get_var. rewrite lookup_insert_eq. reflexivity.
Qed.

(** Over a faithful store, when neither the key nor the value holds a
    [=], [set] with [K=V] returns and [get] with [K] after it returns
    exactly [V]. *)
Theorem set_then_get_reads_back_without_eq {V} (E : Env V) (self : StepHandler)
  (step : Step) (scriptlet_name : string) (K value : string) (st : hstate V) :
  faithful_store E ->
  PyStr.contains "=" K = false ->
  PyStr.contains "=" value = false ->
  set_then_get_reads_back E self step scriptlet_name K value st.
Proof.
  intros Hstore HK HV.
  destruct (Hstore K value (vars st)) as (vars' & Hset & Hget).
  exists (set_vars vars' st). split.
  - rewrite process_set by assumption. rewrite Hset. reflexivity.
  - rewrite process_get. simpl vars. rewrite Hget. reflexivity.
Qed.

Lemma set_then_get_reads_back_witness :
  faithful_store Sample.env
  /\ PyStr.contains "=" "ver" = false
  /\ PyStr.contains "=" "1.2.3" = false
  /\ set_then_get_reads_back Sample.env (Sample.handler BUILD [] None) BUILD
       "override-build" "ver" "1.2.3" Sample.fresh.
Proof.
  split; [exact sample_store_faithful|].
  split; [reflexivity|]. split; [reflexivity|].
  apply (set_then_get_reads_back_without_eq Sample.env (Sample.handler BUILD [] None)
           BUILD "override-build" "ver" "1.2.3" Sample.fresh
           sample_store_faithful);
    reflexivity.
Defined.

(** C1, at the failing input: over the sample store, which is faithful,
    the request [set] with the argument [a=b=c], that is the key [a] and
    the value [b=c], is split at every [=] into three pieces, and unpacking
    them into name and value raises a [ValueError] before the store is
    asked.  Nothing is stored, so that [b=c] is not read back from [a] (nor
    [c] from [a=b]), and the exception is none that [read] answers: nothing
    is sent and it leaves [read].  The argument without any [=], on the
    path beside it, is refused with an invalid control API call, which the
    scriptlet is told with an [ERR] reply. *)
Theorem set_then_get_fails_on_eq :
  _process_api_commands Sample.env (Sample.handler BUILD [] None)
    (JStr "set") (JArr [JStr ("a" +:+ "=" +:+ "b=c")]) BUILD "override-build"
    Sample.fresh
  = (Raise (ValueError "too many values to unpack (expected 2)"), Sample.fresh)
  /\ ~ set_then_get_reads_back Sample.env (Sample.handler BUILD [] None) BUILD
         "override-build" "a" "b=c" Sample.fresh
  /\ ~ set_then_get_reads_back Sample.env (Sample.handler BUILD [] None) BUILD
         "override-build" "a=b" "c" Sample.fresh
  /\ read Sample.env (Sample.handler BUILD [] None) BUILD "override-build" 0
          (Sample.request_text "set" ["a=b=c"]) Sample.fresh
     = (Raise (ValueError "too many values to unpack (expected 2)"), Sample.fresh)
  /\ read Sample.env (Sample.handler BUILD [] None) BUILD "override-build" 0
          (Sample.request_text "set" ["ver"]) Sample.fresh
     = (Ok tt,
        set_sent [(0%nat,
                   Sample.misuse_reply
                     "invalid arguments to command 'set' (want key=value)")]
                 Sample.fresh).
Proof.
  assert (H : _process_api_commands Sample.env (Sample.handler BUILD [] None)
                (JStr "set") (JArr [JStr ("a" +:+ "=" +:+ "b=c")]) BUILD
                "override-build" Sample.fresh
              = (Raise (ValueError "too many values to unpack (expected 2)"),
                 Sample.fresh)) by reflexivity.
  split; [exact H|]. split; [|split; [|split; vm_compute; reflexivity]].
  - intros (st1 & Hset & _). rewrite H in Hset. discriminate.
  - intros (st1 & Hset & _).
    change ("a=b" +:+ "=" +:+ "c") with ("a" +:+ "=" +:+ "b=c") in Hset.
    rewrite H in Hset. discriminate.
Qed.

(** ** The keys of the contents of a step *)

(** C2, as the code has it: when [run_builtin] returns, the keys of the
    contents are, for STAGE and PRIME, the name [default] together with the
    partitions requested (the partitions requested, then, whenever
    [default] is one of them, and [default] alone when none is requested),
    and for PULL, OVERLAY and BUILD the name [default] alone, whatever
    partitions are requested. *)
Theorem run_builtin_keys {V} (E : Env V) (self : StepHandler) (st st1 : hstate V)
  (sc : StepContents) :
  run_builtin E self st = (Ok sc, st1) ->
  dom (partitions_contents sc)
  = match step (_step_info self) with
    | PULL | OVERLAY | BUILD => {[ DEFAULT_PARTITION ]}
    | STAGE | PRIME => {[ DEFAULT_PARTITION ]} ∪ requested_keys (_partitions self)
    end
  /\ (step (_step_info self) = STAGE \/ step (_step_info self) = PRIME ->
      DEFAULT_PARTITION ∈ requested_keys (_partitions self) ->
      dom (partitions_contents sc) = requested_keys (_partitions self)).
Proof.
  unfold run_builtin. intros H.
  assert (Hdom : dom (partitions_contents sc)
                 = match step (_step_info self) with
                   | PULL | OVERLAY | BUILD => {[ DEFAULT_PARTITION ]}
                   | STAGE | PRIME =>
                       {[ DEFAULT_PARTITION ]} ∪ requested_keys (_partitions self)
                   end).
  { destruct (step (_step_info self)).
    - apply builtin_pull_result in H as ->. apply dom_StepContents_init.
    - apply ret_ok_inv in H as ->. apply dom_StepContents_init.
    - apply builtin_build_result in H as ->. apply dom_StepContents_init.
    - eapply builtin_stage_keys; eassumption.
    - eapply builtin_prime_keys; eassumption. }
  split; [exact Hdom|].
  intros Hstep Hin. rewrite Hdom.
  destruct Hstep as [-> | ->]; set_solver.
Qed.

Lemma run_builtin_keys_witness :
  exists sc st1,
    run_builtin Sample.env (Sample.handler STAGE [] (Some ["default"; "kernel"]))
                Sample.fresh = (Ok sc, st1)
    /\ dom (partitions_contents sc) = {[ "default"; "kernel" ]}.
Proof.
  destruct (run_builtin Sample.env (Sample.handler STAGE [] (Some ["default"; "kernel"]))
                        Sample.fresh) as [r st1] eqn:Hrun.
  assert (Hok : exists sc, r = Ok sc).
  { vm_compute in Hrun. injection Hrun as <- _. eexists. reflexivity. }
  destruct Hok as [sc ->]. exists sc, st1. split; [reflexivity|].
  destruct (run_builtin_keys Sample.env _ _ _ _ Hrun) as [_ Hkeys].
  rewrite Hkeys; [| left; reflexivity | ].
  - apply set_eq. intros x. simpl. set_solver.
  - simpl. set_solver.
Defined.

(** C2, as the spec has it, fails for a step without contents: PULL with
    the partitions [default] and [kernel] returns contents with the one key
    [default]. *)
Lemma run_builtin_keys_not_requested :
  exists sc st1,
    run_builtin Sample.env (Sample.handler PULL [] (Some ["default"; "kernel"]))
                Sample.fresh = (Ok sc, st1)
    /\ dom (partitions_contents sc) = {[ "default" ]}
    /\ dom (partitions_contents sc)
       <> requested_keys (_partitions (Sample.handler PULL []
                                         (Some ["default"; "kernel"]))).
Proof.
  eexists. eexists. split; [reflexivity|].
  assert (Hd : dom (partitions_contents (StepContents_init None false))
               = ({[ "default" ]} : gset string))
    by apply (dom_StepContents_init false).
  split; [exact Hd|].
  rewrite Hd. simpl. intros Heq.
  assert (Hin : "kernel" ∈ ({[ "default" ]} : gset string))
    by (rewrite Heq; set_solver).
  apply elem_of_singleton in Hin. discriminate.
Qed.

(** ** Errors of the built-in action behind [default] *)

Section DefaultErrors.
Context {V : Type} (E : Env V) (self : StepHandler).
Variable scriptlet_name : string.

(** C3: when [default] is called during BUILD and the built-in action of
    BUILD raises a [PluginBuildError], [read] raises that error without
    sending a reply, and the error ends the scriptlet run. *)
Theorem default_build_error_propagates (conn : nat) (data : string)
  (part_name plugin_name : string) (stderr : option string) (st st1 : hstate V) :
  PyStr.truthy data = true ->
  utf8_valid E data = true ->
  request_of E data (JStr "default") (JArr []) ->
  _builtin_build E self st
  = (Raise (PartsError (PluginBuildError part_name plugin_name stderr)), st1) ->
  read E self BUILD scriptlet_name conn data st
  = (Raise (PartsError (PluginBuildError part_name plugin_name stderr)), st1)
  /\ sent st1 = sent st
  /\ aborts_scriptlet_run E self BUILD scriptlet_name conn data st
       (PartsError (PluginBuildError part_name plugin_name stderr)) st1.
Proof.
  intros Hd Hu Hreq Hb.
  assert (Hread : read E self BUILD scriptlet_name conn data st
                  = (Raise (PartsError (PluginBuildError part_name plugin_name stderr)),
                     st1)).
  { apply read_raises; auto.
    rewrite (handle_request E self BUILD scriptlet_name _ _ _ st Hreq).
    rewrite process_default. unfold _execute_builtin_handler, bind.
    rewrite Hb. reflexivity. }
  split; [exact Hread|]. split.
  - apply (frames_builtin_build E self) in Hb. apply Hb.
  - apply read_raise_aborts; [exact Hread|reflexivity].
Qed.


End DefaultErrors.

(** ** Errors of the control API *)

Section ControlErrors.
Context {V : Type} (E : Env V) (self : StepHandler).
Variables (step : Step) (scriptlet_name : string).

(** C4: on a payload that is not empty and decodes as UTF-8,
    - text that is not JSON, and a JSON object without [function] or
      without [args], make [read] raise a [RuntimeError] without a reply,
      and that ends the scriptlet run;
    - an unknown command, a wrong number of arguments for [default], [set]
      or [get], and an argument of [set] without [=] make [read] reply
      [ERR <message>] and return, the message being that of the
      [InvalidControlAPICall], and the server goes on serving. *)
Theorem control_errors_fatal_or_recoverable (conn : nat) (data : string)
  (st : hstate V) :
  PyStr.truthy data = true ->
  utf8_valid E data = true ->
  (json_loads E data = None ->
   exists msg,
     read E self step scriptlet_name conn data st = (Raise (RuntimeError msg), st)
     /\ aborts_scriptlet_run E self step scriptlet_name conn data st
                             (RuntimeError msg) st)
  /\ (forall members,
        json_loads E data = Some (JObj members) ->
        "function" ∉ dict_keys members \/ "args" ∉ dict_keys members ->
        exists msg,
          read E self step scriptlet_name conn data st = (Raise (RuntimeError msg), st)
          /\ aborts_scriptlet_run E self step scriptlet_name conn data st
                                  (RuntimeError msg) st)
  /\ (forall cmd_name cmd_args message,
        request_of E data (JStr cmd_name) (JArr (map JStr cmd_args)) ->
        misuse E cmd_name cmd_args = Some message ->
        let reply :=
          reply_err (PartsError_str E
                       (InvalidControlAPICall (name (_part self)) scriptlet_name
                                              message)) in
        let st1 := set_sent (sent st ++ [(conn, reply)]) st in
        read E self step scriptlet_name conn data st = (Ok tt, st1)
        /\ keeps_serving E self step scriptlet_name conn data st reply st1).
Proof.
  intros Hd Hu. split; [|split].
  - intros Hl. eexists.
    assert (Hread : read E self step scriptlet_name conn data st
                    = (Raise (RuntimeError
                                (repr_str E scriptlet_name
                                 +:+ " scriptlet called a function with invalid json: "
                                 +:+ data)), st)).
    { apply read_raises; auto. apply handle_invalid_json. assumption. }
    split; [exact Hread|]. apply read_raise_aborts; [exact Hread|reflexivity].
  - intros members Hl Hm.
    destruct (handle_missing_attribute E self step scriptlet_name data members st Hl Hm)
      as (attr & _ & Hh).
    eexists.
    assert (Hread : read E self step scriptlet_name conn data st
                    = (Raise (RuntimeError
                                (repr_str E scriptlet_name
                                 +:+ " control call missing attribute "
                                 +:+ repr_str E attr)), st)).
    { apply read_raises; auto. }
    split; [exact Hread|]. apply read_raise_aborts; [exact Hread|reflexivity].
  - intros cmd_name cmd_args message Hreq Hmis reply st1.
    assert (Hread : read E self step scriptlet_name conn data st = (Ok tt, st1)).
    { apply read_replies_err; auto.
      rewrite (handle_request E self step scriptlet_name _ _ _ st Hreq).
      apply process_misuse. assumption. }
    split; [exact Hread|].
    apply read_reply_keeps_serving; auto.
Qed.

End ControlErrors.

(** ** The details of an execution error *)

Lemma trace_count_cons line lines :
  trace_count (line :: lines) =
  ((if is_trace line then 1 else 0) + trace_count lines)%nat.
Proof. unfold trace_count. simpl. destruct (is_trace line); reflexivity. Qed.

Lemma trace_count_app l1 l2 :
  trace_count (l1 ++ l2) = (trace_count l1 + trace_count l2)%nat.
Proof. unfold trace_count. rewrite List.filter_app, length_app. reflexivity. Qed.

Lemma trace_count_rev l : trace_count (rev l) = trace_count l.
Proof.
  induction l as [|x l IH]; [reflexivity|].
  simpl. rewrite trace_count_app, IH, !trace_count_cons.
  unfold trace_count at 2. simpl. lia.
Qed.

Lemma trace_count_le_length l : (trace_count l <= length l)%nat.
Proof.
  induction l as [|x l IH]; [unfold trace_count; simpl; lia|].
  rewrite trace_count_cons. simpl. destruct (is_trace x); lia.
Qed.

Lemma find_anchor_cons line rest idx count :
  find_anchor (line :: rest) idx count =
  if is_trace line then
    if (3 <? count + 1)%Z then (- idx)%Z
    else find_anchor rest (idx + 1) (count + 1)
  else find_anchor rest (idx + 1) count.
Proof. reflexivity. Qed.

(** The loop stops at the fourth trace line it meets, if there is one. *)
Lemma find_anchor_spec {V} (E : Env V) (r : list string) :
  forall idx count, 0 <= count <= 3 ->
    (Z.of_nat (trace_count r) + count <= 3 /\ find_anchor r idx count = 0)
    \/ (exists a t b,
          r = (a ++ t :: b)%list /\ is_trace t = true
          /\ Z.of_nat (trace_count a) + count = 3
          /\ find_anchor r idx count = - (idx + Z.of_nat (length a))).
Proof.
  induction r as [|line rest IH]; intros idx count Hc.
  - left. split; [unfold trace_count; simpl; lia|reflexivity].
  - rewrite find_anchor_cons, trace_count_cons.
    destruct (is_trace line) eqn:Ht.
    + destruct (Z.ltb_spec 3 (count + 1)) as [Hlt|Hge].
      * right. exists [], line, rest.
        split; [reflexivity|]. split; [assumption|].
        split; [unfold trace_count; simpl; lia|simpl; lia].
      * destruct (IH (idx + 1) (count + 1)) as [[Hle Hz]|(a & t & b & -> & Htt & Hn & Hz)];
          [lia| |].
        -- left. split; [lia|assumption].
        -- right. exists (line :: a), t, b. rewrite trace_count_cons, Ht.
           split; [reflexivity|]. split; [assumption|].
           split; [lia|rewrite Hz; simpl length; lia].
    + destruct (IH (idx + 1) count) as [[Hle Hz]|(a & t & b & -> & Htt & Hn & Hz)];
        [lia| |].
      * left. split; [lia|assumption].
      * right. exists (line :: a), t, b. rewrite trace_count_cons, Ht.
        split; [reflexivity|]. split; [assumption|].
        split; [lia|rewrite Hz; simpl length; lia].
Qed.

(** What the details display: every line when there are at most three
    trace lines, and otherwise the lines after the fourth trace line from
    the end. *)
Lemma displayed_lines_spec {V} (E : Env V) (stderr : string) :
  let lines := stderr_lines E stderr in
  let shown := displayed_lines E stderr in
  ((trace_count lines <= 3)%nat /\ shown = lines)
  \/ (exists before t,
        lines = (before ++ t :: shown)%list /\ is_trace t = true
        /\ trace_count shown = 3%nat).
Proof.
  intros lines shown. subst shown. unfold displayed_lines. fold lines.
  destruct (find_anchor_spec E (rev lines) 0 0) as [[Hle Hz]|(a & t & b & Hr & Ht & Hn & Hz)];
    [lia| |].
  - left. rewrite trace_count_rev in Hle. split; [lia|].
    rewrite Hz. reflexivity.
  - right. exists (rev b), t.
    assert (Hl : lines = (rev b ++ t :: rev a)%list).
    { rewrite <- (rev_involutive lines), Hr, rev_app_distr. simpl.
      rewrite <- app_assoc. reflexivity. }
    assert (Ha : (3 <= length a)%nat) by (pose proof (trace_count_le_length a); lia).
    rewrite Hz. unfold slice_from.
    destruct (Z.ltb_spec (- (0 + Z.of_nat (length a))) 0) as [_|Hge]; [|lia].
    assert (Hd : drop (Z.to_nat (Z.max 0 (Z.of_nat (length lines)
                                            + - (0 + Z.of_nat (length a))))) lines
                 = rev a).
    { rewrite Hl, length_app. simpl length. rewrite !length_rev.
      replace (Z.to_nat (Z.max 0 (Z.of_nat (length b + S (length a))
                                      + - (0 + Z.of_nat (length a)))))
        with (length (rev b) + 1)%nat by (rewrite length_rev; lia).
      rewrite <- drop_drop, drop_app_length. reflexivity. }
    rewrite Hd.
    split; [assumption|]. split; [assumption|rewrite trace_count_rev; lia].
Qed.

(** C5, as the code has it: the details of a [PluginBuildError] or a
    [ScriptletRunError] with an error output list, each after a newline and
    [":: "], a tail of the non-empty lines of the decoded output: all of
    them when the output has at most three trace lines, and otherwise a
    tail with exactly three trace lines.  The last three trace lines are
    thus displayed together with every other line between and after
    them. *)
Theorem details_show_tail_with_last_traces {V} (E : Env V)
  (part_name plugin_name scriptlet_name : string) (exit_code : Z) (stderr : string) :
  let lines := stderr_lines E stderr in
  let shown := displayed_lines E stderr in
  details E (PluginBuildError part_name plugin_name (Some stderr))
    = Some (PyStr.join (map details_line shown))
  /\ details E (ScriptletRunError part_name scriptlet_name exit_code (Some stderr))
    = Some (PyStr.join (map details_line shown))
  /\ (exists before, lines = (before ++ shown)%list)
  /\ (((trace_count lines <= 3)%nat /\ shown = lines)
      \/ ((3 < trace_count lines)%nat /\ trace_count shown = 3%nat)).
Proof.
  intros lines shown. split; [reflexivity|]. split; [reflexivity|].
  pose proof (displayed_lines_spec E stderr) as Hspec. cbv zeta in Hspec.
  fold lines in Hspec. fold shown in Hspec.
  destruct Hspec as [[Hle Hall]|(before & t & Hl & Ht & Hc)].
  - split; [exists []; rewrite Hall; reflexivity|]. left. split; assumption.
  - split.
    + exists (before ++ [t])%list. rewrite <- app_assoc. exact Hl.
    + right. split; [|exact Hc].
      rewrite Hl, trace_count_app, trace_count_cons, Ht, Hc. lia.
Qed.

(** C5, as the spec has it, fails: an error message after the trace is
    displayed too. *)
Lemma details_not_only_traces :
  details Sample.env (PluginBuildError "foo" "make" (Some Sample.traced_stderr))
    = Some (Sample.LF +:+ ":: + make" +:+ Sample.LF +:+ ":: + make check"
            +:+ Sample.LF +:+ ":: + make install" +:+ Sample.LF
            +:+ ":: make: *** No rule to make target 'install'.  Stop.")
  /\ details_of_last_three_traces Sample.env Sample.traced_stderr
     = Some (Sample.LF +:+ ":: + make" +:+ Sample.LF +:+ ":: + make check"
             +:+ Sample.LF +:+ ":: + make install")
  /\ details Sample.env (PluginBuildError "foo" "make" (Some Sample.traced_stderr))
     <> details_of_last_three_traces Sample.env Sample.traced_stderr.
Proof.
  split; [vm_compute; reflexivity|].
  split; [vm_compute; reflexivity|vm_compute; discriminate].
Qed.

(** ** The script runner *)

Section ScriptRunner.
Context {V : Type} (E : Env V).

(** C6: [_create_and_run_script] starts the process of the script in a
    state that differs from the one it was called in by the script file
    only; the text of that file is the shebang and [set -euo pipefail],
    then [source <env>] if (and only if) an environment script is given,
    then [set -x], then the commands in order, one per line, and its mode
    is [0o755]. *)
Theorem create_and_run_script_writes_script
  (commands : list string) (script_path cwd : string) (stdout stderr : Stream)
  (environment_script_path : option string) (selector : option (Selector (V:=V)))
  (st : hstate V) :
  let LF := String "010"%char EmptyString in
  let text :=
    "#!/bin/bash" +:+ LF +:+ "set -euo pipefail" +:+ LF
    +:+ match environment_script_path with
        | Some env => "source " +:+ env +:+ LF
        | None => EmptyString
        end
    +:+ "set -x" +:+ LF
    +:+ PyStr.join (map (fun cmd => cmd +:+ LF) commands) in
  exists launch : hstate V,
    _create_and_run_script E commands script_path cwd stdout stderr
                           environment_script_path selector st
    = process_run E script_path cwd stdout stderr selector launch
    /\ disk launch !! script_path = Some (File text 493 (* 0o755 *))
    /\ (forall path, path <> script_path -> disk launch !! path = disk st !! path)
    /\ same_channel st launch
    /\ calls launch = calls st.
Proof.
  intros LF text.
  assert (Ht : script_text commands environment_script_path = text).
  { unfold script_text, text, print_line, LF.
    destruct environment_script_path as [env|]; [|reflexivity].
    reflexivity. }
  exists (set_disk (<[script_path := File text 493]> (disk st)) st).
  split; [rewrite <- Ht; apply create_and_run_script_unfold|].
  split; [apply lookup_insert_eq|].
  split; [intros path Hne; simpl; apply lookup_insert_ne; congruence|].
  split; [repeat split|reflexivity].
Qed.

End ScriptRunner.

(** ** The built-in action of BUILD *)

Section Build.
Context {V : Type} (E : Env V).

(** C7: [_builtin_build] starts the process for [<run dir>/build.sh] in the
    build subdirectory of the part, on a filesystem in which
    [<run dir>/environment.sh] holds the [env] string of the caller with
    mode [0o644] and [build.sh] holds the prologue that sources that file
    and then the build commands of the plugin; if the process exits with a
    code other than zero the result is a [PluginBuildError] with the name
    of the part, the name of the plugin and the error output of the
    process, and otherwise the empty contents. *)
Theorem builtin_build_runs_build_script (self : StepHandler) (st : hstate V) :
  let part := _part self in
  let run_dir := absolute E (part_run_dir part) in
  let environment_sh := joinpath run_dir "environment.sh" in
  let build_sh := joinpath run_dir "build.sh" in
  let LF := String "010"%char EmptyString in
  let script :=
    "#!/bin/bash" +:+ LF +:+ "set -euo pipefail" +:+ LF
    +:+ "source " +:+ environment_sh +:+ LF +:+ "set -x" +:+ LF
    +:+ PyStr.join (map (fun cmd => cmd +:+ LF) (get_build_commands (_plugin self))) in
  let d :=
    <[build_sh := File script 493 (* 0o755 *)]>
      (<[environment_sh := File (_env self) 420 (* 0o644 *)]> (disk st)) in
  let c := exec E build_sh (part_build_subdir part) (_stdout self) (_stderr self) d in
  let returncode := fst (fst (child_exit c)) in
  let stderr := snd (fst (child_exit c)) in
  let effect := snd (child_exit c) in
  d !! environment_sh = Some (File (_env self) 420)
  /\ d !! build_sh = Some (File script 493)
  /\ _builtin_build E self st
     = (if (returncode =? 0)%Z then Ok (StepContents_init None false)
        else Raise (PartsError (PluginBuildError (name part) (plugin_name part)
                                                 (Some stderr))),
        set_disk (effect d)
          (set_calls (calls st ++ [CallRun build_sh (part_build_subdir part) false])
                     st)).
Proof.
  intros part run_dir environment_sh build_sh LF script d c returncode stderr effect.
  assert (Hne : build_sh <> environment_sh).
  { intros H. apply joinpath_inj in H. discriminate. }
  assert (Hs : script_text (get_build_commands (_plugin self)) (Some environment_sh)
               = script).
  { unfold script_text, print_line, script, LF.
    rewrite !append_assoc. reflexivity. }
  split; [|split].
  - unfold d. rewrite lookup_insert_ne by assumption. apply lookup_insert_eq.
  - unfold d. apply lookup_insert_eq.
  - rewrite builtin_build_unfold. fold part run_dir environment_sh build_sh.
    rewrite Hs. reflexivity.
Qed.

End Build.

(** ** The backstage in partitioned mode *)

Lemma backstage_migration_in_calls (self : StepHandler) (partitions : list string) :
  backstage_migration self ∈ stage_calls self partitions ->
  exists partition,
    default_partition (_step_info self) = Some partition /\ partition ∈ partitions.
Proof.
  unfold stage_calls. rewrite elem_of_cons. intros [H|H]; [discriminate|].
  apply list_elem_of_In, in_flat_map in H as (x & Hx & H).
  apply list_elem_of_In in Hx, H. unfold stage_partition_calls in H.
  destruct (py_eq_opt_spec x (default_partition (_step_info self))) as [Heq|Hne].
  - exists x. split; [symmetry; exact Heq|exact Hx].
  - simpl in H. repeat (apply elem_of_cons in H as [H|H]; [discriminate|]).
    apply elem_of_nil in H. contradiction.
Qed.

Section StagePartitioned.
Context {V : Type} (E : Env V) (self : StepHandler).

(** STAGE with partitions: the backstage fileset is resolved, and then the
    rounds follow. *)
Lemma builtin_stage_partitioned_unfold (p : string) (ps : list string)
  (st : hstate V) :
  _partitions self = Some (p :: ps) ->
  let part := _part self in
  let default := default_partition (_step_info self) in
  let stage_fileset :=
    {| entries := stage_files (spec part); fileset_name := "stage";
       fileset_default_partition := default |} in
  let backstage_fileset :=
    {| entries := ["(" +:+ py_format_opt default +:+ ")/*"];
       fileset_name := "backstage"; fileset_default_partition := default |} in
  let resolve_backstage :=
    CallMigratable backstage_fileset (part_export_dir part) default default in
  _builtin_stage E self st
  = match migratable_filesets E backstage_fileset (part_export_dir part)
                              default default (disk st) with
    | Raise e => (Raise e, set_calls (calls st ++ [resolve_backstage]) st)
    | Ok (backstage_files, backstage_dirs) =>
        match for_each (p :: ps) (stage_partition E self stage_fileset)
                       (backstage_files, backstage_dirs, StepContents_init None true)
                       (set_calls (calls st ++ [resolve_backstage]) st) with
        | (Ok s, st1) => (Ok (snd s), st1)
        | (Raise e, st1) => (Raise e, st1)
        end
    end.
Proof.
  intros Hp part default stage_fileset backstage_fileset resolve_backstage.
  unfold _builtin_stage. rewrite Hp. cbv zeta.
  rewrite call_migratable_filesets_unfold. cbv zeta.
  fold part default backstage_fileset resolve_backstage stage_fileset.
  destruct (migratable_filesets E backstage_fileset (part_export_dir part)
                                default default (disk st)) as [[bf bd]|e];
    [|reflexivity].
  unfold bind.
  destruct (for_each (p :: ps) _ _ _) as [[s|e] st1]; reflexivity.
Qed.

End StagePartitioned.

(** C8, as the code has it.  STAGE with partitions resolves the backstage
    fileset from the export directory first, on the filesystem as it is
    found and whatever the partitions are, and then makes one round for
    each partition in turn.  A round resolves the stage fileset from the
    install directory of its partition and migrates what was found to the
    stage directory of the partition.  The round of a partition that is the
    default one, and no other round, then migrates the backstage sets from
    the export directory to the backstage directory and records what was
    migrated as the backstage sets of the partition; the round of any other
    partition migrates nothing to the backstage and records empty backstage
    sets.  A failure of a collaborator ends the step where it occurs. *)
Theorem stage_backstage_migrated_only_for_default {V} (E : Env V)
  (self : StepHandler) (p : string) (ps : list string) :
  _partitions self = Some (p :: ps) ->
  let part := _part self in
  let default := default_partition (_step_info self) in
  let stage_fileset :=
    {| entries := stage_files (spec part); fileset_name := "stage";
       fileset_default_partition := default |} in
  let backstage_fileset :=
    {| entries := ["(" +:+ py_format_opt default +:+ ")/*"];
       fileset_name := "backstage"; fileset_default_partition := default |} in
  let resolve_backstage :=
    CallMigratable backstage_fileset (part_export_dir part) default default in
  let migrate_backstage :=
    CallMigrate (part_export_dir part) (backstage_dir part) false false in
  (forall st : hstate V,
     _builtin_stage E self st
     = match migratable_filesets E backstage_fileset (part_export_dir part)
                                 default default (disk st) with
       | Raise e => (Raise e, set_calls (calls st ++ [resolve_backstage]) st)
       | Ok (backstage_files, backstage_dirs) =>
           match for_each (p :: ps) (stage_partition E self stage_fileset)
                          (backstage_files, backstage_dirs, StepContents_init None true)
                          (set_calls (calls st ++ [resolve_backstage]) st) with
           | (Ok s, st1) => (Ok (snd s), st1)
           | (Raise e, st1) => (Raise e, st1)
           end
       end)
  /\ (forall (partition srcdir : string) (backstage_files backstage_dirs : gset string)
             (step_contents : StepContents) (st : hstate V),
        part_install_dirs part !! partition = Some srcdir ->
        let resolve := CallMigratable stage_fileset srcdir default (Some partition) in
        let migrate := CallMigrate srcdir (get_stage_dir part partition) true false in
        stage_partition E self stage_fileset partition
                        (backstage_files, backstage_dirs, step_contents) st
        = match migratable_filesets E stage_fileset srcdir default (Some partition)
                                    (disk st) with
          | Raise e => (Raise e, set_calls (calls st ++ [resolve]) st)
          | Ok (files, dirs) =>
              match migrate_files E files dirs srcdir (get_stage_dir part partition)
                                  (Some (pkgconfig_fixup E self)) None (disk st) with
              | (Raise e, d) =>
                  (Raise e, set_disk d (set_calls (calls st ++ [resolve; migrate]) st))
              | (Ok (files, dirs), d) =>
                  if bool_decide (default = Some partition) then
                    match migrate_files E backstage_files backstage_dirs
                                        (part_export_dir part) (backstage_dir part)
                                        None None d with
                    | (Raise e, d') =>
                        (Raise e,
                         set_disk d'
                           (set_calls (calls st ++ [resolve; migrate; migrate_backstage])
                                      st))
                    | (Ok (backstage_files, backstage_dirs), d') =>
                        (Ok (backstage_files, backstage_dirs,
                             set_contents partition
                               (StagePC {| as_StepPartitionContents :=
                                             {| files := files; dirs := dirs |};
                                           backstage_files := backstage_files;
                                           backstage_dirs := backstage_dirs |})
                               step_contents),
                         set_disk d'
                           (set_calls (calls st ++ [resolve; migrate; migrate_backstage])
                                      st))
                    end
                  else
                    (Ok (backstage_files, backstage_dirs,
                         set_contents partition
                           (StagePC {| as_StepPartitionContents :=
                                         {| files := files; dirs := dirs |};
                                       backstage_files := ∅;
                                       backstage_dirs := ∅ |})
                           step_contents),
                     set_disk d (set_calls (calls st ++ [resolve; migrate]) st))
              end
          end)
  /\ (forall (st st1 : hstate V) (r : result StepContents),
        _builtin_stage E self st = (r, st1) ->
        (exists n,
           calls st1 = (calls st ++ take n (stage_calls self (p :: ps)))%list)
        /\ (migrate_backstage ∈ drop (length (calls st)) (calls st1) ->
            exists partition, default = Some partition /\ partition ∈ p :: ps)
        /\ (forall sc,
              r = Ok sc ->
              calls st1 = (calls st ++ stage_calls self (p :: ps))%list
              /\ backstage_only_in_default self sc)).
Proof.
  intros Hp part default stage_fileset backstage_fileset resolve_backstage
         migrate_backstage.
  split; [|split].
  - intros st. apply builtin_stage_partitioned_unfold. exact Hp.
  - intros partition srcdir backstage_files backstage_dirs step_contents st Hdir.
    apply stage_partition_unfold. exact Hdir.
  - intros st st1 r Hrun.
    destruct (traces_builtin_stage E self p ps Hp st r st1 Hrun) as [[n Hn] Hall].
    split; [exists n; exact Hn|]. split.
    + rewrite Hn, drop_app_length. intros Hin.
      apply (backstage_migration_in_calls self (p :: ps)).
      apply elem_of_take in Hin as (i & Hi & _).
      eapply list_elem_of_lookup_2. eassumption.
    + intros sc ->. split; [eapply Hall; reflexivity|].
      eapply builtin_stage_backstage; eassumption.
Qed.

Lemma stage_backstage_migrated_only_for_default_witness :
  _partitions (Sample.handler STAGE [] (Some ["default"; "kernel"]))
  = Some ["default"; "kernel"]
  /\ exists sc st1,
       _builtin_stage Sample.env (Sample.handler STAGE [] (Some ["default"; "kernel"]))
                      Sample.fresh = (Ok sc, st1)
       /\ calls st1
          = stage_calls (Sample.handler STAGE [] (Some ["default"; "kernel"]))
                        ["default"; "kernel"]
       /\ backstage_only_in_default
            (Sample.handler STAGE [] (Some ["default"; "kernel"])) sc.
Proof.
  split; [reflexivity|].
  destruct (_builtin_stage Sample.env
              (Sample.handler STAGE [] (Some ["default"; "kernel"])) Sample.fresh)
    as [r st1] eqn:Hrun.
  assert (Hok : exists sc, r = Ok sc).
  { vm_compute in Hrun. injection Hrun as <- _. eexists. reflexivity. }
  destruct Hok as [sc ->]. exists sc, st1. split; [reflexivity|].
  destruct (stage_backstage_migrated_only_for_default Sample.env
              (Sample.handler STAGE [] (Some ["default"; "kernel"]))
              "default" ["kernel"] eq_refl) as (_ & _ & H).
  destruct (H _ _ _ Hrun) as (_ & _ & H').
  exact (H' sc eq_refl).
Defined.

(** C8, as the spec has it, fails: the backstage fileset is resolved also
    when the default partition is not among the partitions, so that its
    round never comes; and when the default partition is the first of the
    partitions, the backstage fileset is resolved before the round of the
    default partition resolves the stage fileset, not after it has migrated
    to the stage directory. *)
Lemma backstage_resolved_without_default_round :
  default_partition (_step_info (Sample.handler STAGE [] (Some ["kernel"])))
  = Some "default"
  /\ ("default" ∉ ["kernel"])
  /\ (exists sc,
        fst (_builtin_stage Sample.env (Sample.handler STAGE [] (Some ["kernel"]))
                            Sample.fresh) = Ok sc)
  /\ calls (snd (_builtin_stage Sample.env (Sample.handler STAGE [] (Some ["kernel"]))
                                Sample.fresh))
     = [ CallMigratable
           {| entries := ["(default)/*"]; fileset_name := "backstage";
              fileset_default_partition := Some "default" |}
           "/parts/foo/export" (Some "default") (Some "default");
         CallMigratable
           {| entries := ["usr/bin/*"]; fileset_name := "stage";
              fileset_default_partition := Some "default" |}
           "/partitions/kernel/parts/foo/install" (Some "default") (Some "kernel");
         CallMigrate "/partitions/kernel/parts/foo/install" "/partitions/kernel/stage"
                     true false ]
  /\ take 2 (calls (snd (_builtin_stage Sample.env
                           (Sample.handler STAGE [] (Some ["default"; "kernel"]))
                           Sample.fresh)))
     = [ CallMigratable
           {| entries := ["(default)/*"]; fileset_name := "backstage";
              fileset_default_partition := Some "default" |}
           "/parts/foo/export" (Some "default") (Some "default");
         CallMigratable
           {| entries := ["usr/bin/*"]; fileset_name := "stage";
              fileset_default_partition := Some "default" |}
           "/parts/foo/install" (Some "default") (Some "default") ].
Proof.
  split; [reflexivity|]. split.
  - intros Hin. apply elem_of_cons in Hin as [[=]|Hin]. inversion Hin.
  - split; [eexists; vm_compute; reflexivity|].
    split; vm_compute; reflexivity.
Qed.

(** ** The reply to [get] for an empty value *)

(** C10: when [get] succeeds and the value of the variable is the empty
    string, the reply is [OK] and a newline, the very bytes that answer a
    command without a return value (here [default] during OVERLAY). *)
Theorem get_empty_value_replies_bare_ok {V} (E : Env V) (self : StepHandler)
  (step : Step) (scriptlet_name : string) (conn : nat) (data : string)
  (key : json) (st : hstate V) :
  PyStr.truthy data = true ->
  utf8_valid E data = true ->
  request_of E data (JStr "get") (JArr [key]) ->
  get_project_var E key true (vars st) = Ok EmptyString ->
  read E self step scriptlet_name conn data st
  = (Ok tt, set_sent (sent st ++ [(conn, "OK" +:+ String "010"%char EmptyString)]) st)
  /\ (forall data',
        PyStr.truthy data' = true ->
        utf8_valid E data' = true ->
        request_of E data' (JStr "default") (JArr []) ->
        read E self OVERLAY scriptlet_name conn data' st
        = (Ok tt,
           set_sent (sent st ++ [(conn, "OK" +:+ String "010"%char EmptyString)]) st)).
Proof.
  intros Hd Hu Hreq Hget. split.
  - apply (read_replies_ok E self step scriptlet_name conn data EmptyString st st);
      auto.
    rewrite (handle_request E self step scriptlet_name _ _ _ st Hreq).
    rewrite process_get, Hget. reflexivity.
  - intros data' Hd' Hu' Hreq'.
    apply (read_replies_ok E self OVERLAY scriptlet_name conn data' EmptyString st st);
      auto.
    rewrite (handle_request E self OVERLAY scriptlet_name _ _ _ st Hreq').
    reflexivity.
Qed.

(** ** The control channel on the sample environment *)

Lemma sample_request (function : string) (args : list string) :
  In (function, args) Sample.known_requests ->
  request_of Sample.env (Sample.request_text function args)
             (JStr function) (JArr (map JStr args)).
Proof.
  intros Hin. simpl in Hin.
  exists [("function", JStr function); ("args", JArr (map JStr args))].
  split; [|split; reflexivity].
  repeat (destruct Hin as [[= <- <-]|Hin]; [vm_compute; reflexivity|]).
  destruct Hin.
Qed.

Lemma default_build_error_propagates_witness :
  PyStr.truthy (Sample.request_text "default" []) = true
  /\ utf8_valid Sample.env (Sample.request_text "default" []) = true
  /\ request_of Sample.env (Sample.request_text "default" []) (JStr "default") (JArr [])
  /\ _builtin_build Sample.env (Sample.handler BUILD ["make"] None) Sample.fresh
     = (Raise (PartsError (PluginBuildError "foo" "make" (Some Sample.build_stderr))),
        snd (_builtin_build Sample.env (Sample.handler BUILD ["make"] None)
                            Sample.fresh))
  /\ read Sample.env (Sample.handler BUILD ["make"] None) BUILD "override-build" 0
          (Sample.request_text "default" []) Sample.fresh
     = (Raise (PartsError (PluginBuildError "foo" "make" (Some Sample.build_stderr))),
        snd (_builtin_build Sample.env (Sample.handler BUILD ["make"] None)
                            Sample.fresh))
  /\ sent (snd (_builtin_build Sample.env (Sample.handler BUILD ["make"] None)
                               Sample.fresh))
     = sent Sample.fresh.
Proof.
  set (self := Sample.handler BUILD ["make"] None).
  set (st := Sample.fresh).
  set (data := Sample.request_text "default" []).
  set (stderr := Sample.build_stderr).
  set (st1 := snd (_builtin_build Sample.env self st)).
  assert (Hreq : request_of Sample.env data (JStr "default") (JArr []))
    by (apply (sample_request "default" []); simpl; auto 12).
  assert (Hb : _builtin_build Sample.env self st
               = (Raise (PartsError (PluginBuildError "foo" "make" (Some stderr))), st1))
    by (rewrite builtin_build_unfold; reflexivity).
  split; [reflexivity|]. split; [reflexivity|]. split; [exact Hreq|].
  split; [exact Hb|].
  destruct (default_build_error_propagates Sample.env self "override-build" 0 data
              "foo" "make" (Some stderr) st st1 eq_refl eq_refl Hreq Hb)
    as (Hread & Hsent & _).
  split; assumption.
Defined.


Lemma control_errors_witness :
  (exists msg,
     read Sample.env (Sample.handler BUILD [] None) BUILD "override-build" 0 "{function" Sample.fresh
     = (Raise (RuntimeError msg), Sample.fresh))
  /\ (exists msg,
        read Sample.env (Sample.handler BUILD [] None) BUILD "override-build" 0
             (Sample.request_without_args "get") Sample.fresh
        = (Raise (RuntimeError msg), Sample.fresh))
  /\ read Sample.env (Sample.handler BUILD [] None) BUILD "override-build" 0
          (Sample.request_text "frobnicate" []) Sample.fresh
     = (Ok tt, set_sent [(0%nat, Sample.misuse_reply "invalid command 'frobnicate'")] Sample.fresh)
  /\ read Sample.env (Sample.handler BUILD [] None) BUILD "override-build" 0
          (Sample.request_text "default" ["x"]) Sample.fresh
     = (Ok tt, set_sent [(0%nat, Sample.misuse_reply "invalid arguments to command 'default'")] Sample.fresh)
  /\ read Sample.env (Sample.handler BUILD [] None) BUILD "override-build" 0
          (Sample.request_text "get" []) Sample.fresh
     = (Ok tt,
        set_sent [(0%nat, Sample.misuse_reply "invalid number of arguments to command 'get'")] Sample.fresh)
  /\ read Sample.env (Sample.handler BUILD [] None) BUILD "override-build" 0
          (Sample.request_text "set" ["ver"]) Sample.fresh
     = (Ok tt,
        set_sent [(0%nat, Sample.misuse_reply "invalid arguments to command 'set' (want key=value)")]
                 Sample.fresh).
Proof.
  set (self := Sample.handler BUILD [] None).
  set (st := Sample.fresh).
  pose proof (fun data Hd =>
                control_errors_fatal_or_recoverable Sample.env self BUILD
                  "override-build" 0 data st Hd eq_refl) as T.
  split; [|split; [|split; [|split; [|split]]]].
  - destruct (T "{function" eq_refl) as (H & _ & _).
    destruct (H eq_refl) as (msg & Hread & _). exists msg. exact Hread.
  - destruct (T (Sample.request_without_args "get") eq_refl) as (_ & H & _).
    destruct (H [("function", JStr "get")] eq_refl) as (msg & Hread & _).
    + right. vm_compute. intros Hin. inversion Hin; subst.
      match goal with H : _ ∈ [] |- _ => inversion H end.
    + exists msg. exact Hread.
  - destruct (T (Sample.request_text "frobnicate" []) eq_refl) as (_ & _ & H).
    destruct (H "frobnicate" [] _ (sample_request "frobnicate" [] ltac:(simpl; auto 12))
                eq_refl) as (Hread & _).
    exact Hread.
  - destruct (T (Sample.request_text "default" ["x"]) eq_refl) as (_ & _ & H).
    destruct (H "default" ["x"] _ (sample_request "default" ["x"] ltac:(simpl; auto 12))
                eq_refl) as (Hread & _).
    exact Hread.
  - destruct (T (Sample.request_text "get" []) eq_refl) as (_ & _ & H).
    destruct (H "get" [] _ (sample_request "get" [] ltac:(simpl; auto 12))
                eq_refl) as (Hread & _).
    exact Hread.
  - destruct (T (Sample.request_text "set" ["ver"]) eq_refl) as (_ & _ & H).
    destruct (H "set" ["ver"] _ (sample_request "set" ["ver"] ltac:(simpl; auto 12))
                eq_refl) as (Hread & _).
    exact Hread.
Defined.

Lemma get_empty_value_replies_bare_ok_witness :
  PyStr.truthy (Sample.request_text "get" ["empty"]) = true
  /\ utf8_valid Sample.env (Sample.request_text "get" ["empty"]) = true
  /\ request_of Sample.env (Sample.request_text "get" ["empty"])
                (JStr "get") (JArr [JStr "empty"])
  /\ get_project_var Sample.env (JStr "empty") true
                     (vars (Sample.state {[ "empty" := EmptyString ]} ∅))
     = Ok EmptyString
  /\ read Sample.env (Sample.handler BUILD [] None) BUILD "override-build" 0
          (Sample.request_text "get" ["empty"])
          (Sample.state {[ "empty" := EmptyString ]} ∅)
     = (Ok tt,
        set_sent [(0%nat, "OK" +:+ Sample.LF)]
                 (Sample.state {[ "empty" := EmptyString ]} ∅)).
Proof.
  set (self := Sample.handler BUILD [] None).
  set (st := Sample.state {[ "empty" := EmptyString ]} ∅).
  set (data := Sample.request_text "get" ["empty"]).
  assert (Hreq : request_of Sample.env data (JStr "get") (JArr [JStr "empty"]))
    by (apply (sample_request "get" ["empty"]); simpl; auto 12).
  split; [reflexivity|]. split; [reflexivity|]. split; [exact Hreq|].
  split; [reflexivity|].
  destruct (get_empty_value_replies_bare_ok Sample.env self BUILD "override-build" 0
              data (JStr "empty") st eq_refl eq_refl Hreq eq_refl)
    as (Hread & _).
  exact Hread.
Defined.

(** ** Scriptlet runs on the sample environment *)

(** A scriptlet sets a project variable and reads it back. *)
Example scriptlet_sets_and_gets_version :
  read Sample.env (Sample.handler BUILD [] None) BUILD "override-build" 0
       (Sample.request_text "set" ["ver=1.2.3"]) Sample.fresh
  = (Ok tt, set_sent [(0%nat, "OK" +:+ Sample.LF)]
                     (Sample.state {[ "ver" := "1.2.3" ]} ∅))
  /\ read Sample.env (Sample.handler BUILD [] None) BUILD "override-build" 0
          (Sample.request_text "get" ["ver"]) (Sample.state {[ "ver" := "1.2.3" ]} ∅)
     = (Ok tt, set_sent [(0%nat, "OK 1.2.3" +:+ Sample.LF)]
                        (Sample.state {[ "ver" := "1.2.3" ]} ∅)).
Proof. split; reflexivity. Qed.

(** The text of a request is JSON with double quotes. *)
Example request_text_default :
  Sample.request_text "default" []
  = "{" +:+ Sample.quoted "function" +:+ ": " +:+ Sample.quoted "default" +:+ ", "
    +:+ Sample.quoted "args" +:+ ": []}".
Proof. reflexivity. Qed.

(** A scriptlet of BUILD that calls [default] while the build fails ends
    with the [PluginBuildError], and nothing is sent to it. *)
Example scriptlet_default_build_fails :
  let request := {[ "/request" := File (Sample.request_text "default" []) 420 ]} in
  let run :=
    run_scriptlet Sample.env (Sample.handler BUILD ["make"] None)
                  "craftctl default" "override-build" BUILD "/parts/foo/build"
                  (Sample.state ∅ request) in
  fst run = Raise (PartsError (PluginBuildError "foo" "make" (Some Sample.build_stderr)))
  /\ sent (snd run) = []
  /\ listening (snd run) = ∅.
Proof. vm_compute. repeat split. Qed.

(** A scriptlet of PULL that calls [default] while the pull fails is told
    so and ends well. *)
Example scriptlet_default_pull_fails :
  let request := {[ "/request" := File (Sample.request_text "default" []) 420 ]} in
  let run :=
    run_scriptlet Sample.env (Sample.handler PULL ["git pull"] None)
                  "craftctl default" "override-pull" PULL "/parts/foo/src"
                  (Sample.state ∅ request) in
  fst run = Ok tt
  /\ sent (snd run)
     = [(0%nat, "ERR Failed to run the pull script for part 'foo'." +:+ Sample.LF)].
Proof. vm_compute. repeat split. Qed.

(** A scriptlet that sends text that is not JSON ends with a
    [RuntimeError]. *)
Example scriptlet_sends_garbage :
  let request := {[ "/request" := File "{function" 420 ]} in
  fst (run_scriptlet Sample.env (Sample.handler BUILD [] None)
                     "craftctl" "override-build" BUILD "/parts/foo/build"
                     (Sample.state ∅ request))
  = Raise (RuntimeError
             "'override-build' scriptlet called a function with invalid json: {function").
Proof. vm_compute. reflexivity. Qed.

(** The temporary directory is gone after the run, and with it the
    script and its environment. *)
Example scriptlet_cleans_up :
  disk (snd (run_scriptlet Sample.env (Sample.handler OVERLAY [] None)
                           "true" "override-overlay" OVERLAY "/parts/foo"
                           Sample.fresh))
  = ∅.
Proof. vm_compute. reflexivity. Qed.

(** The build of the part [foo] with the command [echo hi] and the
    environment [export A=1]. *)
Example build_happy_path :
  let run := _builtin_build Sample.env (Sample.handler BUILD ["echo hi"] None)
                            Sample.fresh in
  fst run = Ok (StepContents_init None false)
  /\ disk (snd run) !! "/parts/foo/run/environment.sh"
     = Some (File ("export A=1" +:+ Sample.LF) 420)
  /\ disk (snd run) !! "/parts/foo/run/build.sh"
     = Some (File ("#!/bin/bash" +:+ Sample.LF +:+ "set -euo pipefail" +:+ Sample.LF
                   +:+ "source /parts/foo/run/environment.sh" +:+ Sample.LF
                   +:+ "set -x" +:+ Sample.LF +:+ "echo hi" +:+ Sample.LF) 493)
  /\ calls (snd run) = [CallRun "/parts/foo/run/build.sh" "/parts/foo/build" false]
  /\ partitions_contents (StepContents_init None false) !! "default"
     = Some (StepPC empty_StepPartitionContents).
Proof. vm_compute. repeat split. Qed.

(** STAGE with the partitions [default] and [kernel]. *)
Example stage_two_partitions :
  let self := Sample.handler STAGE [] (Some ["default"; "kernel"]) in
  calls (snd (_builtin_stage Sample.env self Sample.fresh))
  = [ backstage_resolution self;
      CallMigratable
        {| entries := ["usr/bin/*"]; fileset_name := "stage";
           fileset_default_partition := Some "default" |}
        "/parts/foo/install" (Some "default") (Some "default");
      CallMigrate "/parts/foo/install" "/stage" true false;
      backstage_migration self;
      CallMigratable
        {| entries := ["usr/bin/*"]; fileset_name := "stage";
           fileset_default_partition := Some "default" |}
        "/partitions/kernel/parts/foo/install" (Some "default") (Some "kernel");
      CallMigrate "/partitions/kernel/parts/foo/install" "/partitions/kernel/stage"
                  true false ].
Proof. vm_compute. reflexivity. Qed.

(** ** The built-in actions and the control channel *)

Section MoreFrames.
Context {V : Type} (E : Env V) (self : StepHandler).

Lemma frames_call_migratable_filesets (fileset : Fileset) (srcdir : string)
  (default_partition : option string) (partition : option string) :
  frames (call_migratable_filesets E fileset srcdir default_partition partition).
Proof.
  unfold call_migratable_filesets.
  apply frames_bind; [apply frames_log_call|intros _; apply frames_read_disk].
Qed.

Lemma frames_call_migrate_files (files dirs : gset string) (srcdir destdir : string)
  (fixup_func : option (string -> fs -> result unit * fs))
  (permissions : option (list Permissions)) :
  frames (call_migrate_files E files dirs srcdir destdir fixup_func permissions).
Proof.
  unfold call_migrate_files.
  apply frames_bind; [apply frames_log_call|intros _; apply frames_on_disk].
Qed.

Lemma frames_install_dir_of (partition : string) :
  frames (V:=V) (install_dir_of self partition).
Proof.
  unfold install_dir_of.
  destruct (part_install_dirs (_part self) !! partition);
    [apply frames_ret|apply frames_raise].
Qed.

Lemma frames_stage_partition (stage_fileset : Fileset) (partition : string)
  (s : gset string * gset string * StepContents) :
  frames (stage_partition E self stage_fileset partition s).
Proof.
  destruct s as [[bf bd] sc]. unfold stage_partition.
  apply frames_bind; [apply frames_install_dir_of|intros srcdir].
  apply frames_bind; [apply frames_call_migratable_filesets|intros [pf pd]].
  apply frames_bind; [apply frames_install_dir_of|intros srcdir'].
  apply frames_bind; [apply frames_call_migrate_files|intros [pf' pd']].
  destruct (py_eq_opt partition (default_partition (_step_info self))).
  - apply frames_bind; [apply frames_call_migrate_files|intros [bf' bd']].
    apply frames_ret.
  - apply frames_ret.
Qed.

Lemma frames_builtin_stage : frames (_builtin_stage E self).
Proof.
  unfold _builtin_stage. destruct (_partitions self) as [[|p ps]|].
  - apply frames_bind; [apply frames_call_migratable_filesets|intros [f d]].
    apply frames_bind; [apply frames_call_migrate_files|intros [f' d']].
    apply frames_bind; [apply frames_call_migratable_filesets|intros [bf bd]].
    apply frames_bind; [apply frames_call_migrate_files|intros [bf' bd']].
    apply frames_ret.
  - apply frames_bind; [apply frames_call_migratable_filesets|intros [bf bd]].
    apply frames_bind; [|intros s; apply frames_ret].
    apply frames_for_each. intros x s. apply frames_stage_partition.
  - apply frames_bind; [apply frames_call_migratable_filesets|intros [f d]].
    apply frames_bind; [apply frames_call_migrate_files|intros [f' d']].
    apply frames_bind; [apply frames_call_migratable_filesets|intros [bf bd]].
    apply frames_bind; [apply frames_call_migrate_files|intros [bf' bd']].
    apply frames_ret.
Qed.

Lemma frames_prime_partition (prime_fileset : Fileset) (partition : string)
  (sc : StepContents) :
  frames (prime_partition E self prime_fileset partition sc).
Proof.
  unfold prime_partition.
  apply frames_bind; [apply frames_install_dir_of|intros srcdir].
  apply frames_bind; [apply frames_call_migratable_filesets|intros [pf pd]].
  apply frames_bind; [apply frames_call_migrate_files|intros [pf' pd']].
  apply frames_ret.
Qed.

Lemma frames_builtin_prime : frames (_builtin_prime E self).
Proof.
  unfold _builtin_prime.
  apply frames_bind.
  - destruct (_ || _); [apply frames_lift_result|apply frames_ret].
  - intros prime_fileset. destruct (_partitions self) as [[|p ps]|].
    + apply frames_bind; [apply frames_call_migratable_filesets|intros [f d]].
      apply frames_bind; [apply frames_call_migrate_files|intros [f' d']].
      apply frames_ret.
    + apply frames_for_each. intros x s. apply frames_prime_partition.
    + apply frames_bind; [apply frames_call_migratable_filesets|intros [f d]].
      apply frames_bind; [apply frames_call_migrate_files|intros [f' d']].
      apply frames_ret.
Qed.

(** The built-in action of every step changes the filesystem and the
    record of calls only. *)
Lemma frames_execute_builtin_handler (step : Step) :
  frames (_execute_builtin_handler E self step).
Proof.
  destruct step; unfold _execute_builtin_handler;
    (apply frames_bind; [|intros _; apply frames_ret]).
  - apply frames_builtin_pull.
  - apply frames_ret.
  - apply frames_builtin_build.
  - apply frames_builtin_stage.
  - apply frames_builtin_prime.
Qed.

Lemma same_connections_refl (st : hstate V) : same_connections st st.
Proof. repeat split. Qed.

Lemma same_connections_trans (st st1 st2 : hstate V) :
  same_connections st st1 -> same_connections st1 st2 -> same_connections st st2.
Proof.
  intros (A1 & A2 & A3 & A4) (B1 & B2 & B3 & B4). repeat split; congruence.
Qed.

Lemma same_build_refl (st : hstate V) : same_build st st.
Proof. repeat split. Qed.

Lemma same_build_trans (st st1 st2 : hstate V) :
  same_build st st1 -> same_build st1 st2 -> same_build st st2.
Proof. intros (A1 & A2) (B1 & B2). split; congruence. Qed.

Lemma frames_keeps_connections {A} (m : M V A) :
  frames m -> keeps same_connections m.
Proof.
  intros Hm st r st1 H. destruct (Hm st r st1 H) as (_ & H1 & H2 & H3 & H4).
  repeat split; assumption.
Qed.

Section Keeps.
Variable R : hstate V -> hstate V -> Prop.
Hypothesis R_refl : forall st, R st st.
Hypothesis R_trans : forall st st1 st2, R st st1 -> R st1 st2 -> R st st2.

Lemma keeps_ret {A} (a : A) : keeps R (ret a).
Proof. intros st r st1 [= _ <-]. apply R_refl. Qed.

Lemma keeps_raise {A} (e : exn) : keeps R (A:=A) (raise e).
Proof. intros st r st1 [= _ <-]. apply R_refl. Qed.

Lemma keeps_lift_result {A} (x : result A) : keeps R (lift_result x).
Proof. intros st r st1 [= _ <-]. apply R_refl. Qed.

Lemma keeps_bind {A B} (m : M V A) (k : A -> M V B) :
  keeps R m -> (forall a, keeps R (k a)) -> keeps R (bind m k).
Proof.
  intros Hm Hk st r st2 H.
  apply bind_inv in H as [(a & st1 & H1 & H2)|(e & H1 & _)].
  - eapply R_trans; [eapply Hm|eapply Hk]; eassumption.
  - eapply Hm; eassumption.
Qed.

Lemma keeps_try_except {A} (m : M V A) (handler : exn -> M V A) :
  keeps R m -> (forall e, keeps R (handler e)) -> keeps R (try_except m handler).
Proof.
  intros Hm Hh st r st2. unfold try_except.
  destruct (m st) as [[a|e] st1] eqn:H1.
  - intros [= <- <-]. eapply Hm; eassumption.
  - intros H2. eapply R_trans; [eapply Hm|eapply Hh]; eassumption.
Qed.

(** The commands of the control API keep what [default], [set] and [get]
    keep. *)
Lemma keeps_process_api_commands (cmd_name cmd_args : json) (step : Step)
  (scriptlet_name : string) :
  (py_eq_str cmd_name "default" = true ->
   keeps R (_execute_builtin_handler E self step)) ->
  (py_eq_str cmd_name "set" = true ->
   forall key value st, R st (set_vars (snd (set_project_var E key value (vars st))) st)) ->
  keeps R (_process_api_commands E self cmd_name cmd_args step scriptlet_name).
Proof.
  intros Hdefault Hset. unfold _process_api_commands.
  destruct (py_eq_str cmd_name "default").
  { apply keeps_bind; [apply keeps_lift_result|intros n].
    destruct (0 <? n)%nat; [apply keeps_raise|].
    apply keeps_bind; [auto|intros _; apply keeps_ret]. }
  destruct (py_eq_str cmd_name "set").
  { apply keeps_bind; [apply keeps_lift_result|intros n].
    destruct (negb (n =? 1)%nat); [apply keeps_raise|].
    apply keeps_bind; [apply keeps_lift_result|intros arg].
    apply keeps_bind; [apply keeps_lift_result|intros has_eq].
    destruct (negb has_eq); [apply keeps_raise|].
    apply keeps_bind; [apply keeps_lift_result|intros arg'].
    apply keeps_bind; [apply keeps_lift_result|intros pieces].
    apply keeps_bind; [apply keeps_lift_result|intros [key value]].
    apply keeps_bind; [|intros _; apply keeps_ret].
    apply keeps_try_except.
    - intros st r st1. specialize (Hset eq_refl key value st).
      destruct (set_project_var E key value (vars st)) as [r0 v].
      intros [= _ <-]. exact Hset.
    - intros e. destruct e; apply keeps_raise. }
  destruct (py_eq_str cmd_name "get").
  { apply keeps_bind; [apply keeps_lift_result|intros n].
    destruct (negb (n =? 1)%nat); [apply keeps_raise|].
    apply keeps_bind; [apply keeps_lift_result|intros key].
    apply keeps_try_except.
    - intros st r st1 [= _ <-]. apply R_refl.
    - intros e. destruct e; apply keeps_raise. }
  apply keeps_raise.
Qed.

Lemma keeps_handle_control_api (step : Step) (scriptlet_name function_call : string) :
  keeps R (_execute_builtin_handler E self step) ->
  (forall key value st, R st (set_vars (snd (set_project_var E key value (vars st))) st)) ->
  keeps R (_handle_control_api E self step scriptlet_name function_call).
Proof.
  intros Hdefault Hset. unfold _handle_control_api.
  destruct (json_loads E function_call) as [function_json|]; [|apply keeps_raise].
  apply keeps_bind.
  - unfold check_attrs.
    apply keeps_bind; [apply keeps_lift_result|intros p1].
    destruct (negb p1); [apply keeps_raise|].
    apply keeps_bind; [apply keeps_lift_result|intros p2].
    destruct (negb p2); [apply keeps_raise|apply keeps_ret].
  - intros _. apply keeps_bind; [apply keeps_lift_result|intros cmd_name].
    apply keeps_bind; [apply keeps_lift_result|intros cmd_args].
    apply keeps_process_api_commands; auto.
Qed.

End Keeps.

(** Handling a request sends nothing and leaves the connections alone. *)
Lemma quiet_handle_control_api (step : Step) (scriptlet_name function_call : string) :
  keeps same_connections
        (_handle_control_api E self step scriptlet_name function_call).
Proof.
  apply keeps_handle_control_api.
  - apply same_connections_refl.
  - apply same_connections_trans.
  - apply frames_keeps_connections, frames_execute_builtin_handler.
  - intros key value st. repeat split.
Qed.

End MoreFrames.

(** ** The contents of a step *)

Lemma map_pair_fst {A B} (f : A -> B) (l : list A) :
  (map (fun x => (x, f x)) l).*1 = l.
Proof. induction l as [|x l IH]; simpl; [reflexivity|]. f_equal. exact IH. Qed.

Lemma lookup_list_to_map_const {A} (l : list string) (a c : A) (key : string) :
  (list_to_map (map (fun partition => (partition, a)) l) : gmap string A) !! key = Some c ->
  c = a.
Proof.
  intros H. apply elem_of_list_to_map_2 in H.
  induction l as [|x l IH]; simpl in H.
  - inversion H.
  - apply elem_of_cons in H as [[= _ ->]|H]; [reflexivity|auto].
Qed.

(** Every entry of fresh contents is empty, of the kind asked for. *)
Lemma StepContents_init_values (partitions : option (list string)) (stage : bool)
  (partition : string) (c : PartitionContents) :
  partitions_contents (StepContents_init partitions stage) !! partition = Some c ->
  c = if stage then StagePC empty_StagePartitionContents
      else StepPC empty_StepPartitionContents.
Proof.
  unfold StepContents_init.
  destruct stage; cbn [partitions_contents]; apply lookup_list_to_map_const.
Qed.

(** X1.  [StepContents(partitions=..., stage=...)] has one entry for each
    partition asked for, whatever the order and the repetitions of the list,
    and the single entry of the default partition when the list is missing
    or empty; every entry is empty and of the stage kind exactly when
    [stage] is set. *)
Theorem StepContents_init_keys_and_values (partitions : option (list string))
  (stage : bool) :
  dom (partitions_contents (StepContents_init partitions stage))
  = requested_keys partitions
  /\ forall partition c,
       partitions_contents (StepContents_init partitions stage) !! partition = Some c ->
       c = if stage then StagePC empty_StagePartitionContents
           else StepPC empty_StepPartitionContents.
Proof.
  split.
  - unfold StepContents_init, requested_keys.
    destruct partitions as [[|p ps]|], stage; cbn [partitions_contents];
      rewrite dom_list_to_map_L, map_pair_fst; cbn [list_to_set foldr];
      try reflexivity; set_solver.
  - intros partition c. apply StepContents_init_values.
Qed.

(** ** One request, one reply *)

Section ReadFacts.
Context {V : Type} (E : Env V) (self : StepHandler).
Variables (step : Step) (scriptlet_name : string).

(** X2.  When the peer has closed a connection ([recv] yields no data),
    [read] unregisters and closes it and returns: nothing is sent, the
    request handler is not run (the project variables, the filesystem and
    the recorded calls are as before), and every other connection stays as
    it is. *)
Theorem read_end_of_stream (conn : nat) (data : string) (st : hstate V) :
  PyStr.truthy data = false ->
  conn ∈ registered st ->
  exists st1,
    read E self step scriptlet_name conn data st = (Ok tt, st1)
    /\ (conn ∉ registered st1) /\ conn ∈ closed st1
    /\ sent st1 = sent st /\ vars st1 = vars st
    /\ disk st1 = disk st /\ calls st1 = calls st /\ listening st1 = listening st
    /\ (forall conn', conn' <> conn ->
          (conn' ∈ registered st1 <-> conn' ∈ registered st)
          /\ (conn' ∈ closed st1 <-> conn' ∈ closed st)).
Proof.
  intros Hdata Hreg.
  exists (set_closed ({[conn]} ∪ closed st)
            (set_registered (registered st ∖ {[conn]}) st)).
  unfold read. rewrite Hdata. cbn [negb].
  unfold bind, unregister, close.
  rewrite bool_decide_eq_true_2 by exact Hreg.
  split; [reflexivity|]. cbn.
  split; [set_solver|]. split; [set_solver|].
  do 5 (split; [reflexivity|]).
  intros conn' Hne; split; set_solver.
Qed.

(** X3.  A request with data is answered at most once, and only on the
    connection that sent it: when [read] returns, exactly one reply ([OK],
    [OK <value>] or [ERR <message>]) has been sent on it, and when [read]
    raises, nothing has been sent; the connections stay registered and open
    and the socket listening. *)
Theorem read_replies_once (conn : nat) (data : string) (st st1 : hstate V)
  (r : result unit) :
  PyStr.truthy data = true ->
  read E self step scriptlet_name conn data st = (r, st1) ->
  registered st1 = registered st /\ closed st1 = closed st
  /\ listening st1 = listening st
  /\ match r with
     | Ok _ => exists reply, is_reply reply /\ sent st1 = (sent st ++ [(conn, reply)])%list
     | Raise _ => sent st1 = sent st
     end.
Proof.
  intros Hdata. unfold read. rewrite Hdata. cbn [negb].
  unfold try_except, bind at 1, decode_utf8.
  destruct (utf8_valid E data).
  - cbn [ret]. unfold bind.
    destruct (_handle_control_api E self step scriptlet_name data st)
      as [[retval|e] st0] eqn:Hh;
      destruct (quiet_handle_control_api E self step scriptlet_name data _ _ _ Hh)
        as (Hs & Hr & Hc & Hl).
    + unfold send. intros [= <- <-]. cbn.
      repeat (split; [assumption|]). rewrite Hs.
      destruct (PyStr.truthy retval).
      * exists (reply_ok_value retval). split; [right; left; eexists|]; reflexivity.
      * exists reply_ok. split; [left|]; reflexivity.
    + destruct e as [| | | | | | | | |pe];
        try (intros [= <- <-]; repeat (split; [assumption|]); assumption).
      destruct pe; unfold send;
        try (intros [= <- <-]; cbn; repeat (split; [assumption|]); rewrite Hs;
             eexists; split; [right; right; eexists; reflexivity|reflexivity]).
      intros [= <- <-]. repeat (split; [assumption|]). assumption.
  - cbn. intros [= <- <-]. repeat split.
Qed.

(** X4.  Of the commands of the control API only [set] writes the project
    variables, and only [default] touches the filesystem or calls a
    collaborator of the build: whatever the arguments and however the
    command ends. *)
Theorem only_set_writes_project_variables (cmd_name cmd_args : json)
  (st st1 : hstate V) (r : result string) :
  _process_api_commands E self cmd_name cmd_args step scriptlet_name st = (r, st1) ->
  (py_eq_str cmd_name "set" = false -> vars st1 = vars st)
  /\ (py_eq_str cmd_name "default" = false ->
      disk st1 = disk st /\ calls st1 = calls st).
Proof.
  intros H. split; intros Hcmd.
  - revert H.
    apply (keeps_process_api_commands E self (fun st st1 => vars st1 = vars st));
      [reflexivity|congruence| |rewrite Hcmd; discriminate].
    intros _ st0 r0 st2 H0.
    apply (frames_execute_builtin_handler E self step) in H0. apply H0.
  - revert H.
    apply (keeps_process_api_commands E self same_build);
      [apply same_build_refl|apply same_build_trans|rewrite Hcmd; discriminate|].
    intros _ key value st0. split; reflexivity.
Qed.

End ReadFacts.

Lemma only_set_writes_project_variables_witness :
  _process_api_commands Sample.env (Sample.handler BUILD [] None)
    (JStr "get") (JArr [JStr "ver"]) BUILD "override-build"
    (Sample.state {[ "ver" := "1.2.3" ]} ∅)
  = (Ok "1.2.3", Sample.state {[ "ver" := "1.2.3" ]} ∅)
  /\ vars (Sample.state {[ "ver" := "1.2.3" ]} ∅) = {[ "ver" := "1.2.3" ]}.
Proof.
  assert (H : _process_api_commands Sample.env (Sample.handler BUILD [] None)
                (JStr "get") (JArr [JStr "ver"]) BUILD "override-build"
                (Sample.state {[ "ver" := "1.2.3" ]} ∅)
              = (Ok "1.2.3", Sample.state {[ "ver" := "1.2.3" ]} ∅))
    by reflexivity.
  split; [exact H|].
  exact (proj1 (only_set_writes_project_variables Sample.env
                  (Sample.handler BUILD [] None) BUILD "override-build"
                  (JStr "get") (JArr [JStr "ver"]) _ _ _ H) eq_refl).
Defined.

Lemma read_end_of_stream_witness :
  exists st1,
    read Sample.env (Sample.handler BUILD [] None) BUILD "override-build" 0 EmptyString
         (set_registered {[ 0%nat ]} Sample.fresh) = (Ok tt, st1)
    /\ (0%nat ∉ registered st1) /\ 0%nat ∈ closed st1 /\ sent st1 = [].
Proof.
  destruct (read_end_of_stream Sample.env (Sample.handler BUILD [] None) BUILD
              "override-build" 0 EmptyString
              (set_registered {[ 0%nat ]} Sample.fresh) eq_refl)
    as (st1 & H & H1 & H2 & H3 & _).
  - cbn. set_solver.
  - exists st1. repeat (split; [assumption|]). exact H3.
Defined.

Lemma read_replies_once_witness :
  sent (snd (read Sample.env (Sample.handler BUILD [] None) BUILD "override-build" 0
               (Sample.request_text "get" ["ver"])
               (Sample.state {[ "ver" := "1.2.3" ]} ∅)))
  = [(0%nat, "OK 1.2.3" +:+ Sample.LF)]
  /\ registered (snd (read Sample.env (Sample.handler BUILD [] None) BUILD
                        "override-build" 0 (Sample.request_text "get" ["ver"])
                        (Sample.state {[ "ver" := "1.2.3" ]} ∅)))
     = ∅.
Proof.
  split; [vm_compute; reflexivity|].
  exact (proj1 (read_replies_once Sample.env (Sample.handler BUILD [] None) BUILD
                  "override-build" 0 (Sample.request_text "get" ["ver"])
                  (Sample.state {[ "ver" := "1.2.3" ]} ∅) _ _ eq_refl
                  (surjective_pairing _))).
Defined.

(** ** Errors of the project variables, and requests that are no objects *)

Section StoreFacts.
Context {V : Type} (E : Env V) (self : StepHandler).
Variables (step : Step) (scriptlet_name : string).

(** X5.  When the project refuses to set a variable with a [ValueError] or
    a [RuntimeError], the scriptlet is told so: the reply to [set] is [ERR]
    with the text of an invalid control API call that carries the message
    of the refusal, and the scriptlet run goes on. *)
Theorem set_refused_is_replied (conn : nat) (data K value msg : string) (e : exn)
  (v : V) (st : hstate V) :
  PyStr.truthy data = true ->
  utf8_valid E data = true ->
  request_of E data (JStr "set") (JArr [JStr (K +:+ "=" +:+ value)]) ->
  PyStr.contains "=" K = false ->
  PyStr.contains "=" value = false ->
  set_project_var E K value (vars st) = (Raise e, v) ->
  e = ValueError msg \/ e = RuntimeError msg ->
  let reply :=
    reply_err (PartsError_str E (InvalidControlAPICall (name (_part self))
                                                       scriptlet_name msg)) in
  let st1 := set_sent (sent st ++ [(conn, reply)]) (set_vars v st) in
  read E self step scriptlet_name conn data st = (Ok tt, st1)
  /\ keeps_serving E self step scriptlet_name conn data st reply st1.
Proof.
  intros Hd Hu Hreq HK Hv Hset He reply st1.
  assert (Hread : read E self step scriptlet_name conn data st = (Ok tt, st1)).
  { apply (read_replies_err E self step scriptlet_name conn data _ st (set_vars v st));
      auto.
    rewrite (handle_request E self step scriptlet_name _ _ _ st Hreq).
    rewrite process_set by assumption. rewrite Hset.
    destruct He as [-> | ->]; reflexivity. }
  split; [exact Hread|].
  apply (read_reply_keeps_serving E self step scriptlet_name conn data reply st
           (set_vars v st)); [exact Hread|reflexivity..].
Qed.

(** X6.  [get] turns a [ValueError] of the project into an [ERR] reply and
    the run goes on; a [RuntimeError] of the project, which [set] would
    report to the scriptlet, is not caught by [get]: it leaves [read] with
    nothing sent and ends the scriptlet run. *)
Theorem get_refused (conn : nat) (data msg : string) (key : json)
  (st : hstate V) :
  PyStr.truthy data = true ->
  utf8_valid E data = true ->
  request_of E data (JStr "get") (JArr [key]) ->
  (get_project_var E key true (vars st) = Raise (ValueError msg) ->
   let reply :=
     reply_err (PartsError_str E (InvalidControlAPICall (name (_part self))
                                                        scriptlet_name msg)) in
   let st1 := set_sent (sent st ++ [(conn, reply)]) st in
   read E self step scriptlet_name conn data st = (Ok tt, st1)
   /\ keeps_serving E self step scriptlet_name conn data st reply st1)
  /\ (get_project_var E key true (vars st) = Raise (RuntimeError msg) ->
      read E self step scriptlet_name conn data st = (Raise (RuntimeError msg), st)
      /\ aborts_scriptlet_run E self step scriptlet_name conn data st
                              (RuntimeError msg) st).
Proof.
  intros Hd Hu Hreq. split; intros Hget.
  - intros reply st1.
    assert (Hread : read E self step scriptlet_name conn data st = (Ok tt, st1)).
    { apply (read_replies_err E self step scriptlet_name conn data _ st st); auto.
      rewrite (handle_request E self step scriptlet_name _ _ _ st Hreq).
      rewrite process_get, Hget. reflexivity. }
    split; [exact Hread|].
    apply (read_reply_keeps_serving E self step scriptlet_name conn data reply st st);
      [exact Hread|reflexivity..].
  - assert (Hread : read E self step scriptlet_name conn data st
                    = (Raise (RuntimeError msg), st)).
    { apply read_raises; auto.
      rewrite (handle_request E self step scriptlet_name _ _ _ st Hreq).
      rewrite process_get, Hget. reflexivity. }
    split; [exact Hread|].
    apply read_raise_aborts; [exact Hread|reflexivity].
Qed.

(** X7.  A request whose text is JSON but no object (null, a boolean, a
    number, a string or an array) is never answered: handling it raises a
    [TypeError] or a [RuntimeError], which ends the scriptlet run with
    nothing sent. *)
Theorem non_object_request_is_fatal (conn : nat) (data : string) (v : json)
  (st : hstate V) :
  PyStr.truthy data = true ->
  utf8_valid E data = true ->
  json_loads E data = Some v ->
  (forall members, v <> JObj members) ->
  exists e,
    (exists msg, e = TypeError msg \/ e = RuntimeError msg)
    /\ read E self step scriptlet_name conn data st = (Raise e, st)
    /\ aborts_scriptlet_run E self step scriptlet_name conn data st e st.
Proof.
  intros Hd Hu Hv Hno.
  assert (H : exists e, (exists msg, e = TypeError msg \/ e = RuntimeError msg)
                        /\ _handle_control_api E self step scriptlet_name data st
                           = (Raise e, st)).
  { unfold _handle_control_api. rewrite Hv.
    destruct v as [|b|literal|s|items|members];
      try (eexists; split; [eexists; left; reflexivity|reflexivity]).
    - cbn [check_attrs]. unfold bind, lift_result. cbn [py_in negb].
      destruct (PyStr.contains "function" s); cbn [negb];
        [|eexists; split; [eexists; right; reflexivity|reflexivity]].
      destruct (PyStr.contains "args" s); cbn [negb];
        [|eexists; split; [eexists; right; reflexivity|reflexivity]].
      eexists; split; [eexists; left; reflexivity|reflexivity].
    - cbn [check_attrs]. unfold bind, lift_result. cbn [py_in negb].
      destruct (existsb _ items); cbn [negb];
        [|eexists; split; [eexists; right; reflexivity|reflexivity]].
      destruct (existsb _ items); cbn [negb];
        [|eexists; split; [eexists; right; reflexivity|reflexivity]].
      eexists; split; [eexists; left; reflexivity|reflexivity].
    - exfalso. apply (Hno members). reflexivity. }
  destruct H as (e & He & Hh). exists e. split; [exact He|].
  assert (Hread : read E self step scriptlet_name conn data st = (Raise e, st)).
  { apply read_raises; auto. left. destruct He as (msg & [-> | ->]); reflexivity. }
  split; [exact Hread|].
  apply read_raise_aborts; [exact Hread|].
  destruct He as (msg & [-> | ->]); reflexivity.
Qed.

(** X8.  When the built-in action of the step succeeds, whatever the step,
    the reply to [default] is a bare [OK], sent after the action has done
    its work, and the run goes on.  An exception of the action that is no
    structured error and no process error ends the scriptlet run with
    nothing sent. *)
Theorem default_runs_builtin_then_replies (conn : nat) (data : string)
  (st st1 : hstate V) (r : result unit) :
  PyStr.truthy data = true ->
  utf8_valid E data = true ->
  request_of E data (JStr "default") (JArr []) ->
  _execute_builtin_handler E self step st = (r, st1) ->
  match r with
  | Ok _ =>
      read E self step scriptlet_name conn data st
      = (Ok tt, set_sent (sent st ++ [(conn, reply_ok)]) st1)
      /\ keeps_serving E self step scriptlet_name conn data st reply_ok
                       (set_sent (sent st ++ [(conn, reply_ok)]) st1)
  | Raise e =>
      is_PartsError e = false -> is_ProcessError e = false ->
      read E self step scriptlet_name conn data st = (Raise e, st1)
      /\ sent st1 = sent st
      /\ aborts_scriptlet_run E self step scriptlet_name conn data st e st1
  end.
Proof.
  intros Hd Hu Hreq Hb.
  destruct (frames_execute_builtin_handler E self step _ _ _ Hb)
    as (_ & Hs & Hr & Hc & _).
  pose proof (handle_request E self step scriptlet_name _ _ _ st Hreq) as Hh.
  rewrite process_default, Hb in Hh.
  destruct r as [[]|e].
  - assert (Hread : read E self step scriptlet_name conn data st
                    = (Ok tt, set_sent (sent st1 ++ [(conn, reply_ok)]) st1))
      by (apply (read_replies_ok E self step scriptlet_name conn data EmptyString st st1);
          auto).
    rewrite <- Hs. split; [exact Hread|].
    apply (read_reply_keeps_serving E self step scriptlet_name conn data reply_ok st st1);
      assumption.
  - intros Hpe Hproc.
    assert (Hread : read E self step scriptlet_name conn data st = (Raise e, st1))
      by (apply read_raises; auto).
    split; [exact Hread|]. split; [exact Hs|].
    apply read_raise_aborts; assumption.
Qed.

End StoreFacts.

Lemma faulty_request (e : exn) (function : string) (args : list string) :
  In (function, args) Sample.known_requests ->
  request_of (Faulty.env e) (Sample.request_text function args)
             (JStr function) (JArr (map JStr args)).
Proof.
  intros Hin. simpl in Hin.
  exists [("function", JStr function); ("args", JArr (map JStr args))].
  split; [|split; reflexivity].
  repeat (destruct Hin as [[= <- <-]|Hin]; [vm_compute; reflexivity|]).
  destruct Hin.
Qed.

Lemma set_refused_is_replied_witness :
  read (Faulty.env (RuntimeError "variable 'ver' can be set only once"))
       (Sample.handler BUILD [] None) BUILD "override-build" 0
       (Sample.request_text "set" ["ver=1.2.3"]) Sample.fresh
  = (Ok tt,
     set_sent [(0%nat, Sample.misuse_reply "variable 'ver' can be set only once")]
              Sample.fresh).
Proof.
  exact (proj1 (set_refused_is_replied
                  (Faulty.env (RuntimeError "variable 'ver' can be set only once"))
                  (Sample.handler BUILD [] None) BUILD "override-build" 0
                  (Sample.request_text "set" ["ver=1.2.3"]) "ver" "1.2.3"
                  "variable 'ver' can be set only once" _ _ Sample.fresh
                  eq_refl eq_refl
                  (faulty_request _ "set" ["ver=1.2.3"] ltac:(simpl; auto 12))
                  eq_refl eq_refl eq_refl (or_intror eq_refl))).
Defined.

Lemma get_refused_witness :
  read (Faulty.env (RuntimeError "project is locked"))
       (Sample.handler BUILD [] None) BUILD "override-build" 0
       (Sample.request_text "get" ["ver"]) Sample.fresh
  = (Raise (RuntimeError "project is locked"), Sample.fresh).
Proof.
  exact (proj1 (proj2 (get_refused (Faulty.env (RuntimeError "project is locked"))
                         (Sample.handler BUILD [] None) BUILD "override-build" 0
                         (Sample.request_text "get" ["ver"]) "project is locked"
                         (JStr "ver") Sample.fresh eq_refl eq_refl
                         (faulty_request _ "get" ["ver"] ltac:(simpl; auto 12)))
                      eq_refl)).
Defined.

Lemma non_object_request_is_fatal_witness :
  exists e,
    (exists msg, e = TypeError msg \/ e = RuntimeError msg)
    /\ read (Faulty.env (ValueError "no such variable"))
            (Sample.handler BUILD [] None) BUILD "override-build" 0 "null"
            Sample.fresh
       = (Raise e, Sample.fresh).
Proof.
  destruct (non_object_request_is_fatal (Faulty.env (ValueError "no such variable"))
              (Sample.handler BUILD [] None) BUILD "override-build" 0 "null" JNull
              Sample.fresh eq_refl eq_refl eq_refl)
    as (e & He & Hread & _).
  - intros members. discriminate.
  - exists e. split; assumption.
Defined.

Lemma default_runs_builtin_then_replies_witness :
  read Sample.env (Sample.handler STAGE [] (Some ["default"; "kernel"])) STAGE
       "override-stage" 0 (Sample.request_text "default" []) Sample.fresh
  = (Ok tt,
     set_sent [(0%nat, reply_ok)]
       (snd (_execute_builtin_handler Sample.env
               (Sample.handler STAGE [] (Some ["default"; "kernel"])) STAGE
               Sample.fresh))).
Proof.
  assert (Hb : _execute_builtin_handler Sample.env
                 (Sample.handler STAGE [] (Some ["default"; "kernel"])) STAGE
                 Sample.fresh
               = (Ok tt,
                  snd (_execute_builtin_handler Sample.env
                         (Sample.handler STAGE [] (Some ["default"; "kernel"])) STAGE
                         Sample.fresh)))
    by (vm_compute; reflexivity).
  exact (proj1 (default_runs_builtin_then_replies Sample.env
                  (Sample.handler STAGE [] (Some ["default"; "kernel"])) STAGE
                  "override-stage" 0 (Sample.request_text "default" []) _ _ _
                  eq_refl eq_refl
                  (sample_request "default" [] ltac:(simpl; auto 12)) Hb)).
Defined.

Section MoreRequests.
Context {V : Type} (E : Env V) (self : StepHandler).
Variables (step : Step) (scriptlet_name : string).

(** X23.  A request that is no UTF-8 text is not answered: decoding it
    raises [UnicodeDecodeError], which is no structured error, so that
    nothing is sent, the state is as before and the scriptlet run ends. *)
Theorem undecodable_request_is_fatal (conn : nat) (data : string) (st : hstate V) :
  PyStr.truthy data = true ->
  utf8_valid E data = false ->
  exists msg,
    read E self step scriptlet_name conn data st = (Raise (UnicodeDecodeError msg), st)
    /\ aborts_scriptlet_run E self step scriptlet_name conn data st
                            (UnicodeDecodeError msg) st.
Proof.
  intros Hd Hu. eexists.
  assert (Hread : read E self step scriptlet_name conn data st
                  = (Raise (UnicodeDecodeError "'utf-8' codec can't decode bytes"), st)).
  { unfold read. rewrite Hd. cbn [negb]. unfold try_except, bind, decode_utf8.
    rewrite Hu. reflexivity. }
  split; [exact Hread|]. apply read_raise_aborts; [exact Hread|reflexivity].
Qed.

(** X24.  A command that is none of [default], [set] and [get] is refused
    before its arguments are looked at: whatever the arguments are, and
    whatever JSON value stands for the name of the command, the scriptlet
    is sent the [ERR] reply of an invalid command and the run goes on. *)
Theorem unknown_command_is_replied (conn : nat) (data : string)
  (cmd_name cmd_args : json) (st : hstate V) :
  PyStr.truthy data = true ->
  utf8_valid E data = true ->
  request_of E data cmd_name cmd_args ->
  cmd_name <> JStr "default" -> cmd_name <> JStr "set" -> cmd_name <> JStr "get" ->
  let reply :=
    reply_err (PartsError_str E
                 (InvalidControlAPICall (name (_part self)) scriptlet_name
                                        ("invalid command " +:+ repr E cmd_name))) in
  let st1 := set_sent (sent st ++ [(conn, reply)]) st in
  read E self step scriptlet_name conn data st = (Ok tt, st1)
  /\ keeps_serving E self step scriptlet_name conn data st reply st1.
Proof.
  intros Hd Hu Hreq H1 H2 H3 reply st1.
  assert (Hne : forall s, cmd_name <> JStr s -> py_eq_str cmd_name s = false).
  { intros s Hs. destruct cmd_name as [| | |s'| |]; try reflexivity.
    cbn. destruct (String.eqb_spec s' s) as [->|]; [contradiction|reflexivity]. }
  assert (Hread : read E self step scriptlet_name conn data st = (Ok tt, st1)).
  { apply (read_replies_err E self step scriptlet_name conn data _ st st); auto.
    rewrite (handle_request E self step scriptlet_name _ _ _ st Hreq).
    unfold _process_api_commands. rewrite !Hne by assumption. reflexivity. }
  split; [exact Hread|].
  apply (read_reply_keeps_serving E self step scriptlet_name conn data reply st st);
    [exact Hread|reflexivity..].
Qed.

End MoreRequests.

Lemma undecodable_request_is_fatal_witness :
  exists msg,
    read (Faulty.env (ValueError "no such variable")) (Sample.handler BUILD [] None)
         BUILD "override-build" 0 (String "255"%char "{}") Sample.fresh
    = (Raise (UnicodeDecodeError msg), Sample.fresh).
Proof.
  destruct (undecodable_request_is_fatal (Faulty.env (ValueError "no such variable"))
              (Sample.handler BUILD [] None) BUILD "override-build" 0
              (String "255"%char "{}") Sample.fresh eq_refl eq_refl)
    as (msg & Hread & _).
  exists msg. exact Hread.
Defined.

Lemma unknown_command_is_replied_witness :
  read Sample.env (Sample.handler BUILD [] None) BUILD "override-build" 0
       (Sample.request_text "frobnicate" []) Sample.fresh
  = (Ok tt,
     set_sent [(0%nat, Sample.misuse_reply "invalid command 'frobnicate'")]
              Sample.fresh).
Proof.
  exact (proj1 (unknown_command_is_replied Sample.env (Sample.handler BUILD [] None)
                  BUILD "override-build" 0 (Sample.request_text "frobnicate" [])
                  (JStr "frobnicate") (JArr []) Sample.fresh eq_refl eq_refl
                  (sample_request "frobnicate" [] ltac:(simpl; auto 12))
                  ltac:(discriminate) ltac:(discriminate) ltac:(discriminate))).
Defined.

(** ** More about the built-in actions *)

Section LoopMembers.
Context {V : Type}.

(** A loop that ends well has run every round well. *)
Lemma for_each_ok_each {A S} (l : list A) (body : A -> S -> M V S)
  (s s' : S) (st st' : hstate V) :
  for_each l body s st = (Ok s', st') ->
  forall x, x ∈ l -> exists s0 st0 s1 st1, body x s0 st0 = (Ok s1, st1).
Proof.
  revert s st. induction l as [|y l IH]; intros s st H x Hx.
  - inversion Hx.
  - cbn [for_each] in H. apply bind_ok_inv in H as (s1 & st1 & Hb & H).
    apply elem_of_cons in Hx as [->|Hx].
    + exists s, st, s1, st1. exact Hb.
    + eapply IH; eassumption.
Qed.

Lemma for_each_preserves_in {A S} (I : S -> Prop) (l : list A)
  (body : A -> S -> M V S) :
  (forall x s st s' st', x ∈ l -> I s -> body x s st = (Ok s', st') -> I s') ->
  forall s st s' st', I s -> for_each l body s st = (Ok s', st') -> I s'.
Proof.
  induction l as [|y l IH]; intros Hb s st s' st' Hs H.
  - apply ret_ok_inv in H as ->. exact Hs.
  - cbn [for_each] in H. apply bind_ok_inv in H as (s1 & st1 & Hy & H).
    apply (IH (fun x s0 st0 s2 st2 Hx => Hb x s0 st0 s2 st2 (list_elem_of_further _ _ _ Hx))
              s1 st1 s' st'); [|exact H].
    eapply Hb; [apply list_elem_of_here|exact Hs|exact Hy].
Qed.

End LoopMembers.

Lemma hstate_eta {V} (st : hstate V) :
  set_disk (disk st) (set_calls (calls st ++ []) st) = st.
Proof.
  destruct st. unfold set_disk, set_calls. cbn. rewrite app_nil_r. reflexivity.
Qed.

Lemma startswith_app (p s : string) : PyStr.startswith p (p +:+ s) = true.
Proof.
  induction p as [|c p IH].
  - destruct s; reflexivity.
  - change (PyStr.startswith (String c p) (String c p +:+ s))
      with (if Ascii.eqb c c then PyStr.startswith p (p +:+ s) else false).
    rewrite Ascii.eqb_refl. exact IH.
Qed.

Lemma append_empty_r (s : string) : s +:+ EmptyString = s.
Proof.
  induction s as [|c s IH]; [reflexivity|].
  change (String c (s +:+ EmptyString) = String c s). f_equal. exact IH.
Qed.

Lemma startswith_joinpath (base name : string) :
  PyStr.startswith (joinpath base EmptyString) (joinpath base name) = true.
Proof.
  unfold joinpath. destruct (PyStr.endswith "/" base).
  - rewrite append_empty_r. apply startswith_app.
  - change (base +:+ "/" +:+ EmptyString) with (base +:+ "/").
    rewrite <- (append_assoc base "/" name). apply startswith_app.
Qed.

Section PullFacts.
Context {V : Type} (E : Env V) (self : StepHandler).

(** X9.  What [_builtin_pull] does: it pulls the source with the source
    handler if there is one; an exception of the handler, a process error
    too, is passed on as it is, and then no script is written or run.
    After that, if the plugin has pull commands, it writes them to
    [pull.sh] in the run directory of the part, with no environment script
    sourced, and runs the script in the source directory of the part; an
    exit code that is not 0 gives the [PluginPullError] of the part, which
    drops the error output.  Without pull commands no script is written. *)
Theorem builtin_pull_runs_source_then_script (st : hstate V) :
  let part := _part self in
  let pull_sh := joinpath (absolute E (part_run_dir part)) "pull.sh" in
  let LF := String "010"%char EmptyString in
  let script :=
    "#!/bin/bash" +:+ LF +:+ "set -euo pipefail" +:+ LF +:+ "set -x" +:+ LF
    +:+ PyStr.join (map (fun cmd => cmd +:+ LF) (get_pull_commands (_plugin self))) in
  let sourced :=
    match _source_handler self with
    | Some h => pull h (disk st)
    | None => (Ok tt, disk st)
    end in
  let st0 :=
    set_disk (snd sourced)
      (set_calls (calls st ++ match _source_handler self with
                              | Some _ => [CallPull]
                              | None => []
                              end) st) in
  let d := <[pull_sh := File script 493 (* 0o755 *)]> (snd sourced) in
  let c := exec E pull_sh (part_src_subdir part) (_stdout self) (_stderr self) d in
  let returncode := fst (fst (child_exit c)) in
  let effect := snd (child_exit c) in
  _builtin_pull E self st
  = match fst sourced with
    | Raise e => (Raise e, st0)
    | Ok _ =>
        match get_pull_commands (_plugin self) with
        | [] => (Ok (StepContents_init None false), st0)
        | _ :: _ =>
            (if (returncode =? 0)%Z then Ok (StepContents_init None false)
             else Raise (PartsError (PluginPullError (name part))),
             set_disk (effect d)
               (set_calls (calls st0 ++ [CallRun pull_sh (part_src_subdir part) false])
                          st0))
        end
    end.
Proof.
  intros part pull_sh LF script sourced st0 d c returncode effect.
  unfold _builtin_pull.
  assert (Hsrc : (match _source_handler self with
                  | Some h => log_call CallPull ;;; on_disk (pull h)
                  | None => ret tt
                  end) st = (fst sourced, st0)).
  { subst st0 sourced. destruct (_source_handler self) as [h|].
    - unfold bind, log_call, on_disk. cbn.
      destruct (pull h (disk st)) as [r d0]. reflexivity.
    - cbn [ret fst snd]. rewrite hstate_eta. reflexivity. }
  unfold bind at 1. rewrite Hsrc.
  destruct (fst sourced) as [[]|e]; [|reflexivity].
  destruct (get_pull_commands (_plugin self)) as [|cmd cmds] eqn:Hcmds;
    [reflexivity|].
  unfold bind, try_except.
  rewrite create_and_run_script_unfold, process_run_no_selector.
  cbv zeta. simpl disk. subst returncode effect c d.
  destruct (fst (fst (child_exit _)) =? 0)%Z; reflexivity.
Qed.

End PullFacts.

(** ** PRIME, and STAGE without partitions *)

Section PrimeFacts.
Context {V : Type} (E : Env V) (self : StepHandler).

Lemma set_contents_init (c : PartitionContents) (stage : bool) :
  set_contents DEFAULT_PARTITION c (StepContents_init None stage)
  = {| partitions_contents := {[ DEFAULT_PARTITION := c ]} |}.
Proof.
  unfold set_contents. f_equal.
  destruct stage; cbn [StepContents_init partitions_contents map list_to_map foldr];
    rewrite insert_insert_eq, insert_empty; reflexivity.
Qed.

(** X10.  What [_builtin_prime] does.  If the entries of the prime fileset
    are just [*] or the fileset includes nothing, the fileset is combined
    with the stage fileset and the result is used, and when combining fails
    PRIME raises with nothing done; otherwise the prime fileset is used
    alone.  With partitions, PRIME makes one round for each in turn: the
    fileset is resolved from the install directory of the partition, and
    what was found is migrated from the stage directory to the prime
    directory of the partition with the permissions of the part and without
    a fixup, and what was migrated is recorded for the partition.  Without
    partitions it does so once, for the install, stage and prime
    directories of the part and the constant default partition.  A failure
    of a collaborator ends the step where it occurs. *)
Theorem builtin_prime_calls :
  let part := _part self in
  let default := default_partition (_step_info self) in
  let prime :=
    {| entries := prime_files (spec part); fileset_name := "prime";
       fileset_default_partition := default |} in
  let stage :=
    {| entries := stage_files (spec part); fileset_name := "stage";
       fileset_default_partition := default |} in
  let chosen :=
    if bool_decide (Fileset_entries E prime = ["*"])
       || (length (Fileset_includes E prime) =? 0)%nat
    then Fileset_combine E prime stage
    else Ok prime in
  (forall st : hstate V,
     _builtin_prime E self st
     = match chosen with
       | Raise e => (Raise e, st)
       | Ok fileset =>
           match _partitions self with
           | Some (p :: ps) =>
               for_each (p :: ps) (prime_partition E self fileset)
                        (StepContents_init None false) st
           | _ =>
               let resolve :=
                 CallMigratable fileset (part_install_dir part)
                                (Some DEFAULT_PARTITION) None in
               let migrate :=
                 CallMigrate (stage_dir part) (prime_dir part) false true in
               match migratable_filesets E fileset (part_install_dir part)
                                         (Some DEFAULT_PARTITION) None (disk st) with
               | Raise e => (Raise e, set_calls (calls st ++ [resolve]) st)
               | Ok (files, dirs) =>
                   match migrate_files E files dirs (stage_dir part) (prime_dir part)
                                       None (Some (permissions (spec part)))
                                       (disk st) with
                   | (Raise e, d) =>
                       (Raise e,
                        set_disk d (set_calls (calls st ++ [resolve; migrate]) st))
                   | (Ok (files, dirs), d) =>
                       (Ok {| partitions_contents :=
                                {[ DEFAULT_PARTITION :=
                                     StepPC {| files := files; dirs := dirs |} ]} |},
                        set_disk d (set_calls (calls st ++ [resolve; migrate]) st))
                   end
               end
           end
       end)
  /\ (forall (fileset : Fileset) (partition srcdir : string)
             (step_contents : StepContents) (st : hstate V),
        part_install_dirs part !! partition = Some srcdir ->
        let resolve := CallMigratable fileset srcdir default (Some partition) in
        let migrate :=
          CallMigrate (get_stage_dir part partition) (get_prime_dir part partition)
                      false true in
        prime_partition E self fileset partition step_contents st
        = match migratable_filesets E fileset srcdir default (Some partition)
                                    (disk st) with
          | Raise e => (Raise e, set_calls (calls st ++ [resolve]) st)
          | Ok (files, dirs) =>
              match migrate_files E files dirs (get_stage_dir part partition)
                                  (get_prime_dir part partition) None
                                  (Some (permissions (spec part))) (disk st) with
              | (Raise e, d) =>
                  (Raise e, set_disk d (set_calls (calls st ++ [resolve; migrate]) st))
              | (Ok (files, dirs), d) =>
                  (Ok (set_contents partition
                         (StepPC {| files := files; dirs := dirs |}) step_contents),
                   set_disk d (set_calls (calls st ++ [resolve; migrate]) st))
              end
          end).
Proof.
  intros part default prime stage chosen. split.
  - intros st. unfold _builtin_prime. cbv zeta.
    fold part default prime stage.
    assert (Hchoice :
              (if bool_decide (Fileset_entries E prime = ["*"])
                  || (length (Fileset_includes E prime) =? 0)%nat
               then lift_result (Fileset_combine E prime stage)
               else ret prime) st
              = (chosen, st)).
    { subst chosen. destruct (_ || _); reflexivity. }
    unfold bind at 1. rewrite Hchoice.
    destruct chosen as [fileset|e]; [|reflexivity].
    assert (Hsingle :
              (r <- call_migratable_filesets E fileset (part_install_dir part)
                      (Some DEFAULT_PARTITION) None ;;
               let '(files, dirs) := r in
               r <- call_migrate_files E files dirs (stage_dir part) (prime_dir part)
                      None (Some (permissions (spec part))) ;;
               let '(files, dirs) := r in
               ret (set_contents DEFAULT_PARTITION
                      (StepPC {| files := files; dirs := dirs |})
                      (StepContents_init None false))) st
              = match migratable_filesets E fileset (part_install_dir part)
                                          (Some DEFAULT_PARTITION) None (disk st) with
                | Raise e =>
                    (Raise e,
                     set_calls (calls st
                                ++ [CallMigratable fileset (part_install_dir part)
                                                   (Some DEFAULT_PARTITION) None]) st)
                | Ok (files, dirs) =>
                    match migrate_files E files dirs (stage_dir part) (prime_dir part)
                                        None (Some (permissions (spec part)))
                                        (disk st) with
                    | (Raise e, d) =>
                        (Raise e,
                         set_disk d
                           (set_calls
                              (calls st
                               ++ [CallMigratable fileset (part_install_dir part)
                                                  (Some DEFAULT_PARTITION) None;
                                   CallMigrate (stage_dir part) (prime_dir part)
                                               false true]) st))
                    | (Ok (files, dirs), d) =>
                        (Ok {| partitions_contents :=
                                 {[ DEFAULT_PARTITION :=
                                      StepPC {| files := files; dirs := dirs |} ]} |},
                         set_disk d
                           (set_calls
                              (calls st
                               ++ [CallMigratable fileset (part_install_dir part)
                                                  (Some DEFAULT_PARTITION) None;
                                   CallMigrate (stage_dir part) (prime_dir part)
                                               false true]) st))
                    end
                end).
    { rewrite call_migratable_filesets_unfold. cbv zeta.
      destruct (migratable_filesets E fileset (part_install_dir part)
                                    (Some DEFAULT_PARTITION) None (disk st))
        as [[files dirs]|e]; [|reflexivity].
      rewrite call_migrate_files_unfold. cbv zeta. simpl disk.
      rewrite ?bool_decide_is_Some, ?bool_decide_is_Some_None, set_calls_again.
      destruct (migrate_files E files dirs (stage_dir part) (prime_dir part) None
                              (Some (permissions (spec part))) (disk st))
        as [[[files' dirs']|e] d]; [|reflexivity].
      unfold ret. rewrite set_contents_init. reflexivity. }
    destruct (_partitions self) as [[|p ps]|]; [exact Hsingle|reflexivity|exact Hsingle].
  - intros fileset partition srcdir step_contents st Hdir.
    apply prime_partition_unfold. exact Hdir.
Qed.

(** X11.  What [_builtin_stage] does without partitions ([None] or an
    empty list).  The stage fileset is resolved from the install directory
    of the part, and what was found is migrated to its stage directory with
    a fixup that leaves links and files other than [.pc] alone and fixes the
    prefix of a pkg-config file; then the backstage fileset [*], with no
    default partition, is resolved from the export directory, and what was
    found is migrated to the backstage directory with no fixup.  Each
    resolution names the constant default partition and no partition to
    select.  What was migrated is recorded as the single entry, of the stage
    kind, of the default partition.  A failure of a collaborator ends the
    step where it occurs. *)
Theorem builtin_stage_without_partitions (st : hstate V) :
  _partitions self = None \/ _partitions self = Some [] ->
  let part := _part self in
  let stage_fileset :=
    {| entries := stage_files (spec part); fileset_name := "stage";
       fileset_default_partition := default_partition (_step_info self) |} in
  let backstage_fileset :=
    {| entries := ["*"]; fileset_name := "backstage";
       fileset_default_partition := None |} in
  let fixup :=
    fun (file_path : string) (d : fs) =>
      if islink E file_path d then (Ok tt, d)
      else if negb (PyStr.endswith ".pc" file_path) then (Ok tt, d)
      else fix_pkg_config E (stage_dir part) file_path (part_install_dir part) d in
  let resolve :=
    CallMigratable stage_fileset (part_install_dir part) (Some DEFAULT_PARTITION)
                   None in
  let migrate := CallMigrate (part_install_dir part) (stage_dir part) true false in
  let resolve_backstage :=
    CallMigratable backstage_fileset (part_export_dir part) (Some DEFAULT_PARTITION)
                   None in
  let migrate_backstage :=
    CallMigrate (part_export_dir part) (backstage_dir part) false false in
  _builtin_stage E self st
  = match migratable_filesets E stage_fileset (part_install_dir part)
                              (Some DEFAULT_PARTITION) None (disk st) with
    | Raise e => (Raise e, set_calls (calls st ++ [resolve]) st)
    | Ok (files, dirs) =>
        match migrate_files E files dirs (part_install_dir part) (stage_dir part)
                            (Some fixup) None (disk st) with
        | (Raise e, d) =>
            (Raise e, set_disk d (set_calls (calls st ++ [resolve; migrate]) st))
        | (Ok (files, dirs), d) =>
            match migratable_filesets E backstage_fileset (part_export_dir part)
                                      (Some DEFAULT_PARTITION) None d with
            | Raise e =>
                (Raise e,
                 set_disk d
                   (set_calls (calls st ++ [resolve; migrate; resolve_backstage]) st))
            | Ok (backstage_files, backstage_dirs) =>
                match migrate_files E backstage_files backstage_dirs
                                    (part_export_dir part) (backstage_dir part)
                                    None None d with
                | (Raise e, d') =>
                    (Raise e,
                     set_disk d'
                       (set_calls (calls st ++ [resolve; migrate; resolve_backstage;
                                                migrate_backstage]) st))
                | (Ok (backstage_files, backstage_dirs), d') =>
                    (Ok {| partitions_contents :=
                             {[ DEFAULT_PARTITION :=
                                  StagePC {| as_StepPartitionContents :=
                                               {| files := files; dirs := dirs |};
                                             backstage_files := backstage_files;
                                             backstage_dirs := backstage_dirs |} ]} |},
                     set_disk d'
                       (set_calls (calls st ++ [resolve; migrate; resolve_backstage;
                                                migrate_backstage]) st))
                end
            end
        end
    end.
Proof.
  intros Hp part stage_fileset backstage_fileset fixup resolve migrate
         resolve_backstage migrate_backstage.
  assert (Hb : _builtin_stage E self
               = (r <- call_migratable_filesets E stage_fileset
                         (part_install_dir part) (Some DEFAULT_PARTITION) None ;;
                  let '(files, dirs) := r in
                  r <- call_migrate_files E files dirs (part_install_dir part)
                         (stage_dir part) (Some fixup) None ;;
                  let '(files, dirs) := r in
                  r <- call_migratable_filesets E backstage_fileset
                         (part_export_dir part) (Some DEFAULT_PARTITION) None ;;
                  let '(backstage_files, backstage_dirs) := r in
                  r <- call_migrate_files E backstage_files backstage_dirs
                         (part_export_dir part) (backstage_dir part) None None ;;
                  let '(backstage_files, backstage_dirs) := r in
                  ret (set_contents DEFAULT_PARTITION
                         (StagePC {| as_StepPartitionContents :=
                                       {| files := files; dirs := dirs |};
                                     backstage_files := backstage_files;
                                     backstage_dirs := backstage_dirs |})
                         (StepContents_init None true)))).
  { unfold _builtin_stage. destruct Hp as [-> | ->]; reflexivity. }
  rewrite Hb. rewrite call_migratable_filesets_unfold. cbv zeta. fold resolve.
  destruct (migratable_filesets E stage_fileset (part_install_dir part)
                                (Some DEFAULT_PARTITION) None (disk st))
    as [[files dirs]|e]; [|reflexivity].
  rewrite call_migrate_files_unfold. cbv zeta. simpl disk.
  rewrite ?bool_decide_is_Some, ?bool_decide_is_Some_None, set_calls_again.
  fold migrate.
  destruct (migrate_files E files dirs (part_install_dir part) (stage_dir part)
                          (Some fixup) None (disk st))
    as [[[files' dirs']|e] d]; [|reflexivity].
  rewrite call_migratable_filesets_unfold. cbv zeta. simpl disk.
  rewrite set_calls_twice. fold resolve_backstage.
  destruct (migratable_filesets E backstage_fileset (part_export_dir part)
                                (Some DEFAULT_PARTITION) None d)
    as [[bf bd]|e]; [|reflexivity].
  rewrite call_migrate_files_unfold. cbv zeta. simpl disk.
  rewrite ?bool_decide_is_Some_None, set_calls_twice.
  destruct (migrate_files E bf bd (part_export_dir part) (backstage_dir part)
                          None None d)
    as [[[bf' bd']|e] d']; [|reflexivity].
  unfold ret. rewrite set_contents_init. reflexivity.
Qed.

(** X12.  STAGE and PRIME need an install directory for every partition
    they are asked for: if one of the partitions is no key of the install
    directories of the part, neither of them returns contents, whatever the
    collaborators do. *)
Theorem partitions_need_install_dirs (partitions : list string) (partition : string) :
  _partitions self = Some partitions ->
  partition ∈ partitions ->
  part_install_dirs (_part self) !! partition = None ->
  forall st sc st1,
    _builtin_stage E self st <> (Ok sc, st1)
    /\ _builtin_prime E self st <> (Ok sc, st1).
Proof.
  intros Hp Hin Hdir st sc st1.
  destruct partitions as [|p ps]; [inversion Hin|].
  split; intros H.
  - unfold _builtin_stage in H. rewrite Hp in H.
    apply bind_ok_inv in H as ([bf bd] & st2 & _ & H).
    apply bind_ok_inv in H as (s & st3 & H & _).
    destruct (for_each_ok_each _ _ _ _ _ _ H partition Hin)
      as ([[bf0 bd0] sc0] & st0 & s1 & st1' & Hb).
    unfold stage_partition in Hb.
    apply bind_ok_inv in Hb as (srcdir & st4 & Hb & _).
    unfold install_dir_of in Hb. rewrite Hdir in Hb. discriminate.
  - unfold _builtin_prime in H. rewrite Hp in H.
    apply bind_ok_inv in H as (fileset & st2 & _ & H).
    destruct (for_each_ok_each _ _ _ _ _ _ H partition Hin)
      as (sc0 & st0 & s1 & st1' & Hb).
    unfold prime_partition in Hb.
    apply bind_ok_inv in Hb as (srcdir & st4 & Hb & _).
    unfold install_dir_of in Hb. rewrite Hdir in Hb. discriminate.
Qed.

(** X13.  The kind of the contents that a built-in step returns: every
    entry of STAGE is of the stage kind (with backstage sets), every entry
    of the other steps of the plain kind.  The entry of the default
    partition is there also when STAGE or PRIME was asked for partitions
    without it, and is then empty. *)
Theorem run_builtin_kinds (st st1 : hstate V) (sc : StepContents) :
  run_builtin E self st = (Ok sc, st1) ->
  (forall partition c,
     partitions_contents sc !! partition = Some c ->
     match step (_step_info self) with
     | STAGE => exists c', c = StagePC c'
     | _ => exists c', c = StepPC c'
     end)
  /\ (DEFAULT_PARTITION ∉ requested_keys (_partitions self) ->
      partitions_contents sc !! DEFAULT_PARTITION
      = Some (match step (_step_info self) with
              | STAGE => StagePC empty_StagePartitionContents
              | _ => StepPC empty_StepPartitionContents
              end)).
Proof.
  pose (K := fun (stage : bool) (c : PartitionContents) =>
               if stage then exists c', c = StagePC c' else exists c', c = StepPC c').
  pose (I := fun (stage : bool) (sc : StepContents) =>
               (forall partition c,
                  partitions_contents sc !! partition = Some c -> K stage c)
               /\ (DEFAULT_PARTITION ∉ requested_keys (_partitions self) ->
                   partitions_contents sc !! DEFAULT_PARTITION
                   = Some (if stage then StagePC empty_StagePartitionContents
                           else StepPC empty_StepPartitionContents))).
  assert (Hinit : forall stage, I stage (StepContents_init None stage)).
  { intros stage. split.
    - intros partition c Hc.
      apply StepContents_init_values in Hc as ->.
      destruct stage; eexists; reflexivity.
    - intros _. destruct stage; apply lookup_insert_eq. }
  assert (Hsingle : forall stage c,
            (_partitions self = None \/ _partitions self = Some []) ->
            K stage c ->
            I stage (set_contents DEFAULT_PARTITION c (StepContents_init None stage))).
  { intros stage c Hp Hc. split.
    - intros partition c0. cbn [set_contents partitions_contents].
      destruct (decide (DEFAULT_PARTITION = partition)) as [<-|Hne].
      + rewrite lookup_insert_eq. intros [= <-]. exact Hc.
      + rewrite lookup_insert_ne by exact Hne. apply (Hinit stage).
    - intros Hno. exfalso. apply Hno. unfold requested_keys.
      destruct Hp as [-> | ->]; set_solver. }
  assert (Hround : forall stage x c sc0,
            x ∈ default [] (_partitions self) ->
            K stage c ->
            _partitions self <> None -> _partitions self <> Some [] ->
            I stage sc0 -> I stage (set_contents x c sc0)).
  { intros stage x c sc0 Hx Hc Hn1 Hn2 [I1 I2]. split.
    - intros partition c0. cbn [set_contents partitions_contents].
      destruct (decide (x = partition)) as [<-|Hne].
      + rewrite lookup_insert_eq. intros [= <-]. exact Hc.
      + rewrite lookup_insert_ne by exact Hne. apply I1.
    - intros Hno. cbn [set_contents partitions_contents].
      rewrite lookup_insert_ne; [apply I2; exact Hno|].
      intros ->. apply Hno. unfold requested_keys.
      destruct (_partitions self) as [[|p ps]|]; try contradiction.
      apply elem_of_list_to_set. exact Hx. }
  intros H.
  assert (HI : I (match step (_step_info self) with STAGE => true | _ => false end) sc).
  { unfold run_builtin in H. destruct (step (_step_info self)).
    - apply builtin_pull_result in H as ->. apply Hinit.
    - apply ret_ok_inv in H as ->. apply Hinit.
    - apply builtin_build_result in H as ->. apply Hinit.
    - unfold _builtin_stage in H.
      destruct (_partitions self) as [[|p ps]|] eqn:Hp.
      + apply bind_ok_inv in H as ([f d] & st2 & _ & H).
        apply bind_ok_inv in H as ([f' d'] & st3 & _ & H).
        apply bind_ok_inv in H as ([bf bd] & st4 & _ & H).
        apply bind_ok_inv in H as ([bf' bd'] & st5 & _ & H).
        apply ret_ok_inv in H as ->.
        apply (Hsingle true); [right; reflexivity|eexists; reflexivity].
      + apply bind_ok_inv in H as ([bf bd] & st2 & _ & H).
        apply bind_ok_inv in H as (s & st3 & H & H').
        apply ret_ok_inv in H' as ->.
        apply (for_each_preserves_in (fun s => I true (snd s))) in H;
          [exact H| |apply Hinit].
        intros x s0 st0 s' st' Hx Hinv Hb.
        apply stage_partition_result in Hb as (c & -> & _).
        apply (Hround true); [exact Hx|eexists; reflexivity|discriminate..|exact Hinv].
      + apply bind_ok_inv in H as ([f d] & st2 & _ & H).
        apply bind_ok_inv in H as ([f' d'] & st3 & _ & H).
        apply bind_ok_inv in H as ([bf bd] & st4 & _ & H).
        apply bind_ok_inv in H as ([bf' bd'] & st5 & _ & H).
        apply ret_ok_inv in H as ->.
        apply (Hsingle true); [left; reflexivity|eexists; reflexivity].
    - unfold _builtin_prime in H.
      apply bind_ok_inv in H as (fileset & st2 & _ & H).
      destruct (_partitions self) as [[|p ps]|] eqn:Hp.
      + apply bind_ok_inv in H as ([f d] & st3 & _ & H).
        apply bind_ok_inv in H as ([f' d'] & st4 & _ & H).
        apply ret_ok_inv in H as ->.
        apply (Hsingle false); [right; reflexivity|eexists; reflexivity].
      + apply (for_each_preserves_in (I false)) in H; [exact H| |apply Hinit].
        intros x s0 st0 s' st' Hx Hinv Hb.
        apply prime_partition_result in Hb as (c & ->).
        apply (Hround false); [exact Hx|eexists; reflexivity|discriminate..|exact Hinv].
      + apply bind_ok_inv in H as ([f d] & st3 & _ & H).
        apply bind_ok_inv in H as ([f' d'] & st4 & _ & H).
        apply ret_ok_inv in H as ->.
        apply (Hsingle false); [left; reflexivity|eexists; reflexivity]. }
  destruct HI as [I1 I2]. split.
  - intros partition c Hc. specialize (I1 partition c Hc).
    destruct (step (_step_info self)); exact I1.
  - intros Hno. rewrite (I2 Hno). destruct (step (_step_info self)); reflexivity.
Qed.

End PrimeFacts.

(** ** PRIME and STAGE on the sample environment *)

Lemma builtin_prime_calls_witness :
  calls (snd (_builtin_prime Sample.env
                (Sample.handler PRIME [] (Some ["default"; "kernel"])) Sample.fresh))
  = [ CallMigratable
        {| entries := ["usr/bin/*"]; fileset_name := "stage";
           fileset_default_partition := Some "default" |}
        "/parts/foo/install" (Some "default") (Some "default");
      CallMigrate "/stage" "/prime" false true;
      CallMigratable
        {| entries := ["usr/bin/*"]; fileset_name := "stage";
           fileset_default_partition := Some "default" |}
        "/partitions/kernel/parts/foo/install" (Some "default") (Some "kernel");
      CallMigrate "/partitions/kernel/stage" "/partitions/kernel/prime" false true ].
Proof.
  rewrite (proj1 (builtin_prime_calls Sample.env
                    (Sample.handler PRIME [] (Some ["default"; "kernel"])))
                 Sample.fresh).
  vm_compute. reflexivity.
Defined.

Lemma builtin_stage_without_partitions_witness :
  calls (snd (_builtin_stage Sample.env (Sample.handler STAGE [] None) Sample.fresh))
  = [ CallMigratable
        {| entries := ["usr/bin/*"]; fileset_name := "stage";
           fileset_default_partition := None |}
        "/parts/foo/install" (Some "default") None;
      CallMigrate "/parts/foo/install" "/stage" true false;
      CallMigratable
        {| entries := ["*"]; fileset_name := "backstage";
           fileset_default_partition := None |}
        "/parts/foo/export" (Some "default") None;
      CallMigrate "/parts/foo/export" "/backstage" false false ]
  /\ exists c,
       fst (_builtin_stage Sample.env (Sample.handler STAGE [] None) Sample.fresh)
       = Ok {| partitions_contents := {[ "default" := StagePC c ]} |}.
Proof.
  rewrite (builtin_stage_without_partitions Sample.env (Sample.handler STAGE [] None)
             Sample.fresh (or_introl eq_refl)).
  split; [vm_compute; reflexivity|].
  eexists. vm_compute. reflexivity.
Defined.

Lemma partitions_need_install_dirs_witness :
  (exists e,
     fst (_builtin_stage Sample.env (Sample.handler STAGE [] (Some ["default"; "boot"]))
                         Sample.fresh) = Raise e)
  /\ (exists e,
        fst (_builtin_prime Sample.env (Sample.handler PRIME [] (Some ["default"; "boot"]))
                            Sample.fresh) = Raise e).
Proof.
  assert (Hin : "boot" ∈ ["default"; "boot"])
    by (apply list_elem_of_further, list_elem_of_here).
  split.
  - destruct (_builtin_stage Sample.env
                (Sample.handler STAGE [] (Some ["default"; "boot"])) Sample.fresh)
      as [[sc|e] st1] eqn:Hrun; [|exists e; reflexivity].
    exfalso.
    apply (proj1 (partitions_need_install_dirs Sample.env
                    (Sample.handler STAGE [] (Some ["default"; "boot"]))
                    ["default"; "boot"] "boot" eq_refl Hin eq_refl
                    Sample.fresh sc st1)).
    exact Hrun.
  - destruct (_builtin_prime Sample.env
                (Sample.handler PRIME [] (Some ["default"; "boot"])) Sample.fresh)
      as [[sc|e] st1] eqn:Hrun; [|exists e; reflexivity].
    exfalso.
    apply (proj2 (partitions_need_install_dirs Sample.env
                    (Sample.handler PRIME [] (Some ["default"; "boot"]))
                    ["default"; "boot"] "boot" eq_refl Hin eq_refl
                    Sample.fresh sc st1)).
    exact Hrun.
Defined.

Lemma run_builtin_kinds_witness :
  exists sc st1,
    run_builtin Sample.env (Sample.handler PRIME [] (Some ["kernel"])) Sample.fresh
    = (Ok sc, st1)
    /\ partitions_contents sc !! "default" = Some (StepPC empty_StepPartitionContents)
    /\ exists c, partitions_contents sc !! "kernel" = Some (StepPC c).
Proof.
  destruct (run_builtin Sample.env (Sample.handler PRIME [] (Some ["kernel"]))
                        Sample.fresh) as [r st1] eqn:Hrun.
  assert (Hok : exists sc, r = Ok sc /\ is_Some (partitions_contents sc !! "kernel")).
  { vm_compute in Hrun. injection Hrun as <- _. eexists. split; [reflexivity|].
    eexists. vm_compute. reflexivity. }
  destruct Hok as (sc & -> & [c Hc]). exists sc, st1. split; [reflexivity|].
  destruct (run_builtin_kinds Sample.env _ _ _ _ Hrun) as [Hkind Hdefault].
  split.
  - apply Hdefault. cbn. set_solver.
  - destruct (Hkind "kernel" c Hc) as [c' ->]. exists c'. exact Hc.
Defined.

(** ** The run of a scriptlet *)

Section ScriptletFacts.
Context {V : Type} (E : Env V) (self : StepHandler).

(** X14.  Once the script of a scriptlet has been started, however its
    run ends (the scriptlet exits with any code, or a request raises in the
    control server), [run_scriptlet] cleans up before it returns or raises:
    it closes the control socket and removes the temporary directory with
    all that is in it, so that the script and its environment script are
    gone.  Nothing else is changed by the cleaning up: the other listening
    sockets, the files outside the temporary directory, the connections,
    what was sent, the project variables and the recorded calls are as the
    run left them. *)
Theorem run_scriptlet_cleans_up (scriptlet scriptlet_name : string) (step : Step)
  (work_dir : string) (st st' : hstate V) (r : result (Z * string)) :
  pump (Some (_ctl_server_selector E self step scriptlet_name))
       (scriptlet_child E self scriptlet work_dir st)
       (scriptlet_start E self scriptlet work_dir st) = (r, st') ->
  let tempdir := mkdtemp E (disk st) in
  let socket := os_path_join tempdir "craftctl.socket" in
  let st1 := snd (run_scriptlet E self scriptlet scriptlet_name step work_dir st) in
  listening st1 = listening st' ∖ {[ socket ]}
  /\ (forall path,
        PyStr.startswith (joinpath tempdir EmptyString) path = true ->
        disk st1 !! path = None)
  /\ disk st1 !! joinpath tempdir "scriptlet_environment.sh" = None
  /\ disk st1 !! joinpath tempdir "scriptlet.sh" = None
  /\ (forall path,
        PyStr.startswith (joinpath tempdir EmptyString) path = false ->
        disk st1 !! path = disk st' !! path)
  /\ vars st1 = vars st' /\ sent st1 = sent st'
  /\ registered st1 = registered st' /\ closed st1 = closed st'
  /\ calls st1 = calls st'.
Proof.
  intros Hpump tempdir socket st1.
  assert (Hst1 : st1 = scriptlet_cleanup E st st').
  { subst st1. rewrite run_scriptlet_unfold, Hpump.
    destruct r as [[rc err]|e]; [destruct (rc =? 0)%Z; reflexivity|].
    destruct e; reflexivity. }
  rewrite Hst1.
  assert (Hgone : forall path,
            PyStr.startswith (joinpath tempdir EmptyString) path = true ->
            disk (scriptlet_cleanup E st st') !! path = None).
  { intros path Hpath. cbn. apply map_lookup_filter_None. right.
    intros f _. cbn. unfold scriptlet_tempdir. fold tempdir. rewrite Hpath.
    discriminate. }
  split; [reflexivity|]. split; [exact Hgone|].
  split; [apply Hgone, startswith_joinpath|].
  split; [apply Hgone, startswith_joinpath|].
  split; [|repeat split].
  intros path Hpath. cbn.
  destruct (disk st' !! path) as [f|] eqn:Hf.
  - apply map_lookup_filter_Some. split; [exact Hf|].
    cbn. unfold scriptlet_tempdir. fold tempdir. exact Hpath.
  - apply map_lookup_filter_None. left. exact Hf.
Qed.


(** X16.  How a scriptlet is started: the control socket listens at
    [craftctl.socket] in the temporary directory; the environment script of
    the scriptlet exports [PARTS_CTL_SOCKET] with the path of the socket
    and then holds the environment of the step, with mode [0o644]; the
    script sources it and holds the scriptlet as its one command, with mode
    [0o755]; no other file is changed, and the script is run in [work_dir]
    with the selector of the control server. *)
Theorem run_scriptlet_launch (scriptlet scriptlet_name : string) (step : Step)
  (work_dir : string) (st : hstate V) :
  let tempdir := mkdtemp E (disk st) in
  let socket := os_path_join tempdir "craftctl.socket" in
  let environment_sh := joinpath tempdir "scriptlet_environment.sh" in
  let scriptlet_sh := joinpath tempdir "scriptlet.sh" in
  let LF := String "010"%char EmptyString in
  let environment := "export PARTS_CTL_SOCKET=" +:+ socket +:+ LF +:+ _env self in
  let script :=
    "#!/bin/bash" +:+ LF +:+ "set -euo pipefail" +:+ LF
    +:+ "source " +:+ environment_sh +:+ LF +:+ "set -x" +:+ LF
    +:+ scriptlet +:+ LF in
  exists launch : hstate V,
    disk launch !! environment_sh = Some (File environment 420 (* 0o644 *))
    /\ disk launch !! scriptlet_sh = Some (File script 493 (* 0o755 *))
    /\ (forall path, path <> environment_sh -> path <> scriptlet_sh ->
          disk launch !! path = disk st !! path)
    /\ listening launch = {[ socket ]} ∪ listening st
    /\ calls launch = (calls st ++ [CallRun scriptlet_sh work_dir true])%list
    /\ vars launch = vars st /\ sent launch = sent st
    /\ registered launch = registered st /\ closed launch = closed st
    /\ run_scriptlet E self scriptlet scriptlet_name step work_dir st
       = match pump (Some (_ctl_server_selector E self step scriptlet_name))
                    (exec E scriptlet_sh work_dir (_stdout self) (_stderr self)
                          (disk launch))
                    launch with
         | (Ok (returncode, stderr), st') =>
             (if (returncode =? 0)%Z then Ok tt
              else Raise (PartsError (ScriptletRunError (name (_part self))
                                        scriptlet_name returncode (Some stderr))),
              scriptlet_cleanup E st st')
         | (Raise (ProcessError returncode stderr), st') =>
             (Raise (PartsError (ScriptletRunError (name (_part self))
                                   scriptlet_name returncode (Some stderr))),
              scriptlet_cleanup E st st')
         | (Raise e, st') => (Raise e, scriptlet_cleanup E st st')
         end.
Proof.
  intros tempdir socket environment_sh scriptlet_sh LF environment script.
  exists (scriptlet_start E self scriptlet work_dir st).
  assert (Hne : scriptlet_sh <> environment_sh).
  { intros Heq. apply joinpath_inj in Heq. discriminate Heq. }
  assert (Hs : script_text [scriptlet] (Some environment_sh) = script).
  { unfold script_text, print_line, script, LF, PyStr.join. cbn [map foldr fold_right].
    rewrite !append_assoc, append_empty_r. reflexivity. }
  split; [|split; [|split; [|split; [|split; [|split; [|split; [|split; [|split]]]]]]]];
    try reflexivity.
  - cbn. unfold scriptlet_disk.
    rewrite lookup_insert_ne by exact Hne. apply lookup_insert_eq.
  - cbn. unfold scriptlet_disk. fold tempdir. rewrite <- Hs. apply lookup_insert_eq.
  - intros path H1 H2. cbn. unfold scriptlet_disk.
    rewrite lookup_insert_ne by (intros Heq; apply H2; symmetry; exact Heq).
    rewrite lookup_insert_ne by (intros Heq; apply H1; symmetry; exact Heq).
    reflexivity.
  - apply run_scriptlet_unfold.
Qed.

End ScriptletFacts.

Lemma run_scriptlet_cleans_up_witness :
  listening (snd (run_scriptlet Sample.env (Sample.handler BUILD ["make"] None)
                    "craftctl default" "override-build" BUILD "/parts/foo/build"
                    (Sample.state ∅ {[ "/request" :=
                                          File (Sample.request_text "default" []) 420 ]})))
  = ∅
  /\ disk (snd (run_scriptlet Sample.env (Sample.handler BUILD ["make"] None)
                  "craftctl default" "override-build" BUILD "/parts/foo/build"
                  (Sample.state ∅ {[ "/request" :=
                                        File (Sample.request_text "default" []) 420 ]})))
     !! "/tmp/ctl/scriptlet.sh" = None.
Proof.
  destruct (run_scriptlet_cleans_up Sample.env (Sample.handler BUILD ["make"] None)
              "craftctl default" "override-build" BUILD "/parts/foo/build"
              (Sample.state ∅ {[ "/request" :=
                                    File (Sample.request_text "default" []) 420 ]})
              _ _ (surjective_pairing _)) as (H1 & _ & _ & H2 & _).
  split; [|exact H2].
  rewrite H1. vm_compute. reflexivity.
Defined.


(** ** [errors.py]: the location of a validation error *)

Lemma py_pop_snoc (loc_parts : list string) (s : string) :
  py_pop (loc_parts ++ [s]) = Ok (s, loc_parts).
Proof.
  unfold py_pop. rewrite reverse_app, reverse_singleton. cbn [app].
  rewrite reverse_involutive. reflexivity.
Qed.

Lemma py_pop_nonempty (loc_parts : list string) :
  loc_parts <> [] ->
  exists previous_part others,
    py_pop loc_parts = Ok (previous_part, others).
Proof.
  intros Hne. destruct (reverse loc_parts) as [|x r] eqn:Hr.
  - apply (f_equal reverse) in Hr. rewrite reverse_involutive in Hr.
    contradiction.
  - unfold py_pop. rewrite Hr. eexists _, _. reflexivity.
Qed.

Lemma format_loc_parts_app (l1 l2 : list loc_part) (loc_parts : list string) :
  format_loc_parts (l1 ++ l2) loc_parts
  = match format_loc_parts l1 loc_parts with
    | Ok loc_parts' => format_loc_parts l2 loc_parts'
    | Raise e => Raise e
    end.
Proof.
  revert loc_parts. induction l1 as [|p l1 IH]; intros loc_parts; [reflexivity|].
  destruct p as [s|shown|shown]; cbn [app format_loc_parts].
  - apply IH.
  - destruct (py_pop loc_parts) as [[previous_part others]|e]; [apply IH|reflexivity].
  - reflexivity.
Qed.

(** X17.  An index in the location of a validation error is written in
    brackets after the name before it, with no dot between them: the same
    text results from a name followed by an index and from the one name
    that ends with the bracketed index. *)
Theorem format_loc_index_joins_previous (before after : list loc_part)
  (s shown : string) :
  _format_loc (before ++ LocStr s :: LocInt shown :: after)
  = _format_loc (before ++ LocStr (s +:+ "[" +:+ shown +:+ "]") :: after).
Proof.
  unfold _format_loc. rewrite !format_loc_parts_app.
  destruct (format_loc_parts before []) as [loc_parts|e]; [|reflexivity].
  cbn [format_loc_parts]. rewrite py_pop_snoc. reflexivity.
Qed.

Lemma format_loc_parts_ok (loc : list loc_part) (loc_parts : list string) :
  loc_parts <> [] ->
  (exists r, format_loc_parts loc loc_parts = Ok r)
  <-> (forall shown, LocOther shown ∉ loc).
Proof.
  revert loc_parts. induction loc as [|p loc IH]; intros loc_parts Hne.
  - split; [intros _ shown Hin; inversion Hin|intros _; eexists; reflexivity].
  - destruct p as [s|i|other]; cbn [format_loc_parts].
    + rewrite IH by (destruct loc_parts; discriminate).
      split; intros H shown Hin.
      * apply elem_of_cons in Hin as [[=]|Hin]. exact (H shown Hin).
      * apply (H shown). apply list_elem_of_further. exact Hin.
    + destruct (py_pop_nonempty loc_parts Hne) as (previous_part & others & ->).
      rewrite IH by (destruct others; discriminate).
      split; intros H shown Hin.
      * apply elem_of_cons in Hin as [[=]|Hin]. exact (H shown Hin).
      * apply (H shown). apply list_elem_of_further. exact Hin.
    + split.
      * intros [r [=]].
      * intros H. exfalso. apply (H other). apply list_elem_of_here.
Qed.

(** X18.  When a location can be formatted: exactly when each of its
    parts is a name or an index and it does not begin with an index.  A
    location that begins with an index raises [IndexError], as there is no
    name to attach the index to. *)
Theorem format_loc_succeeds_iff (loc : list loc_part) :
  ((exists field, _format_loc loc = Ok field)
   <-> (forall shown, LocOther shown ∉ loc)
       /\ (forall shown rest, loc <> LocInt shown :: rest))
  /\ (forall shown rest,
        loc = LocInt shown :: rest ->
        _format_loc loc = Raise (IndexError "pop from empty list")).
Proof.
  split; [|intros shown rest ->; reflexivity].
  assert (Hres : forall l acc,
            (exists field,
               match format_loc_parts l acc with
               | Ok loc_parts =>
                   Ok (str_replace ".__root__" EmptyString
                                   (PyStr.join_with "." loc_parts))
               | Raise e => Raise e
               end = Ok field)
            <-> (exists r, format_loc_parts l acc = Ok r)).
  { intros l acc. destruct (format_loc_parts l acc) as [r|e].
    - split; intros _; eexists; reflexivity.
    - split; intros [x [=]]. }
  unfold _format_loc. rewrite Hres.
  destruct loc as [|[s|i|other] loc].
  - split.
    + intros _. split; [intros shown Hin; inversion Hin|intros shown rest [=]].
    + intros _. eexists. reflexivity.
  - cbn [format_loc_parts app]. rewrite format_loc_parts_ok by discriminate.
    split.
    + intros H. split; [|intros shown rest [=]].
      intros shown Hin. apply elem_of_cons in Hin as [[=]|Hin]. exact (H shown Hin).
    + intros [H _] shown Hin. apply (H shown). apply list_elem_of_further. exact Hin.
  - split.
    + intros [r [=]].
    + intros [_ H]. exfalso. apply (H i loc). reflexivity.
  - split.
    + intros [r [=]].
    + intros [H _]. exfalso. apply (H other). apply list_elem_of_here.
Qed.

(** ** [errors.py]: the text of the errors *)

Section ErrorTexts.
Context {V : Type} (E : Env V).

(** X19.  The error output of a failed build or scriptlet is detailed
    exactly when it has a line that is not empty.  An output of empty lines
    only (or none) prints like no output at all, brief and resolution;
    otherwise the details begin with a newline and [:: ] and stand between
    the brief and the resolution. *)
Theorem blank_stderr_has_no_details (part_name plugin_name scriptlet_name : string)
  (exit_code : Z) (stderr : string) :
  let LF := String "010"%char EmptyString in
  (stderr_lines E stderr = [] ->
   PartsError_str E (PluginBuildError part_name plugin_name (Some stderr))
   = PartsError_str E (PluginBuildError part_name plugin_name None)
   /\ PartsError_str E (ScriptletRunError part_name scriptlet_name exit_code
                                          (Some stderr))
      = PartsError_str E (ScriptletRunError part_name scriptlet_name exit_code None))
  /\ (stderr_lines E stderr <> [] ->
      exists text,
        PyStr.startswith (LF +:+ ":: ") text = true
        /\ details E (PluginBuildError part_name plugin_name (Some stderr)) = Some text
        /\ details E (ScriptletRunError part_name scriptlet_name exit_code (Some stderr))
           = Some text
        /\ PartsError_str E (PluginBuildError part_name plugin_name (Some stderr))
           = brief E (PluginBuildError part_name plugin_name (Some stderr))
             +:+ LF +:+ text +:+ LF
             +:+ "Check the build output and verify the project can work with the "
             +:+ repr_str E plugin_name +:+ " plugin.").
Proof.
  intros LF. split.
  - intros Hlines.
    assert (Hd : UserExecutionError_details E (Some stderr) = Some EmptyString).
    { unfold UserExecutionError_details, displayed_lines. rewrite Hlines.
      reflexivity. }
    unfold PartsError_str. cbn [details]. rewrite Hd. split; reflexivity.
  - intros Hlines.
    assert (Hshown : displayed_lines E stderr <> []).
    { pose proof (displayed_lines_spec E stderr) as Hspec. cbv zeta in Hspec.
      destruct Hspec as [[_ ->]|(before & t & _ & _ & Hc)]; [exact Hlines|].
      intros Heq. rewrite Heq in Hc. discriminate Hc. }
    destruct (displayed_lines E stderr) as [|line lines] eqn:Hdl; [contradiction|].
    exists (PyStr.join (map (fun line => String "010"%char ":: " +:+ line)
                            (line :: lines))).
    split; [reflexivity|].
    assert (Hd : UserExecutionError_details E (Some stderr)
                 = Some (PyStr.join (map (fun line => String "010"%char ":: " +:+ line)
                                         (line :: lines)))).
    { unfold UserExecutionError_details. rewrite Hdl. reflexivity. }
    split; [exact Hd|]. split; [exact Hd|].
    unfold PartsError_str. cbn [details]. rewrite Hd. reflexivity.
Qed.

Lemma PartSpecificationError_formatted_errors_app (l1 l2 : list ErrorDict)
  (acc : list string) :
  PartSpecificationError_formatted_errors E (l1 ++ l2) acc
  = match PartSpecificationError_formatted_errors E l1 acc with
    | Ok acc' => PartSpecificationError_formatted_errors E l2 acc'
    | Raise e => Raise e
    end.
Proof.
  revert acc. induction l1 as [|error l1 IH]; intros acc; [reflexivity|].
  cbn [app PartSpecificationError_formatted_errors].
  destruct (error_loc error) as [[loc|]|]; try apply IH.
  destruct (error_msg error) as [msg|]; try apply IH.
  destruct (negb _); [apply IH|].
  destruct (_format_loc loc); [apply IH|reflexivity].
Qed.

Lemma FilesystemMountError_formatted_errors_app (l1 l2 : list ErrorDict)
  (acc : list string) :
  FilesystemMountError_formatted_errors E (l1 ++ l2) acc
  = match FilesystemMountError_formatted_errors E l1 acc with
    | Ok acc' => FilesystemMountError_formatted_errors E l2 acc'
    | Raise e => Raise e
    end.
Proof.
  revert acc. induction l1 as [|error l1 IH]; intros acc; [reflexivity|].
  cbn [app FilesystemMountError_formatted_errors].
  destruct (error_loc error) as [[loc|]|]; try apply IH.
  destruct (error_msg error) as [msg|]; try apply IH.
  destruct (negb _); [apply IH|].
  destruct (_format_loc loc); [apply IH|reflexivity].
Qed.

(** X20.  Which validation errors are left out of the error built from
    them.  An error without a message (missing or empty) or whose location
    is missing or not a tuple adds nothing, for a part specification and
    for a filesystem mount alike, wherever it stands in the list.  An error
    with an empty location is left out for a part specification too, but is
    reported for a filesystem mount, with an empty field name. *)
Theorem validation_errors_left_out (part_name : string)
  (before after : list ErrorDict) (error : ErrorDict) :
  let no_message := error_msg error = None \/ error_msg error = Some EmptyString in
  let no_tuple := forall loc, error_loc error <> Some (LocTuple loc) in
  (no_message \/ no_tuple \/ error_loc error = Some (LocTuple []) ->
   PartSpecificationError_from_validation_error E part_name (before ++ error :: after)
   = PartSpecificationError_from_validation_error E part_name (before ++ after))
  /\ (no_message \/ no_tuple ->
      FilesystemMountError_from_validation_error E (before ++ error :: after)
      = FilesystemMountError_from_validation_error E (before ++ after))
  /\ (forall msg,
        error_loc error = Some (LocTuple []) ->
        error_msg error = Some msg ->
        PyStr.truthy msg = true ->
        FilesystemMountError_from_validation_error E [error]
        = Ok (OtherPartsError "Filesystem validation failed."
                (Some (formatted_error E EmptyString msg)) None None)).
Proof.
  intros no_message no_tuple. split; [|split].
  - intros H.
    unfold PartSpecificationError_from_validation_error.
    rewrite !PartSpecificationError_formatted_errors_app.
    destruct (PartSpecificationError_formatted_errors E before []) as [acc|e];
      [|reflexivity].
    cbn [PartSpecificationError_formatted_errors].
    destruct H as [[Hm|Hm]|[Hl|Hl]].
    + rewrite Hm. destruct (error_loc error) as [[loc|]|]; reflexivity.
    + rewrite Hm. destruct (error_loc error) as [[loc|]|]; try reflexivity.
      cbn [PyStr.truthy]. rewrite andb_false_r. reflexivity.
    + destruct (error_loc error) as [[loc|]|]; try reflexivity.
      exfalso. apply (Hl loc). reflexivity.
    + rewrite Hl. destruct (error_msg error) as [msg|]; reflexivity.
  - intros H.
    unfold FilesystemMountError_from_validation_error.
    rewrite !FilesystemMountError_formatted_errors_app.
    destruct (FilesystemMountError_formatted_errors E before []) as [acc|e];
      [|reflexivity].
    cbn [FilesystemMountError_formatted_errors].
    destruct H as [[Hm|Hm]|Hl].
    + rewrite Hm. destruct (error_loc error) as [[loc|]|]; reflexivity.
    + rewrite Hm. destruct (error_loc error) as [[loc|]|]; reflexivity.
    + destruct (error_loc error) as [[loc|]|]; try reflexivity.
      exfalso. apply (Hl loc). reflexivity.
  - intros msg Hl Hm Ht.
    unfold FilesystemMountError_from_validation_error.
    cbn [FilesystemMountError_formatted_errors]. rewrite Hl, Hm, Ht. reflexivity.
Qed.

End ErrorTexts.

(** *** The order of strings *)

Lemma ascii_compare_refl (a : ascii) : Ascii.compare a a = Eq.
Proof. apply N.compare_refl. Qed.

Lemma ascii_compare_lt_trans (a b c : ascii) :
  Ascii.compare a b = Lt -> Ascii.compare b c = Lt -> Ascii.compare a c = Lt.
Proof.
  unfold Ascii.compare. rewrite !N.compare_lt_iff. apply N.lt_trans.
Qed.

Lemma string_leb_trans (s1 s2 s3 : string) :
  String.leb s1 s2 = true -> String.leb s2 s3 = true -> String.leb s1 s3 = true.
Proof.
  unfold String.leb. revert s2 s3.
  induction s1 as [|c1 s1 IH]; intros [|c2 s2] [|c3 s3]; cbn [String.compare];
    try reflexivity; try discriminate.
  destruct (Ascii.compare c1 c2) eqn:H12; try discriminate.
  - apply Ascii.compare_eq_iff in H12 as ->.
    destruct (Ascii.compare c2 c3) eqn:H23; try discriminate; [apply IH|reflexivity].
  - destruct (Ascii.compare c2 c3) eqn:H23; try discriminate.
    + apply Ascii.compare_eq_iff in H23 as <-. rewrite H12. reflexivity.
    + rewrite (ascii_compare_lt_trans _ _ _ H12 H23). reflexivity.
Qed.

#[global] Instance str_le_trans : Transitive str_le.
Proof. intros a b c. apply string_leb_trans. Qed.

#[global] Instance str_le_antisymm : AntiSymm (=) str_le.
Proof. intros a b. apply String.leb_antisym. Qed.

#[global] Instance str_le_total : Total str_le.
Proof. intros a b. apply String.leb_total. Qed.

Lemma py_sorted_Permutation (l1 l2 : list string) :
  l1 ≡ₚ l2 -> py_sorted l1 = py_sorted l2.
Proof.
  intros Hp. unfold py_sorted.
  apply (Sorted_unique str_le); try apply Sorted_merge_sort; try apply _.
  rewrite !merge_sort_Permutation. exact Hp.
Qed.

(** X21.  The text of the two conflict errors does not depend on the order
    in which the conflicting files are given: the files are listed sorted,
    so that two lists with the same files, each as often, give the same
    error. *)
Theorem conflict_errors_ignore_file_order {V} (E : Env V)
  (part_name other_part_name : string) (partition : option string)
  (conflicting_files conflicting_files' : list string) :
  conflicting_files ≡ₚ conflicting_files' ->
  PartFilesConflict E part_name other_part_name conflicting_files partition
  = PartFilesConflict E part_name other_part_name conflicting_files' partition
  /\ StageFilesConflict E part_name conflicting_files
     = StageFilesConflict E part_name conflicting_files'
  /\ Sorted str_le (py_sorted (map (fun i => "    " +:+ i) conflicting_files))
  /\ py_sorted (map (fun i => "    " +:+ i) conflicting_files)
     ≡ₚ map (fun i => "    " +:+ i) conflicting_files.
Proof.
  intros Hp.
  assert (Hf : file_paths conflicting_files = file_paths conflicting_files').
  { unfold file_paths. f_equal. apply py_sorted_Permutation.
    apply Permutation_map. exact Hp. }
  unfold PartFilesConflict, StageFilesConflict. rewrite Hf.
  split; [reflexivity|]. split; [reflexivity|].
  split; [apply Sorted_merge_sort; apply _|apply merge_sort_Permutation].
Qed.

Lemma blank_stderr_has_no_details_witness :
  stderr_lines Sample.env (Sample.LF +:+ Sample.LF) = []
  /\ PartsError_str Sample.env
       (PluginBuildError "foo" "make" (Some (Sample.LF +:+ Sample.LF)))
     = "Failed to run the build script for part 'foo'." +:+ Sample.LF
       +:+ "Check the build output and verify the project can work with the 'make' plugin.".
Proof.
  split; [reflexivity|].
  rewrite (proj1 (proj1 (blank_stderr_has_no_details Sample.env "foo" "make"
                           "override-build" 1 (Sample.LF +:+ Sample.LF))
                        eq_refl)).
  reflexivity.
Defined.

Lemma validation_errors_left_out_witness :
  PartSpecificationError_from_validation_error Sample.env "foo"
    [ {| error_loc := Some (LocTuple [LocStr "plugin"]);
         error_msg := Some "field required" |};
      {| error_loc := Some (LocTuple []); error_msg := Some "bad value" |} ]
  = Ok (PartSpecificationError Sample.env "foo" "- field 'plugin' is required").
Proof.
  exact (eq_trans
           (proj1 (validation_errors_left_out Sample.env "foo"
                     [ {| error_loc := Some (LocTuple [LocStr "plugin"]);
                          error_msg := Some "field required" |} ] []
                     {| error_loc := Some (LocTuple []);
                        error_msg := Some "bad value" |})
                  (or_intror (or_intror eq_refl)))
           eq_refl).
Defined.

Lemma conflict_errors_ignore_file_order_witness :
  StageFilesConflict Sample.env "foo" ["usr/bin/b"; "etc/a"]
  = StageFilesConflict Sample.env "foo" ["etc/a"; "usr/bin/b"]
  /\ details Sample.env (StageFilesConflict Sample.env "foo" ["usr/bin/b"; "etc/a"])
     = Some ("The following files in part 'foo' are already being staged "
             +:+ "with different content:" +:+ Sample.LF
             +:+ "    etc/a" +:+ Sample.LF +:+ "    usr/bin/b").
Proof.
  split.
  - apply (conflict_errors_ignore_file_order Sample.env "foo" "bar" None
             ["usr/bin/b"; "etc/a"] ["etc/a"; "usr/bin/b"]).
    apply perm_swap.
  - vm_compute. reflexivity.
Defined.

(** ** [errors.py]: the internal root of a location *)

Lemma startswith_length (p s : string) :
  PyStr.startswith p s = true -> (String.length p <= String.length s)%nat.
Proof.
  revert s. induction p as [|a p IH]; intros s H; [cbn; lia|].
  destruct s as [|b s]; [discriminate H|].
  cbn [PyStr.startswith] in H. destruct (Ascii.eqb a b); [|discriminate H].
  apply IH in H. cbn [String.length]. lia.
Qed.

Lemma startswith_app_tail (c0 : ascii) (q B S : string) :
  PyStr.contains (PyStr.chr c0) q = false ->
  begins_with_or_empty c0 S ->
  PyStr.startswith q (B +:+ S) = PyStr.startswith q B.
Proof.
  intros Hq HS. revert B. induction q as [|c q IH]; intros B.
  - destruct (B +:+ S), B; reflexivity.
  - pose proof (contains_chr_head _ _ _ Hq) as Hc.
    destruct B as [|b B].
    + change (EmptyString +:+ S) with S.
      destruct HS as [->|[S' ->]]; [reflexivity|].
      cbn [PyStr.startswith]. rewrite Hc. reflexivity.
    + change (String b B +:+ S) with (String b (B +:+ S)).
      cbn [PyStr.startswith]. destruct (Ascii.eqb c b); [|reflexivity].
      apply IH. eapply contains_cons. exact Hq.
Qed.

(** Replacing in a text followed by a tail that is empty or begins with the
    first character of [old], which occurs in [old] only there: no
    occurrence of [old] lies across the border, and the text and the tail
    are replaced apart. *)
Lemma replace_from_app (c0 : ascii) (q new B S : string) (skip : nat) :
  PyStr.contains (PyStr.chr c0) q = false ->
  begins_with_or_empty c0 S ->
  (skip <= String.length B)%nat ->
  replace_from (String c0 q) new (B +:+ S) skip
  = replace_from (String c0 q) new B skip +:+ replace_from (String c0 q) new S 0.
Proof.
  intros Hq HS. revert skip. induction B as [|b B IH]; intros skip Hskip.
  - cbn [String.length] in Hskip. replace skip with 0%nat by lia. reflexivity.
  - change (String b B +:+ S) with (String b (B +:+ S)).
    cbn [replace_from]. destruct skip as [|n].
    + change (String b (B +:+ S)) with (String b B +:+ S).
      assert (Hst : PyStr.startswith (String c0 q) (String b B +:+ S)
                    = PyStr.startswith (String c0 q) (String b B)).
      { change (String b B +:+ S) with (String b (B +:+ S)).
        cbn [PyStr.startswith]. destruct (Ascii.eqb c0 b); [|reflexivity].
        apply (startswith_app_tail c0); assumption. }
      rewrite Hst.
      destruct (PyStr.startswith (String c0 q) (String b B)) eqn:Hm.
      * apply startswith_length in Hm. cbn [String.length] in Hm.
        rewrite IH by (cbn [String.length]; lia).
        rewrite append_assoc. reflexivity.
      * rewrite IH by lia. reflexivity.
    + apply IH. cbn [String.length] in Hskip. lia.
Qed.

Lemma replace_from_skip (old new s t : string) :
  replace_from old new (s +:+ t) (String.length s) = replace_from old new t 0.
Proof.
  induction s as [|c s IH]; [destruct t; reflexivity|].
  change (String c s +:+ t) with (String c (s +:+ t)).
  cbn [String.length replace_from]. exact IH.
Qed.

(** An occurrence of [old] at the head of a text is replaced by [new]. *)
Lemma str_replace_head (c0 : ascii) (q new t : string) :
  str_replace (String c0 q) new (String c0 q +:+ t)
  = new +:+ str_replace (String c0 q) new t.
Proof.
  unfold str_replace.
  change (String c0 q +:+ t) with (String c0 (q +:+ t)).
  cbn [replace_from].
  change (String c0 (q +:+ t)) with (String c0 q +:+ t).
  rewrite startswith_app.
  replace (String.length (String c0 q) - 1)%nat with (String.length q)
    by (cbn [String.length]; lia).
  rewrite replace_from_skip. reflexivity.
Qed.

Lemma join_with_cons (sep p : string) (ps : list string) :
  ps <> [] -> PyStr.join_with sep (p :: ps) = p +:+ sep +:+ PyStr.join_with sep ps.
Proof. destruct ps; [contradiction|reflexivity]. Qed.

Lemma join_with_app (sep : string) (l1 l2 : list string) :
  l1 <> [] -> l2 <> [] ->
  PyStr.join_with sep (l1 ++ l2)
  = PyStr.join_with sep l1 +:+ sep +:+ PyStr.join_with sep l2.
Proof.
  intros H1 H2. induction l1 as [|p l1 IH]; [contradiction|].
  destruct l1 as [|p' l1].
  - cbn [app]. apply join_with_cons. exact H2.
  - change ((p :: p' :: l1) ++ l2)%list with (p :: ((p' :: l1) ++ l2))%list.
    rewrite join_with_cons by discriminate.
    rewrite IH by discriminate.
    rewrite (join_with_cons sep p (p' :: l1)) by discriminate.
    rewrite !append_assoc. reflexivity.
Qed.

Lemma py_pop_app (pre acc others : list string) (x : string) :
  py_pop acc = Ok (x, others) -> py_pop (pre ++ acc) = Ok (x, (pre ++ others)%list).
Proof.
  unfold py_pop. rewrite reverse_app.
  destruct (reverse acc) as [|y r]; [discriminate|].
  intros [= -> <-]. cbn [app]. rewrite reverse_app, !reverse_involutive.
  reflexivity.
Qed.

(** The parts before the last one take no part in what follows. *)
Lemma format_loc_parts_prefix (loc : list loc_part) (pre acc : list string) :
  acc <> [] ->
  format_loc_parts loc (pre ++ acc)
  = match format_loc_parts loc acc with
    | Ok r => Ok (pre ++ r)%list
    | Raise e => Raise e
    end.
Proof.
  revert acc. induction loc as [|p loc IH]; intros acc Hne; [reflexivity|].
  destruct p as [s|i|other]; cbn [format_loc_parts].
  - rewrite <- app_assoc. apply IH. destruct acc; discriminate.
  - destruct (py_pop_nonempty acc Hne) as (x & others & Hpop).
    rewrite (py_pop_app pre acc others x Hpop), Hpop.
    rewrite <- app_assoc. apply IH. destruct others; discriminate.
  - reflexivity.
Qed.

Lemma format_loc_parts_nonempty (loc : list loc_part) (acc r : list string) :
  format_loc_parts loc acc = Ok r -> loc <> [] \/ acc <> [] -> r <> [].
Proof.
  revert acc. induction loc as [|p loc IH]; intros acc H Hne.
  - injection H as <-. destruct Hne as [Hne|Hne]; [contradiction|exact Hne].
  - destruct p as [s|i|other]; cbn [format_loc_parts] in H.
    + apply (IH _ H). right. destruct acc; discriminate.
    + destruct (py_pop acc) as [[x others]|e]; [|discriminate].
      apply (IH _ H). right. destruct others; discriminate.
    + discriminate.
Qed.

(** X22.  The internal root of pydantic is filtered out of a location: a
    part [__root__] that follows another part, and that is the last part or
    is followed by a name, leaves no trace in the text, which is the text
    of the location without it.  (A [__root__] at the head of a location
    has no dot before it and is kept.) *)
Theorem format_loc_drops_root (before after : list loc_part) :
  before <> [] ->
  (after = [] \/ exists s rest, after = LocStr s :: rest) ->
  _format_loc (before ++ LocStr "__root__" :: after) = _format_loc (before ++ after).
Proof.
  intros Hb Ha. unfold _format_loc. rewrite !format_loc_parts_app.
  destruct (format_loc_parts before []) as [accB|e] eqn:HB; [|reflexivity].
  assert (HaccB : accB <> [])
    by (apply (format_loc_parts_nonempty _ _ _ HB); left; exact Hb).
  assert (Hdot : PyStr.contains (PyStr.chr ".") "__root__" = false) by reflexivity.
  assert (Hsplit : forall S,
            begins_with_or_empty "." S ->
            str_replace ".__root__" EmptyString (PyStr.join_with "." accB +:+ S)
            = str_replace ".__root__" EmptyString (PyStr.join_with "." accB)
              +:+ str_replace ".__root__" EmptyString S).
  { intros S HS. unfold str_replace.
    apply (replace_from_app "." "__root__"); [exact Hdot|exact HS|lia]. }
  cbn [format_loc_parts].
  destruct Ha as [->|(s & rest & ->)].
  - cbn [format_loc_parts]. f_equal.
    rewrite join_with_app by (exact HaccB || discriminate).
    cbn [PyStr.join_with].
    change ("." +:+ "__root__") with ".__root__".
    rewrite Hsplit by (right; eexists; reflexivity).
    change (str_replace ".__root__" EmptyString ".__root__") with EmptyString.
    rewrite append_empty_r. reflexivity.
  - cbn [format_loc_parts].
    rewrite (format_loc_parts_prefix rest (accB ++ ["__root__"]) [s]) by discriminate.
    rewrite (format_loc_parts_prefix rest accB [s]) by discriminate.
    destruct (format_loc_parts rest [s]) as [r|e'] eqn:HR; [|reflexivity].
    assert (Hr : r <> [])
      by (apply (format_loc_parts_nonempty _ _ _ HR); right; discriminate).
    f_equal.
    rewrite <- (app_assoc accB ["__root__"] r).
    rewrite (join_with_app "." accB (["__root__"] ++ r)) by (exact HaccB || discriminate).
    rewrite (join_with_app "." ["__root__"] r) by (exact Hr || discriminate).
    rewrite (join_with_app "." accB r) by assumption.
    cbn [PyStr.join_with].
    change ("." +:+ "__root__" +:+ "." +:+ PyStr.join_with "." r)
      with (".__root__" +:+ ("." +:+ PyStr.join_with "." r)).
    rewrite !Hsplit by (right; eexists; reflexivity).
    rewrite (str_replace_head "." "__root__" EmptyString).
    reflexivity.
Qed.

Lemma format_loc_drops_root_witness :
  _format_loc [LocStr "parts"; LocStr "foo"; LocStr "__root__"; LocStr "stage";
               LocInt "0"]
  = Ok "parts.foo.stage[0]"
  /\ _format_loc [LocStr "__root__"; LocStr "foo"] = Ok "__root__.foo".
Proof.
  split; [|reflexivity].
  exact (eq_trans
           (format_loc_drops_root [LocStr "parts"; LocStr "foo"]
              [LocStr "stage"; LocInt "0"] ltac:(discriminate)
              (or_intror (ex_intro _ "stage" (ex_intro _ [LocInt "0"] eq_refl))))
           eq_refl).
Defined.

Lemma format_loc_succeeds_iff_witness :
  _format_loc [LocInt "0"; LocStr "parts"] = Raise (IndexError "pop from empty list")
  /\ exists field, _format_loc [LocStr "parts"; LocInt "0"] = Ok field.
Proof.
  split.
  - apply (proj2 (format_loc_succeeds_iff [LocInt "0"; LocStr "parts"])
                 "0" [LocStr "parts"] eq_refl).
  - apply (proj1 (format_loc_succeeds_iff [LocStr "parts"; LocInt "0"])).
    split.
    + intros shown Hin. repeat (apply elem_of_cons in Hin as [[=]|Hin]).
      inversion Hin.
    + intros shown rest [=].
Defined.
